(** * MeetBot (hellomouse/meetingology): session, vote tracker and writers

    A shallow embedding of [meeting.py], [items.py], [writers.py] and the
    line entry points of [plugin.py], followed by the properties checked
    against them.

    Conventions of the embedding:
    - a Python [str] is a [string]; the character classes of the regular
      expressions ([\w], [\s], [\b]) and [str.lower] are the ASCII ones;
    - a Python [dict] used only through membership, lookup and update is a
      [gmap] (or a [gset] when the values are all [True]); [attendees], whose
      insertion order is observable in the rendered documents, is an
      association list in insertion order;
    - a method that may raise returns [option]: [None] stands for the
      exception leaving the method;
    - the transport callbacks ([reply], [privateReply], [topic]) only queue
      outgoing messages and touch no session attribute, so they do not appear
      in the session state;
    - [time.localtime()] is the [clock] argument of the entry points. *)

From Stdlib Require Import ZArith Lia Ascii String DecimalString.
From stdpp Require Import base option list strings gmap sorting.


(** ** Python string primitives *)

Module PyStr.

Definition code (c : ascii) : nat := nat_of_ascii c.

(** [str.isspace] on one ASCII character, which is also [\s]. *)
Definition is_space (c : ascii) : bool :=
  let n := code c in
  ((9 <=? n) && (n <=? 13)) || ((28 <=? n) && (n <=? 32)).

Definition is_digit (c : ascii) : bool :=
  let n := code c in (48 <=? n) && (n <=? 57).

Definition is_upper (c : ascii) : bool :=
  let n := code c in (65 <=? n) && (n <=? 90).

Definition is_lower (c : ascii) : bool :=
  let n := code c in (97 <=? n) && (n <=? 122).

(** [\w] *)
Definition is_word (c : ascii) : bool :=
  is_digit c || is_upper c || is_lower c || Ascii.eqb c "_".

Definition lower_char (c : ascii) : ascii :=
  if is_upper c then ascii_of_nat (code c + 32) else c.

(** [s.lower()] *)
Fixpoint lower (s : string) : string :=
  match s with
  | "" => ""
  | String c s' => String (lower_char c) (lower s')
  end.

Fixpoint lstrip_by (p : ascii → bool) (s : string) : string :=
  match s with
  | "" => ""
  | String c s' => if p c then lstrip_by p s' else s
  end.

Fixpoint rstrip_by (p : ascii → bool) (s : string) : string :=
  match s with
  | "" => ""
  | String c s' =>
      match rstrip_by p s' with
      | "" => if p c then "" else String c ""
      | r => String c r
      end
  end.

Definition strip_by (p : ascii → bool) (s : string) : string :=
  rstrip_by p (lstrip_by p s).

(** [s.lstrip()], [s.rstrip()], [s.strip()] *)
Definition lstrip : string → string := lstrip_by is_space.
Definition rstrip : string → string := rstrip_by is_space.
Definition strip : string → string := strip_by is_space.

(** [s.startswith(p)], which is also [s[:len(p)] == p]. *)
Fixpoint starts_with (p s : string) : bool :=
  match p, s with
  | "", _ => true
  | String a p', String b s' => Ascii.eqb a b && starts_with p' s'
  | String _ _, "" => false
  end.

(** [p in s] *)
Fixpoint contains (p s : string) : bool :=
  starts_with p s ||
  match s with
  | "" => false
  | String _ s' => contains p s'
  end.

(** [s.split('\n')] *)
Fixpoint split_lines_aux (cur : string) (s : string) : list string :=
  match s with
  | "" => [cur]
  | String c s' =>
      if Ascii.eqb c "010" then cur :: split_lines_aux "" s'
      else split_lines_aux (cur +:+ String c "") s'
  end.

Definition split_lines (s : string) : list string := split_lines_aux "" s.

(** [s[n:]] *)
Fixpoint drop_str (n : nat) (s : string) : string :=
  match n, s with
  | O, _ => s
  | S n', String _ s' => drop_str n' s'
  | S _, "" => ""
  end.

(** [c in s] for one character *)
Fixpoint mem_char (c : ascii) (s : string) : bool :=
  match s with
  | "" => false
  | String d s' => Ascii.eqb c d || mem_char c s'
  end.

(** The longest prefix of characters satisfying [p], and the rest. *)
Fixpoint span (p : ascii → bool) (s : string) : string * string :=
  match s with
  | "" => ("", "")
  | String c s' =>
      if p c then let '(a, b) := span p s' in (String c a, b) else ("", s)
  end.

(** [s.split(sep)[0]] for the two-character separator ["//"]. *)
Fixpoint before_dslash (s : string) : string :=
  match s with
  | "" => ""
  | String c s' =>
      match s' with
      | String d _ =>
          if Ascii.eqb c "/" && Ascii.eqb d "/" then ""
          else String c (before_dslash s')
      | "" => String c ""
      end
  end.

(** The non-empty pieces of [re.split('[, ]+', s)]. *)
Definition is_sep (c : ascii) : bool := Ascii.eqb c "," || Ascii.eqb c " ".

Fixpoint tokens_aux (cur : string) (s : string) : list string :=
  match s with
  | "" => if String.eqb cur "" then [] else [cur]
  | String c s' =>
      if is_sep c
      then (if String.eqb cur "" then tokens_aux "" s'
            else cur :: tokens_aux "" s')
      else tokens_aux (cur +:+ String c "") s'
  end.

Definition split_tokens (s : string) : list string := tokens_aux "" s.

(** [(s + ' ').split(' ', 1)] *)
Fixpoint split_first_space (s : string) : string * string :=
  match s with
  | "" => ("", "")
  | String c s' =>
      if Ascii.eqb c " " then ("", s')
      else let '(a, b) := split_first_space s' in (String c a, b)
  end.

(** [\b] between a character [prev] (absent at the start) and the text that
    follows. *)
Definition boundary (prev : option ascii) (rest : string) : bool :=
  xorb (from_option is_word false prev)
       (match rest with String c _ => is_word c | "" => false end).

(** ['%d' % n] for a natural number. *)
Definition dec (n : nat) : string := NilEmpty.string_of_uint (Nat.to_uint n).

(** ['%02d' % n] for [n < 100], as [strftime] prints hours and minutes. *)
Definition dec2 (n : nat) : string :=
  dec (n / 10 mod 10) +:+ dec (n mod 10).

(** [int(s)]: surrounding whitespace, an optional sign, decimal digits with
    single underscores between digits.  [None] is [ValueError]. *)
Fixpoint digits_val (acc : Z) (prev_digit : bool) (s : string) : option Z :=
  match s with
  | "" => if prev_digit then Some acc else None
  | String c s' =>
      if is_digit c
      then digits_val (10 * acc + Z.of_nat (code c - 48)) true s'
      else if Ascii.eqb c "_" && prev_digit
           then digits_val acc false s'
           else None
  end.

Definition int (s : string) : option Z :=
  match strip s with
  | String "+" ds => digits_val 0 false ds
  | String "-" ds => Z.opp <$> digits_val 0 false ds
  | ds => digits_val 0 false ds
  end.

(** [s.split()]: the maximal runs of non-whitespace characters. *)
Fixpoint words_aux (cur : string) (s : string) : list string :=
  match s with
  | "" => if String.eqb cur "" then [] else [cur]
  | String c s' =>
      if is_space c
      then (if String.eqb cur "" then words_aux "" s'
            else cur :: words_aux "" s')
      else words_aux (cur +:+ String c "") s'
  end.

Definition split_ws (s : string) : list string := words_aux "" s.

(** [sep.join(l)] *)
Fixpoint join (sep : string) (l : list string) : string :=
  match l with
  | [] => ""
  | [x] => x
  | x :: rest => x +:+ sep +:+ join sep rest
  end.

(** [s[:n].lower() == p] for a lower-case [p] of length [n]. *)
Definition starts_with_ci (p s : string) : bool :=
  String.eqb (lower (substring 0 (String.length p) s)) p.

(** The double quote, which the templates of [items.py] contain. *)
Definition dq : string := String "034" "".

(** *** The regular expressions of the sources, as matchers *)

(** [re.match(r'([+-]1|[+-]?0)\b', s)], the ballot pattern of [addline]
    and of the private [vote] command. *)
Definition is_sign (c : ascii) : bool := Ascii.eqb c "+" || Ascii.eqb c "-".

Definition ballot_RE (s : string) : bool :=
  match s with
  | String c r =>
      (is_sign c &&
       match r with
       | String d r' =>
           (Ascii.eqb d "1" || Ascii.eqb d "0") && boundary (Some d) r'
       | "" => false
       end)
      || (Ascii.eqb c "0" && boundary (Some c) r)
  | "" => false
  end.

(** [re.match(r'\+1\b', v)], [re.match(r'-1\b', v)] and
    [re.match(r'[+-]?0\b', v)], the three tally patterns of [do_endvote]. *)
Definition plus1_RE (v : string) : bool :=
  match v with
  | String "+" (String "1" r) => boundary (Some "1"%char) r
  | _ => false
  end.

Definition minus1_RE (v : string) : bool :=
  match v with
  | String "-" (String "1" r) => boundary (Some "1"%char) r
  | _ => false
  end.

Definition zero_RE (v : string) : bool :=
  match v with
  | String "0" r => boundary (Some "0"%char) r
  | String c (String "0" r) => is_sign c && boundary (Some "0"%char) r
  | _ => false
  end.

(** The tail of both command patterns, [(?:\s+(.*?)|)\s*$], applied to what
    follows the command word: the payload is the text between the
    surrounding whitespace, and [.] does not cross a newline. *)
Definition command_tail (w tail : string) : option (string * string) :=
  match tail with
  | "" => Some (w, "")
  | String c _ =>
      if is_space c
      then let body := strip tail in
           if mem_char "010" body then None else Some (w, body)
      else None
  end.

(** [Config.command_RE = re.compile(r'^#(\w+)(?:\s+(.*?)|)\s*$')] in
    [meeting.py]; the result is [matchobj.groups('')]. *)
Definition command_RE_default (s : string) : option (string * string) :=
  match s with
  | String "#" rest =>
      let '(w, tail) := span is_word rest in
      if String.eqb w "" then None else command_tail w tail
  | _ => None
  end.

(** [command_RE = re.compile(r'^[#\[](\w+)\]?(?:\s+(.*?)|)\s*$')] in
    [meetingLocalConfig.py], which overrides the default. *)
Definition command_RE_local (s : string) : option (string * string) :=
  match s with
  | String c rest =>
      if Ascii.eqb c "#" || Ascii.eqb c "["
      then let '(w, tail) := span is_word rest in
           if String.eqb w "" then None
           else match tail with
                | String "]" tail' => command_tail w tail'
                | _ => command_tail w tail
                end
      else None
  | "" => None
  end.

(** [re.match(r'.*\b%s\b.*' % re.escape(nick), line, re.I)]: some
    occurrence of [nick], compared without case, starts and ends at a word
    boundary and is not preceded by a newline. *)
Fixpoint match_ci (p s : string) (last : option ascii)
  : option (option ascii * string) :=
  match p with
  | "" => Some (last, s)
  | String a p' =>
      match s with
      | String b s' =>
          if Ascii.eqb (lower_char a) (lower_char b)
          then match_ci p' s' (Some b) else None
      | "" => None
      end
  end.

Definition word_at (nick : string) (prev : option ascii) (s : string) : bool :=
  boundary prev s &&
  match match_ci nick s prev with
  | Some (last, rest) => boundary last rest
  | None => false
  end.

Fixpoint nick_search (nick : string) (prev : option ascii) (s : string) : bool :=
  word_at nick prev s ||
  match s with
  | "" => false
  | String c s' =>
      if Ascii.eqb c "010" then false else nick_search nick (Some c) s'
  end.

Definition nick_RE (nick line : string) : bool := nick_search nick None line.

End PyStr.

Import PyStr.

(** ** [time.struct_time], as far as the sources read it *)

Record Time := { tm_hour : nat; tm_min : nat; tm_sec : nat }.

(** [time.strftime("%H:%M", t)] *)
Definition strftime_HM (t : Time) : string :=
  dec2 (tm_hour t) +:+ ":" +:+ dec2 (tm_min t).


(** ** [writers.py]: the escapers *)

Module escapers.

(** [text.replace(c, rep)] for a one-character [c]. *)
Fixpoint replace_char (c : ascii) (rep : string) (s : string) : string :=
  match s with
  | "" => ""
  | String d s' =>
      if Ascii.eqb c d then rep +:+ replace_char c rep s'
      else String d (replace_char c rep s')
  end.

(** [html(text)] *)
Definition html (text : string) : string :=
  replace_char ">" "&gt;" (replace_char "<" "&lt;" (replace_char "&" "&amp;" text)).

(** [text], [mw] and [moin] escape nothing. *)
Definition text (t : string) : string := t.
Definition mw (t : string) : string := t.
Definition moin (t : string) : string := t.

End escapers.

(** ** [items.py] *)

Module items.

(** [inbase(i, chars, place)].  [chars[mod]] raises [IndexError] when [mod]
    is not below [len(chars)]; the recursion is on [div], which is smaller
    than [i], so [fuel] above [i] is never used up. *)
Fixpoint inbase_rec (fuel : nat) (i : nat) (chars : string) (place : nat)
  : option string :=
  let d := String.length chars ^ (place + 1) in
  let div := i / d in
  let mod_ := i mod d in
  match div with
  | O => c ← String.get mod_ chars; Some (String c "")
  | S _ =>
      match fuel with
      | O => None
      | S fuel' =>
          hi ← inbase_rec fuel' div chars (place + 1);
          c ← String.get mod_ chars;
          Some (hi +:+ String c "")
      end
  end.

Definition alphabet : string := "abcdefghijklmnopqrstuvwxyz".

Definition inbase (i : nat) : option string := inbase_rec i i alphabet 0.

(** The classes of minute items, by their [itemtype]. *)
Inductive ItemType :=
  | TOPIC | SUBTOPIC | INFO | IDEA | AGREED | ACTION | HELP | DONE | VOTE
  | ACCEPTED | REJECTED | LINK.

Global Instance ItemType_eq_dec : EqDecision ItemType.
Proof. solve_decision. Defined.

Definition itemtype_name (t : ItemType) : string :=
  match t with
  | TOPIC => "TOPIC" | SUBTOPIC => "SUBTOPIC" | INFO => "INFO"
  | IDEA => "IDEA" | AGREED => "AGREED" | ACTION => "ACTION"
  | HELP => "HELP" | DONE => "DONE" | VOTE => "VOTE"
  | ACCEPTED => "ACCEPTED" | REJECTED => "REJECTED" | LINK => "LINK"
  end.

(** One minute item.  [line] is the attribute [topic] of a [Topic] or
    [Subtopic] and the attribute [line] of every other class; [url] is set
    by [Link] only.  [assigned] and [rstref] are the two attributes that the
    writers add to the object after its creation; [getattr(m, 'assigned',
    False)] reads a missing [assigned] as [false]. *)
Record Item := {
  itemtype : ItemType;
  nick : string;
  line : string;
  url : string;
  linenum : nat;
  time : string;
  assigned : bool;
  rstref : option string;
}.

(** [Topic.__init__], [Subtopic] and [GenericItem.__init__] with its
    subclasses: the same four assignments. *)
Definition new (t : ItemType) (nick line : string) (linenum : nat) (time_ : Time)
  : Item :=
  {| itemtype := t; nick := nick; line := line; url := ""; linenum := linenum;
     time := strftime_HM time_; assigned := false; rstref := None |}.

(** [Link.__init__] *)
Definition Link (nick line : string) (linenum : nat) (time_ : Time) : Item :=
  let '(u, rest) := split_first_space (line +:+ " ") in
  {| itemtype := LINK; nick := nick; line := rstrip rest; url := u;
     linenum := linenum; time := strftime_HM time_; assigned := false;
     rstref := None |}.

Definition set_assigned (b : bool) (m : Item) : Item :=
  {| itemtype := itemtype m; nick := nick m; line := line m; url := url m;
     linenum := linenum m; time := time m; assigned := b;
     rstref := rstref m |}.

Definition set_rstref (r : option string) (m : Item) : Item :=
  {| itemtype := itemtype m; nick := nick m; line := line m; url := url m;
     linenum := linenum m; time := time m; assigned := assigned m;
     rstref := r |}.

(** The attributes an item gets at creation. *)
Definition created (m : Item)
  : ItemType * string * string * string * nat * string :=
  (itemtype m, nick m, line m, url m, linenum m, time m).

(** [anchor] and [logURL(M)]; [basename] is [M.config.basename]. *)
Definition anchor (m : Item) : string := "l-" +:+ dec (linenum m).
Definition logURL (basename : string) : string := basename +:+ ".log.html".

(** [s[-1]], [None] for the [IndexError] on an empty string. *)
Fixpoint last_char (s : string) : option ascii :=
  match s with
  | "" => None
  | String c "" => Some c
  | String _ s' => last_char s'
  end.

(** The [while rstref in M.rst_refs] loop of [makeRSTref].  [inbase(676)]
    raises, so the body runs at most 677 times. *)
Fixpoint rstref_loop (fuel : nat) (refs : gset string) (orig rstref : string)
    (count : nat) : option string :=
  if bool_decide (rstref ∈ refs) then
    match fuel with
    | O => None
    | S fuel' =>
        sfx ← inbase count;
        rstref_loop fuel' refs orig (orig +:+ sfx) (S count)
    end
  else Some rstref.

(** [makeRSTref(M)]: the state is [(M.rst_refs, M.rst_urls)]. *)
Definition makeRSTref (basename : string) (m : Item)
    (st : gset string * list string)
  : option (string * (gset string * list string)) :=
  let '(refs, urls) := st in
  c ← last_char (nick m);
  let orig := if Ascii.eqb c "_" then nick m +:+ time m
              else nick m +:+ "-" +:+ time m in
  r ← rstref_loop 677 refs orig orig 0;
  Some (r, ({[r]} ∪ refs,
            urls ++ [".. _" +:+ r +:+ ": " +:+ logURL basename +:+ "#" +:+ anchor m])).

(** [m.rst(M)], as far as it writes: the reference is allocated and stored
    on the item. *)
Definition rst (basename : string) (m : Item) (st : gset string * list string)
  : option (Item * (gset string * list string)) :=
  '(r, st') ← makeRSTref basename m st;
  Some (set_rstref (Some r) m, st').

(** [starthtml] and [endhtml] of the classes. *)
Definition starthtml (t : ItemType) : string :=
  match t with
  | TOPIC => "<b class=" +:+ dq +:+ "TOPIC" +:+ dq +:+ ">"
  | SUBTOPIC => "<b class=" +:+ dq +:+ "SUBTOPIC" +:+ dq +:+ ">"
  | ACCEPTED => "<span class=" +:+ dq +:+ "text-success" +:+ dq +:+ ">"
  | REJECTED => "<span class=" +:+ dq +:+ "text-danger" +:+ dq +:+ ">"
  | _ => ""
  end.

Definition endhtml (t : ItemType) : string :=
  match t with
  | TOPIC | SUBTOPIC => "</b>"
  | ACCEPTED | REJECTED => "</span>"
  | _ => ""
  end.

(** The common tail of the four [html_template]s. *)
Definition details (basename : string) (m : Item) : string :=
  "<span class=" +:+ dq +:+ "details" +:+ dq +:+ ">(" +:+ escapers.html (nick m)
  +:+ ", <a href='" +:+ logURL basename +:+ "#" +:+ anchor m +:+ "'>"
  +:+ time m +:+ "</a>)</span>".

(** [m.html(M)] *)
Definition html (basename : string) (m : Item) : string :=
  let t := itemtype m in
  match t with
  | TOPIC | SUBTOPIC =>
      starthtml t +:+ escapers.html (line m) +:+ endhtml t +:+ " "
      +:+ details basename m
  | INFO =>
      "<span class=" +:+ dq +:+ itemtype_name t +:+ dq +:+ ">"
      +:+ starthtml t +:+ escapers.html (line m) +:+ endhtml t +:+ "</span> "
      +:+ details basename m
  | LINK =>
      starthtml t +:+ "<a href=" +:+ dq
      +:+ escapers.html (escapers.replace_char "034" "%22" (url m)) +:+ dq
      +:+ ">" +:+ escapers.html (url m) +:+ "</a> " +:+ escapers.html (line m)
      +:+ endhtml t +:+ " " +:+ details basename m
  | _ =>
      "<i class=" +:+ dq +:+ "itemtype" +:+ dq +:+ ">" +:+ itemtype_name t
      +:+ "</i>: <span class=" +:+ dq +:+ itemtype_name t +:+ dq +:+ ">"
      +:+ starthtml t +:+ escapers.html (line m) +:+ endhtml t +:+ "</span> "
      +:+ details basename m
  end.

End items.

(** ** [meeting.py] *)

Module meeting.

(** The attributes of a [Meeting].  [chairs] and [voters] are dictionaries
    whose values are all [True].  [currentVote] and [currentVoteStartLine]
    exist from the first [do_vote] on and are read only while a vote is
    open; [isop] is assigned by [addline] before any handler runs;
    [starttime] and [endtime] are [None] until they are assigned. *)
Record Meeting := {
  owner : option string;
  botIsOp : bool;
  botNick : string;
  channel : string;
  network : string;
  currenttopic : string;
  oldtopic : string;
  lines : list string;
  minutes : list items.Item;
  attendees : list (string * nat);
  chairs : gset string;
  voters : gset string;
  publicVoters : gmap string (list string);
  votes : gmap string (string * nat);
  votesrequired : Z;
  activeVote : string;
  currentVote : gmap string string;
  currentVoteStartLine : nat;
  _meetingTopic : option string;
  _meetingname : string;
  _meetingIsOver : bool;
  _lurk : bool;
  _restrictlogs : bool;
  isop : bool;
  starttime : option Time;
  endtime : option Time;
}.

(** Attribute assignment, one function per assigned attribute. *)
Definition set_owner (v : option string) (M : Meeting) : Meeting :=
  {| owner := v; botIsOp := botIsOp M; botNick := botNick M; channel :=
     channel M; network := network M; currenttopic := currenttopic M;
     oldtopic := oldtopic M; lines := lines M; minutes := minutes M;
     attendees := attendees M; chairs := chairs M; voters := voters M;
     publicVoters := publicVoters M; votes := votes M; votesrequired :=
     votesrequired M; activeVote := activeVote M; currentVote :=
     currentVote M; currentVoteStartLine := currentVoteStartLine M;
     _meetingTopic := _meetingTopic M; _meetingname := _meetingname M;
     _meetingIsOver := _meetingIsOver M; _lurk := _lurk M; _restrictlogs
     := _restrictlogs M; isop := isop M; starttime := starttime M; endtime
     := endtime M |}.

Definition set_channel (v : string) (M : Meeting) : Meeting :=
  {| owner := owner M; botIsOp := botIsOp M; botNick := botNick M; channel
     := v; network := network M; currenttopic := currenttopic M; oldtopic
     := oldtopic M; lines := lines M; minutes := minutes M; attendees :=
     attendees M; chairs := chairs M; voters := voters M; publicVoters :=
     publicVoters M; votes := votes M; votesrequired := votesrequired M;
     activeVote := activeVote M; currentVote := currentVote M;
     currentVoteStartLine := currentVoteStartLine M; _meetingTopic :=
     _meetingTopic M; _meetingname := _meetingname M; _meetingIsOver :=
     _meetingIsOver M; _lurk := _lurk M; _restrictlogs := _restrictlogs M;
     isop := isop M; starttime := starttime M; endtime := endtime M |}.

Definition set_currenttopic (v : string) (M : Meeting) : Meeting :=
  {| owner := owner M; botIsOp := botIsOp M; botNick := botNick M; channel
     := channel M; network := network M; currenttopic := v; oldtopic :=
     oldtopic M; lines := lines M; minutes := minutes M; attendees :=
     attendees M; chairs := chairs M; voters := voters M; publicVoters :=
     publicVoters M; votes := votes M; votesrequired := votesrequired M;
     activeVote := activeVote M; currentVote := currentVote M;
     currentVoteStartLine := currentVoteStartLine M; _meetingTopic :=
     _meetingTopic M; _meetingname := _meetingname M; _meetingIsOver :=
     _meetingIsOver M; _lurk := _lurk M; _restrictlogs := _restrictlogs M;
     isop := isop M; starttime := starttime M; endtime := endtime M |}.

Definition set_lines (v : list string) (M : Meeting) : Meeting :=
  {| owner := owner M; botIsOp := botIsOp M; botNick := botNick M; channel
     := channel M; network := network M; currenttopic := currenttopic M;
     oldtopic := oldtopic M; lines := v; minutes := minutes M; attendees
     := attendees M; chairs := chairs M; voters := voters M; publicVoters
     := publicVoters M; votes := votes M; votesrequired := votesrequired
     M; activeVote := activeVote M; currentVote := currentVote M;
     currentVoteStartLine := currentVoteStartLine M; _meetingTopic :=
     _meetingTopic M; _meetingname := _meetingname M; _meetingIsOver :=
     _meetingIsOver M; _lurk := _lurk M; _restrictlogs := _restrictlogs M;
     isop := isop M; starttime := starttime M; endtime := endtime M |}.

Definition set_minutes (v : list items.Item) (M : Meeting) : Meeting :=
  {| owner := owner M; botIsOp := botIsOp M; botNick := botNick M; channel
     := channel M; network := network M; currenttopic := currenttopic M;
     oldtopic := oldtopic M; lines := lines M; minutes := v; attendees :=
     attendees M; chairs := chairs M; voters := voters M; publicVoters :=
     publicVoters M; votes := votes M; votesrequired := votesrequired M;
     activeVote := activeVote M; currentVote := currentVote M;
     currentVoteStartLine := currentVoteStartLine M; _meetingTopic :=
     _meetingTopic M; _meetingname := _meetingname M; _meetingIsOver :=
     _meetingIsOver M; _lurk := _lurk M; _restrictlogs := _restrictlogs M;
     isop := isop M; starttime := starttime M; endtime := endtime M |}.

Definition set_attendees (v : list (string * nat)) (M : Meeting) : Meeting :=
  {| owner := owner M; botIsOp := botIsOp M; botNick := botNick M; channel
     := channel M; network := network M; currenttopic := currenttopic M;
     oldtopic := oldtopic M; lines := lines M; minutes := minutes M;
     attendees := v; chairs := chairs M; voters := voters M; publicVoters
     := publicVoters M; votes := votes M; votesrequired := votesrequired
     M; activeVote := activeVote M; currentVote := currentVote M;
     currentVoteStartLine := currentVoteStartLine M; _meetingTopic :=
     _meetingTopic M; _meetingname := _meetingname M; _meetingIsOver :=
     _meetingIsOver M; _lurk := _lurk M; _restrictlogs := _restrictlogs M;
     isop := isop M; starttime := starttime M; endtime := endtime M |}.

Definition set_chairs (v : gset string) (M : Meeting) : Meeting :=
  {| owner := owner M; botIsOp := botIsOp M; botNick := botNick M; channel
     := channel M; network := network M; currenttopic := currenttopic M;
     oldtopic := oldtopic M; lines := lines M; minutes := minutes M;
     attendees := attendees M; chairs := v; voters := voters M;
     publicVoters := publicVoters M; votes := votes M; votesrequired :=
     votesrequired M; activeVote := activeVote M; currentVote :=
     currentVote M; currentVoteStartLine := currentVoteStartLine M;
     _meetingTopic := _meetingTopic M; _meetingname := _meetingname M;
     _meetingIsOver := _meetingIsOver M; _lurk := _lurk M; _restrictlogs
     := _restrictlogs M; isop := isop M; starttime := starttime M; endtime
     := endtime M |}.

Definition set_voters (v : gset string) (M : Meeting) : Meeting :=
  {| owner := owner M; botIsOp := botIsOp M; botNick := botNick M; channel
     := channel M; network := network M; currenttopic := currenttopic M;
     oldtopic := oldtopic M; lines := lines M; minutes := minutes M;
     attendees := attendees M; chairs := chairs M; voters := v;
     publicVoters := publicVoters M; votes := votes M; votesrequired :=
     votesrequired M; activeVote := activeVote M; currentVote :=
     currentVote M; currentVoteStartLine := currentVoteStartLine M;
     _meetingTopic := _meetingTopic M; _meetingname := _meetingname M;
     _meetingIsOver := _meetingIsOver M; _lurk := _lurk M; _restrictlogs
     := _restrictlogs M; isop := isop M; starttime := starttime M; endtime
     := endtime M |}.

Definition set_publicVoters (v : gmap string (list string)) (M : Meeting) : Meeting :=
  {| owner := owner M; botIsOp := botIsOp M; botNick := botNick M; channel
     := channel M; network := network M; currenttopic := currenttopic M;
     oldtopic := oldtopic M; lines := lines M; minutes := minutes M;
     attendees := attendees M; chairs := chairs M; voters := voters M;
     publicVoters := v; votes := votes M; votesrequired := votesrequired
     M; activeVote := activeVote M; currentVote := currentVote M;
     currentVoteStartLine := currentVoteStartLine M; _meetingTopic :=
     _meetingTopic M; _meetingname := _meetingname M; _meetingIsOver :=
     _meetingIsOver M; _lurk := _lurk M; _restrictlogs := _restrictlogs M;
     isop := isop M; starttime := starttime M; endtime := endtime M |}.

Definition set_votes (v : gmap string (string * nat)) (M : Meeting) : Meeting :=
  {| owner := owner M; botIsOp := botIsOp M; botNick := botNick M; channel
     := channel M; network := network M; currenttopic := currenttopic M;
     oldtopic := oldtopic M; lines := lines M; minutes := minutes M;
     attendees := attendees M; chairs := chairs M; voters := voters M;
     publicVoters := publicVoters M; votes := v; votesrequired :=
     votesrequired M; activeVote := activeVote M; currentVote :=
     currentVote M; currentVoteStartLine := currentVoteStartLine M;
     _meetingTopic := _meetingTopic M; _meetingname := _meetingname M;
     _meetingIsOver := _meetingIsOver M; _lurk := _lurk M; _restrictlogs
     := _restrictlogs M; isop := isop M; starttime := starttime M; endtime
     := endtime M |}.

Definition set_votesrequired (v : Z) (M : Meeting) : Meeting :=
  {| owner := owner M; botIsOp := botIsOp M; botNick := botNick M; channel
     := channel M; network := network M; currenttopic := currenttopic M;
     oldtopic := oldtopic M; lines := lines M; minutes := minutes M;
     attendees := attendees M; chairs := chairs M; voters := voters M;
     publicVoters := publicVoters M; votes := votes M; votesrequired := v;
     activeVote := activeVote M; currentVote := currentVote M;
     currentVoteStartLine := currentVoteStartLine M; _meetingTopic :=
     _meetingTopic M; _meetingname := _meetingname M; _meetingIsOver :=
     _meetingIsOver M; _lurk := _lurk M; _restrictlogs := _restrictlogs M;
     isop := isop M; starttime := starttime M; endtime := endtime M |}.

Definition set_activeVote (v : string) (M : Meeting) : Meeting :=
  {| owner := owner M; botIsOp := botIsOp M; botNick := botNick M; channel
     := channel M; network := network M; currenttopic := currenttopic M;
     oldtopic := oldtopic M; lines := lines M; minutes := minutes M;
     attendees := attendees M; chairs := chairs M; voters := voters M;
     publicVoters := publicVoters M; votes := votes M; votesrequired :=
     votesrequired M; activeVote := v; currentVote := currentVote M;
     currentVoteStartLine := currentVoteStartLine M; _meetingTopic :=
     _meetingTopic M; _meetingname := _meetingname M; _meetingIsOver :=
     _meetingIsOver M; _lurk := _lurk M; _restrictlogs := _restrictlogs M;
     isop := isop M; starttime := starttime M; endtime := endtime M |}.

Definition set_currentVote (v : gmap string string) (M : Meeting) : Meeting :=
  {| owner := owner M; botIsOp := botIsOp M; botNick := botNick M; channel
     := channel M; network := network M; currenttopic := currenttopic M;
     oldtopic := oldtopic M; lines := lines M; minutes := minutes M;
     attendees := attendees M; chairs := chairs M; voters := voters M;
     publicVoters := publicVoters M; votes := votes M; votesrequired :=
     votesrequired M; activeVote := activeVote M; currentVote := v;
     currentVoteStartLine := currentVoteStartLine M; _meetingTopic :=
     _meetingTopic M; _meetingname := _meetingname M; _meetingIsOver :=
     _meetingIsOver M; _lurk := _lurk M; _restrictlogs := _restrictlogs M;
     isop := isop M; starttime := starttime M; endtime := endtime M |}.

Definition set_currentVoteStartLine (v : nat) (M : Meeting) : Meeting :=
  {| owner := owner M; botIsOp := botIsOp M; botNick := botNick M; channel
     := channel M; network := network M; currenttopic := currenttopic M;
     oldtopic := oldtopic M; lines := lines M; minutes := minutes M;
     attendees := attendees M; chairs := chairs M; voters := voters M;
     publicVoters := publicVoters M; votes := votes M; votesrequired :=
     votesrequired M; activeVote := activeVote M; currentVote :=
     currentVote M; currentVoteStartLine := v; _meetingTopic :=
     _meetingTopic M; _meetingname := _meetingname M; _meetingIsOver :=
     _meetingIsOver M; _lurk := _lurk M; _restrictlogs := _restrictlogs M;
     isop := isop M; starttime := starttime M; endtime := endtime M |}.

Definition set_meetingTopic (v : option string) (M : Meeting) : Meeting :=
  {| owner := owner M; botIsOp := botIsOp M; botNick := botNick M; channel
     := channel M; network := network M; currenttopic := currenttopic M;
     oldtopic := oldtopic M; lines := lines M; minutes := minutes M;
     attendees := attendees M; chairs := chairs M; voters := voters M;
     publicVoters := publicVoters M; votes := votes M; votesrequired :=
     votesrequired M; activeVote := activeVote M; currentVote :=
     currentVote M; currentVoteStartLine := currentVoteStartLine M;
     _meetingTopic := v; _meetingname := _meetingname M; _meetingIsOver :=
     _meetingIsOver M; _lurk := _lurk M; _restrictlogs := _restrictlogs M;
     isop := isop M; starttime := starttime M; endtime := endtime M |}.

Definition set_meetingname (v : string) (M : Meeting) : Meeting :=
  {| owner := owner M; botIsOp := botIsOp M; botNick := botNick M; channel
     := channel M; network := network M; currenttopic := currenttopic M;
     oldtopic := oldtopic M; lines := lines M; minutes := minutes M;
     attendees := attendees M; chairs := chairs M; voters := voters M;
     publicVoters := publicVoters M; votes := votes M; votesrequired :=
     votesrequired M; activeVote := activeVote M; currentVote :=
     currentVote M; currentVoteStartLine := currentVoteStartLine M;
     _meetingTopic := _meetingTopic M; _meetingname := v; _meetingIsOver
     := _meetingIsOver M; _lurk := _lurk M; _restrictlogs := _restrictlogs
     M; isop := isop M; starttime := starttime M; endtime := endtime M |}.

Definition set_meetingIsOver (v : bool) (M : Meeting) : Meeting :=
  {| owner := owner M; botIsOp := botIsOp M; botNick := botNick M; channel
     := channel M; network := network M; currenttopic := currenttopic M;
     oldtopic := oldtopic M; lines := lines M; minutes := minutes M;
     attendees := attendees M; chairs := chairs M; voters := voters M;
     publicVoters := publicVoters M; votes := votes M; votesrequired :=
     votesrequired M; activeVote := activeVote M; currentVote :=
     currentVote M; currentVoteStartLine := currentVoteStartLine M;
     _meetingTopic := _meetingTopic M; _meetingname := _meetingname M;
     _meetingIsOver := v; _lurk := _lurk M; _restrictlogs := _restrictlogs
     M; isop := isop M; starttime := starttime M; endtime := endtime M |}.

Definition set_lurk (v : bool) (M : Meeting) : Meeting :=
  {| owner := owner M; botIsOp := botIsOp M; botNick := botNick M; channel
     := channel M; network := network M; currenttopic := currenttopic M;
     oldtopic := oldtopic M; lines := lines M; minutes := minutes M;
     attendees := attendees M; chairs := chairs M; voters := voters M;
     publicVoters := publicVoters M; votes := votes M; votesrequired :=
     votesrequired M; activeVote := activeVote M; currentVote :=
     currentVote M; currentVoteStartLine := currentVoteStartLine M;
     _meetingTopic := _meetingTopic M; _meetingname := _meetingname M;
     _meetingIsOver := _meetingIsOver M; _lurk := v; _restrictlogs :=
     _restrictlogs M; isop := isop M; starttime := starttime M; endtime :=
     endtime M |}.

Definition set_restrictlogs (v : bool) (M : Meeting) : Meeting :=
  {| owner := owner M; botIsOp := botIsOp M; botNick := botNick M; channel
     := channel M; network := network M; currenttopic := currenttopic M;
     oldtopic := oldtopic M; lines := lines M; minutes := minutes M;
     attendees := attendees M; chairs := chairs M; voters := voters M;
     publicVoters := publicVoters M; votes := votes M; votesrequired :=
     votesrequired M; activeVote := activeVote M; currentVote :=
     currentVote M; currentVoteStartLine := currentVoteStartLine M;
     _meetingTopic := _meetingTopic M; _meetingname := _meetingname M;
     _meetingIsOver := _meetingIsOver M; _lurk := _lurk M; _restrictlogs
     := v; isop := isop M; starttime := starttime M; endtime := endtime M |}.

Definition set_isop (v : bool) (M : Meeting) : Meeting :=
  {| owner := owner M; botIsOp := botIsOp M; botNick := botNick M; channel
     := channel M; network := network M; currenttopic := currenttopic M;
     oldtopic := oldtopic M; lines := lines M; minutes := minutes M;
     attendees := attendees M; chairs := chairs M; voters := voters M;
     publicVoters := publicVoters M; votes := votes M; votesrequired :=
     votesrequired M; activeVote := activeVote M; currentVote :=
     currentVote M; currentVoteStartLine := currentVoteStartLine M;
     _meetingTopic := _meetingTopic M; _meetingname := _meetingname M;
     _meetingIsOver := _meetingIsOver M; _lurk := _lurk M; _restrictlogs
     := _restrictlogs M; isop := v; starttime := starttime M; endtime :=
     endtime M |}.

Definition set_starttime (v : option Time) (M : Meeting) : Meeting :=
  {| owner := owner M; botIsOp := botIsOp M; botNick := botNick M; channel
     := channel M; network := network M; currenttopic := currenttopic M;
     oldtopic := oldtopic M; lines := lines M; minutes := minutes M;
     attendees := attendees M; chairs := chairs M; voters := voters M;
     publicVoters := publicVoters M; votes := votes M; votesrequired :=
     votesrequired M; activeVote := activeVote M; currentVote :=
     currentVote M; currentVoteStartLine := currentVoteStartLine M;
     _meetingTopic := _meetingTopic M; _meetingname := _meetingname M;
     _meetingIsOver := _meetingIsOver M; _lurk := _lurk M; _restrictlogs
     := _restrictlogs M; isop := isop M; starttime := v; endtime :=
     endtime M |}.

Definition set_endtime (v : option Time) (M : Meeting) : Meeting :=
  {| owner := owner M; botIsOp := botIsOp M; botNick := botNick M; channel
     := channel M; network := network M; currenttopic := currenttopic M;
     oldtopic := oldtopic M; lines := lines M; minutes := minutes M;
     attendees := attendees M; chairs := chairs M; voters := voters M;
     publicVoters := publicVoters M; votes := votes M; votesrequired :=
     votesrequired M; activeVote := activeVote M; currentVote :=
     currentVote M; currentVoteStartLine := currentVoteStartLine M;
     _meetingTopic := _meetingTopic M; _meetingname := _meetingname M;
     _meetingIsOver := _meetingIsOver M; _lurk := _lurk M; _restrictlogs
     := _restrictlogs M; isop := isop M; starttime := starttime M; endtime
     := v |}.

(** The part of [Config] that the session reads.  [save] is
    [Config.save(realtime_update)], the persistence layer: it runs the
    configured writers and writes their documents to disk.  Its effect on
    the session is what the writers do to the stored items. *)
Record Config := {
  command_RE : string → option (string * string);
  UrlProtocols : list string;
  save : bool → Meeting → Meeting;
}.

(** [Meeting.__init__] *)
Definition init (channel : string) (owner : option string) (botIsOp : bool)
    (botNick oldtopic network : string) : Meeting :=
  {| owner := owner; botIsOp := botIsOp; botNick := botNick;
     channel := channel; network := network; currenttopic := "";
     oldtopic := oldtopic; lines := []; minutes := []; attendees := [];
     chairs := ∅; voters := ∅; publicVoters := ∅; votes := ∅;
     votesrequired := 0; activeVote := ""; currentVote := ∅;
     currentVoteStartLine := 0; _meetingTopic := None; _meetingname := "";
     _meetingIsOver := false; _lurk := false; _restrictlogs := false;
     isop := false; starttime := None; endtime := None |}.

(** The dictionary [attendees], in insertion order. *)
Fixpoint att_get (nick : string) (a : list (string * nat)) : option nat :=
  match a with
  | [] => None
  | (k, v) :: a' => if String.eqb k nick then Some v else att_get nick a'
  end.

Fixpoint att_set (nick : string) (n : nat) (a : list (string * nat))
  : list (string * nat) :=
  match a with
  | [] => [(nick, n)]
  | (k, v) :: a' =>
      if String.eqb k nick then (k, n) :: a' else (k, v) :: att_set nick n a'
  end.

(** [addnick(nick, lines)] *)
Definition addnick (nick : string) (n : nat) (M : Meeting) : Meeting :=
  if negb (String.eqb nick (botNick M))
  then set_attendees
         (att_set nick (default 0 (att_get nick (attendees M)) + n) (attendees M)) M
  else M.

(** [isChair(nick)] *)
Definition isChair (M : Meeting) (nick : string) : bool :=
  bool_decide (owner M = Some nick) || bool_decide (nick ∈ chairs M) || isop M.

(** [additem(m)] *)
Definition additem (m : items.Item) (M : Meeting) : Meeting :=
  set_minutes (minutes M ++ [m]) M.

(** [doCastVote(nick, line, time_, private)]; the body does not read
    [time_].  [publicVoters[activeVote]] raises [KeyError] when the
    proposal has no entry. *)
Definition doCastVote (nick line : string) (private : bool) (M : Meeting)
  : option Meeting :=
  if bool_decide (voters M = ∅) || bool_decide (nick ∈ voters M) then
    if negb (String.eqb (activeVote M) "") then
      let M1 := set_currentVote (<[nick := line]> (currentVote M)) M in
      if negb private then
        l ← publicVoters M1 !! activeVote M1;
        Some (set_publicVoters
                (<[activeVote M1 := l ++ [nick]]> (publicVoters M1)) M1)
      else Some M1
    else Some M
  else Some M.

(** [addrawline(nick, line, time_)]; the result is the line number. *)
Definition logline (nick line : string) (time_ : Time) : string :=
  let line := strip_by (Ascii.eqb "001") line in
  if starts_with "ACTION" line
  then strftime_HM time_ +:+ " * " +:+ nick +:+ " " +:+ lstrip (drop_str 7 line)
  else strftime_HM time_ +:+ " <" +:+ nick +:+ "> " +:+ line.

Definition addrawline (clock : Time) (nick line : string) (time_ : option Time)
    (M : Meeting) : nat * Meeting :=
  let M1 := addnick nick 1 M in
  let time_ := default clock time_ in
  let M2 := set_lines (lines M1 ++ [logline nick line time_]) M1 in
  (length (lines M2), M2).

(** The three tally counters of [do_endvote]: each ballot is counted by the
    first pattern of the [if]/[elif] chain that it matches. *)
Inductive Tally := For | Against | Abstain.

Definition classify (v : string) : option Tally :=
  if plus1_RE v then Some For
  else if minus1_RE v then Some Against
  else if zero_RE v then Some Abstain
  else None.

Definition is_tally (t : Tally) (v : string) : bool :=
  match classify v, t with
  | Some For, For | Some Against, Against | Some Abstain, Abstain => true
  | _, _ => false
  end.

Definition tally (t : Tally) (cv : gmap string string) : nat :=
  length (List.filter (is_tally t) (snd <$> map_to_list cv)).

(** The outcome chain of [do_endvote]: [(voteResult, motion)], or [None]
    when no branch binds the two names. *)
Definition outcome (vfor vagainst : nat) (required : Z)
  : option (string * string) :=
  let margin := (Z.of_nat vfor - Z.of_nat vagainst)%Z in
  if (required <=? margin)%Z then Some ("Carried", "Motion carried")
  else if (margin <? required)%Z then Some ("Denied", "Motion denied")
  else if (required =? 0)%Z then Some ("Deadlock", "Motion deadlocked")
  else None.

Definition voteSummary (motion : string) (vfor vagainst vabstain : nat) : string :=
  motion +:+ " (For: " +:+ dec vfor +:+ ", Against: " +:+ dec vagainst
  +:+ ", Abstained: " +:+ dec vabstain +:+ ")".

Section Handlers.

Variable cfg : Config.
(** What [time.localtime()] returns during the call. *)
Variable clock : Time.

(** The arguments every handler is called with: [nick], [line], [linenum]
    and [time_]. *)
Definition Handler : Type := string → string → nat → Time → Meeting → option Meeting.

Definition do_meetingtopic : Handler := λ nick line linenum time_ M,
  if negb (isChair M nick) then Some M
  else if String.eqb line "" || bool_decide (lower line ∈ ["none"; "unset"])
       then Some (set_meetingTopic None M)
       else Some (set_meetingTopic (Some line) M).

Definition do_startmeeting : Handler := λ nick line linenum time_ M,
  let M1 := match owner M with
            | None | Some "" => set_owner (Some nick) M
            | Some _ => M
            end in
  let M2 := match starttime M1 with
            | None => set_starttime (Some time_) M1
            | Some _ => M1
            end in
  if negb (String.eqb line "") then do_meetingtopic nick line linenum time_ M2
  else Some M2.

Definition do_endvote : Handler := λ nick line linenum time_ M,
  if negb (isChair M nick) then Some M
  else if String.eqb (activeVote M) "" then Some M
  else
    let vfor := tally For (currentVote M) in
    let vagainst := tally Against (currentVote M) in
    let vabstain := tally Abstain (currentVote M) in
    '(voteResult, motion) ← outcome vfor vagainst (votesrequired M);
    let M1 := set_votes
                (<[activeVote M := (voteSummary motion vfor vagainst vabstain,
                                    currentVoteStartLine M)]> (votes M)) M in
    let voteResultLog := activeVote M1 +:+ " (" +:+ voteResult +:+ ")" in
    let M2 := additem (items.new items.VOTE nick voteResultLog linenum time_) M1 in
    Some (set_currentVoteStartLine 0 (set_currentVote ∅ (set_activeVote "" M2))).

(** [endmeeting()] *)
Definition endmeeting (M : Meeting) : Meeting := save cfg false M.

Definition do_endmeeting : Handler := λ nick line linenum time_ M,
  if negb (isChair M nick) then Some M
  else
    M1 ← (if negb (String.eqb (activeVote M) "")
          then do_endvote nick line linenum clock M else Some M);
    Some (endmeeting (set_meetingIsOver true (set_endtime (Some time_) M1))).

Definition do_abortmeeting : Handler := λ nick line linenum time_ M, Some M.

Definition do_replay : Handler := λ nick line linenum time_ M, Some M.

Definition do_topic : Handler := λ nick line linenum time_ M,
  if negb (isChair M nick) then Some M
  else Some (additem (items.new items.TOPIC nick line linenum time_)
               (set_currenttopic line M)).

Definition do_subtopic : Handler := λ nick line linenum time_ M,
  if negb (isChair M nick) then Some M
  else Some (additem (items.new items.SUBTOPIC nick line linenum time_) M).

Definition do_progress : Handler := do_subtopic.

Definition do_save : Handler := λ nick line linenum time_ M,
  if negb (isChair M nick) then Some M
  else Some (save cfg false (set_endtime (Some time_) M)).

(** [do_done], [do_agreed], [do_accepted] and [do_rejected] differ in the
    class of the item only. *)
Definition chair_item (t : items.ItemType) : Handler := λ nick line linenum time_ M,
  if negb (isChair M nick) then Some M
  else Some (additem (items.new t nick line linenum time_) M).

Definition do_done : Handler := chair_item items.DONE.
Definition do_agreed : Handler := chair_item items.AGREED.
Definition do_agree : Handler := do_agreed.
Definition do_accepted : Handler := chair_item items.ACCEPTED.
Definition do_accept : Handler := do_accepted.
Definition do_rejected : Handler := chair_item items.REJECTED.
Definition do_reject : Handler := do_rejected.

Definition do_chair : Handler := λ nick line linenum time_ M,
  if negb (isChair M nick) then Some M
  else Some (foldl (λ M chair,
                      if bool_decide (chair ∈ chairs M) then M
                      else let M1 := addnick chair 0 M in
                           set_chairs ({[chair]} ∪ chairs M1) M1)
                   M (split_tokens line)).

Definition do_unchair : Handler := λ nick line linenum time_ M,
  if negb (isChair M nick) then Some M
  else Some (foldl (λ M chair,
                      if bool_decide (chair ∈ chairs M)
                      then set_chairs (chairs M ∖ {[chair]}) M else M)
                   M (split_tokens line)).

Definition do_undo : Handler := λ nick line linenum time_ M,
  if negb (isChair M nick) then Some M
  else match minutes M with
       | [] => Some M
       | _ => Some (set_minutes (removelast (minutes M)) M)
       end.

Definition do_restrictlogs : Handler := λ nick line linenum time_ M,
  if negb (isChair M nick) then Some M else Some (set_restrictlogs true M).

Definition do_lurk : Handler := λ nick line linenum time_ M,
  if negb (isChair M nick) then Some M else Some (set_lurk true M).

Definition do_unlurk : Handler := λ nick line linenum time_ M,
  if negb (isChair M nick) then Some M else Some (set_lurk false M).

Definition do_meetingname : Handler := λ nick line linenum time_ M,
  if negb (isChair M nick) then Some M
  else Some (set_meetingname (join "_" (split_ws (lower line))) M).

Definition do_vote : Handler := λ nick line linenum time_ M,
  if negb (isChair M nick) then Some M
  else if negb (String.eqb (activeVote M) "") then Some M
  else
    let M1 := set_currentVote ∅ (set_activeVote line M) in
    let M2 := set_publicVoters (<[activeVote M1 := []]> (publicVoters M1)) M1 in
    Some (set_currentVoteStartLine (length (lines M2)) M2).

Definition do_votesrequired : Handler := λ nick line linenum time_ M,
  if negb (isChair M nick) then Some M
  else Some (set_votesrequired (default 0%Z (int line)) M).

(** The loop of [do_voters], which returns at the first of the three
    words that reopen the vote to everyone. *)
Fixpoint voters_loop (toks : list string) (M : Meeting) : Meeting :=
  match toks with
  | [] => M
  | voter :: rest =>
      if bool_decide (voter ∈ ["everyone"; "everybody"; "all"])
      then set_voters ∅ M
      else if bool_decide (voter ∈ voters M) then voters_loop rest M
           else let M1 := addnick voter 0 M in
                voters_loop rest (set_voters ({[voter]} ∪ voters M1) M1)
  end.

Definition do_voters : Handler := λ nick line linenum time_ M,
  if negb (isChair M nick) then Some M
  else Some (voters_loop (split_tokens line) M).

Definition do_private_commands : Handler := λ nick line linenum time_ M, Some M.

(** [do_action], [do_info], [do_idea] and [do_help] differ in the class. *)
Definition anyone_item (t : items.ItemType) : Handler := λ nick line linenum time_ M,
  Some (additem (items.new t nick line linenum time_) M).

Definition do_action : Handler := anyone_item items.ACTION.
Definition do_info : Handler := anyone_item items.INFO.
Definition do_idea : Handler := anyone_item items.IDEA.
Definition do_help : Handler := anyone_item items.HELP.
Definition do_halp : Handler := do_help.

Definition do_nick : Handler := λ nick line linenum time_ M,
  Some (foldl (λ M nick, addnick nick 0 M) M (split_tokens line)).

Definition do_link : Handler := λ nick line linenum time_ M,
  Some (additem (items.Link nick line linenum time_) M).

Definition do_commands : Handler := λ nick line linenum time_ M, Some M.

(** [getattr(self, "do_" + command)] when [hasattr] finds it. *)
Definition handlers : list (string * Handler) :=
  [ ("startmeeting", do_startmeeting); ("endmeeting", do_endmeeting);
    ("abortmeeting", do_abortmeeting); ("replay", do_replay);
    ("topic", do_topic); ("subtopic", do_subtopic); ("progress", do_progress);
    ("meetingtopic", do_meetingtopic); ("save", do_save); ("done", do_done);
    ("agreed", do_agreed); ("agree", do_agree); ("accepted", do_accepted);
    ("accept", do_accept); ("rejected", do_rejected); ("reject", do_reject);
    ("chair", do_chair); ("unchair", do_unchair); ("undo", do_undo);
    ("restrictlogs", do_restrictlogs); ("lurk", do_lurk); ("unlurk", do_unlurk);
    ("meetingname", do_meetingname); ("vote", do_vote);
    ("votesrequired", do_votesrequired); ("endvote", do_endvote);
    ("voters", do_voters); ("private_commands", do_private_commands);
    ("action", do_action); ("info", do_info); ("idea", do_idea);
    ("help", do_help); ("halp", do_halp); ("nick", do_nick); ("link", do_link);
    ("commands", do_commands) ].

Fixpoint lookup_handler (command : string) (l : list (string * Handler))
  : option Handler :=
  match l with
  | [] => None
  | (k, h) :: l' => if String.eqb k command then Some h else lookup_handler command l'
  end.

Definition dispatch (command : string) : option Handler :=
  lookup_handler command handlers.

(** The end of [addline]: the realtime save, then the ballot. *)
Definition after_command (nick line : string) (M : Meeting) : option Meeting :=
  let M1 := save cfg true M in
  if ballot_RE line then doCastVote nick line false M1 else Some M1.

(** [addline(nick, line, isop, time_)] *)
Definition addline (nick line : string) (isop : bool) (time_ : option Time)
    (M : Meeting) : option Meeting :=
  let time_ := default clock time_ in
  let '(linenum, M1) := addrawline clock nick line (Some time_) M in
  let M2 := set_isop isop M1 in
  match command_RE cfg line with
  | Some (command, line) =>
      let command := lower command in
      M3 ← match dispatch command with
           | Some h => h nick line linenum time_ M2
           | None => Some M2
           end;
      after_command nick line M3
  | None =>
      M3 ← (if bool_decide (before_dslash line ∈ UrlProtocols cfg)
            then do_link nick line linenum time_ M2 else Some M2);
      after_command nick line M3
  end.

(** A sequence of [addline] calls, each given as [(nick, line, isop,
    time_)]: the line numbers that the calls get from [addrawline], and the
    session at the end. *)
Fixpoint addlines (calls : list (string * string * bool * option Time))
    (M : Meeting) : option (list nat * Meeting) :=
  match calls with
  | [] => Some ([], M)
  | (nick, line, isop, time_) :: rest =>
      let linenum := (addrawline clock nick line (Some (default clock time_)) M).1 in
      M1 ← addline nick line isop time_ M;
      '(nums, M2) ← addlines rest M1;
      Some (linenum :: nums, M2)
  end.

End Handlers.

(** The handlers that the documentation reserves to chairs. *)
Definition chair_only : list string :=
  ["topic"; "subtopic"; "meetingtopic"; "save"; "done"; "agreed"; "accepted";
   "rejected"; "chair"; "unchair"; "undo"; "restrictlogs"; "lurk"; "unlurk";
   "meetingname"; "vote"; "votesrequired"; "endvote"; "voters"].

(** What the session assumes of the persistence layer: [save] returns, and
    leaves every attribute of the session as it is except the two
    attributes that the writers put on the stored items. *)
Definition save_frame (cfg : Config) : Prop :=
  ∀ realtime M,
    save cfg realtime M = set_minutes (minutes (save cfg realtime M)) M ∧
    items.created <$> minutes (save cfg realtime M) = items.created <$> minutes M.

(** [self.attendees.get(nick, 0)] *)
Definition attributed (M : Meeting) (nick : string) : nat :=
  default 0 (att_get nick (attendees M)).

(** While a vote is open, [publicVoters] has an entry for its proposal:
    [do_vote] creates both together and nothing deletes the entry. *)
Definition vote_wf (M : Meeting) : Prop :=
  activeVote M ≠ "" → is_Some (publicVoters M !! activeVote M).

(** [Config.UrlProtocols] *)
Definition UrlProtocols_default : list string :=
  ["http:"; "https:"; "irc:"; "ftp:"; "mailto:"; "ssh:"].

(** What no handler changes: the transcript, the bot's nick and the line
    count of every nick; and no handler breaks [vote_wf]. *)
Definition handler_frame (M M' : Meeting) : Prop :=
  lines M' = lines M ∧ botNick M' = botNick M ∧
  (∀ n, attributed M' n = attributed M n) ∧
  (vote_wf M → vote_wf M').

Definition handler_ok (h : Handler) : Prop :=
  ∀ nick line linenum time_ M,
    ∃ M', h nick line linenum time_ M = Some M' ∧ handler_frame M M'.

(** *** What a line may do to the session *)

(** How one line may change the minutes, as far as the attributes given at
    creation go: not at all, by taking the last item away, or by adding one
    item that carries the number of the line. *)
Definition minutes_step (linenum : nat) (ms ms' : list items.Item) : Prop :=
  items.created <$> ms' = items.created <$> ms
  ∨ items.created <$> ms' = removelast (items.created <$> ms)
  ∨ ∃ m, items.created <$> ms' = (items.created <$> ms) ++ [items.created m]
         ∧ items.linenum m = linenum.


(** The books of the vote tracker: an open vote has its list of public
    voters, so has every recorded vote; every public voter of the open vote
    has a ballot; and no ballot is kept while no vote is open. *)
Definition vote_books (M : Meeting) : Prop :=
  vote_wf M
  ∧ (∀ v, is_Some (votes M !! v) → is_Some (publicVoters M !! v))
  ∧ (activeVote M ≠ "" →
     ∀ l n, publicVoters M !! activeVote M = Some l → n ∈ l →
            is_Some (currentVote M !! n))
  ∧ (activeVote M = "" → currentVote M = ∅).

(** [not self.owner] *)
Definition no_owner (M : Meeting) : Prop :=
  owner M = None ∨ owner M = Some "".

(** What grows and what stays over any number of lines: the owner and
    the start time once they are set, the bot's nick, the attendees and
    their counts, the flag that ends the meeting, and the books of the
    vote tracker. *)
Definition session_order (M M' : Meeting) : Prop :=
  (¬ no_owner M → owner M' = owner M)
  ∧ (is_Some (starttime M) → starttime M' = starttime M)
  ∧ botNick M' = botNick M
  ∧ (∀ n k, att_get n (attendees M) = Some k →
            ∃ k', att_get n (attendees M') = Some k' ∧ k ≤ k')
  ∧ (att_get (botNick M) (attendees M) = None →
     att_get (botNick M) (attendees M') = None)
  ∧ (_meetingIsOver M = true → _meetingIsOver M' = true)
  ∧ (vote_books M → vote_books M').


(** A handler respects [session_order]. *)
Definition handler_order (h : Handler) : Prop :=
  ∀ nick line linenum time_ M M',
    h nick line linenum time_ M = Some M' → session_order M M'.

(** What the handler of the command [name] does to the minutes and to the
    flag that ends the meeting. *)
Definition handler_effect (name : string) (h : Handler) : Prop :=
  ∀ nick line linenum time_ M M',
    h nick line linenum time_ M = Some M' →
    minutes_step linenum (minutes M) (minutes M')
    ∧ (_meetingIsOver M' = _meetingIsOver M
       ∨ (name = "endmeeting" ∧ isChair M nick = true
          ∧ _meetingIsOver M' = true)).

(** The session that the handlers see in [addline]: the line is in the
    transcript and counted for its nick, and [isop] is stored. *)
Definition seen (clock : Time) (nick line : string) (isop : bool)
    (time_ : option Time) (M : Meeting) : Meeting :=
  set_isop isop
    (set_lines (lines M ++ [logline nick line (default clock time_)])
       (addnick nick 1 M)).

End meeting.

(** ** [writers.py] *)

Module writers.

Import items.

(** [indentItem(item, indent)] *)
Fixpoint spaces (n : nat) : string :=
  match n with
  | O => ""
  | S n' => String " " (spaces n')
  end.

Definition indentItem (item : string) (indent : nat) : string :=
  spaces indent +:+ item.

(** The writer classes. *)
Inductive Writer :=
  | TextLog | HTMLlog | HTML | ReST | HTMLfromReST | Text | MediaWiki
  | PmWiki | Moin | Template.

(** [getattr(writer, 'update_realtime', False)] *)
Definition update_realtime (w : Writer) : bool :=
  match w with TextLog => true | _ => false end.

(** *** The per-person action lists *)

(** [sorted(M.attendees.keys(), key=lambda x: x.lower())]: a stable sort. *)
Fixpoint insert_nick (k : string) (l : list string) : list string :=
  match l with
  | [] => [k]
  | x :: r =>
      if String.leb (lower x) (lower k) then x :: insert_nick k r else k :: l
  end.

Definition sorted_nicks (attendees : list (string * nat)) : list string :=
  foldl (λ acc k, insert_nick k acc) [] (fst <$> attendees).

(** The two tests at the head of the loop body of [nickitems()]. *)
Definition nick_matches (nick : string) (m : Item) : bool :=
  bool_decide (itemtype m = ACTION) && nick_RE nick (line m).

(** One [nickitems()] run to its end: the items it yields, and the stored
    items afterwards.  The generator yields the stored objects themselves
    and sets [m.assigned = True] on each before yielding it. *)
Definition nickitems (nick : string) (minutes : list Item)
  : list Item * list Item :=
  (set_assigned true <$> List.filter (nick_matches nick) minutes,
   (λ m, if nick_matches nick m then set_assigned true m else m) <$> minutes).

(** [iterActionItemsUnassigned()] *)
Definition iterActionItemsUnassigned (minutes : list Item) : list Item :=
  List.filter (λ m, bool_decide (itemtype m = ACTION) && negb (assigned m))
              minutes.

Section get_template.

Variable escape : string → string.

(** The loop over [iterActionItemsNick()] in [get_template]: the entries
    [{'nick': ..., 'items': [...]}] appended to [ActionItemsPerson], and the
    stored items afterwards. *)
Fixpoint per_person (nicks : list string) (minutes : list Item)
  : list (string * list string) * list Item :=
  match nicks with
  | [] => ([], minutes)
  | nick :: rest =>
      let '(yielded, minutes1) := nickitems nick minutes in
      let thisNick := (escape nick, (λ m, escape (line m)) <$> yielded) in
      let '(out, minutes2) := per_person rest minutes1 in
      ((if 0 <? length thisNick.2 then [thisNick] else []) ++ out, minutes2)
  end.

(** [repl['ActionItemsPerson']] of [get_template], with the stored items
    after the pass. *)
Definition ActionItemsPerson (attendees : list (string * nat))
    (minutes : list Item) : list (string * list string) * list Item :=
  let '(persons, minutes1) := per_person (sorted_nicks attendees) minutes in
  let thisNick :=
    ("UNASSIGNED", (λ m, escape (line m)) <$> iterActionItemsUnassigned minutes1) in
  (persons ++ (if 1 <? length thisNick.2 then [thisNick] else []), minutes1).

(** The entry of one nick in the per-person list: its matching action
    items in the order of the minutes, when there is at least one. *)
Definition entry (minutes : list Item) (nick : string)
  : list (string * list string) :=
  let ls := (λ m, escape (line m)) <$> List.filter (nick_matches nick) minutes in
  if 0 <? length ls then [(escape nick, ls)] else [].

End get_template.

(** What the marking loops of a pass over [nicks] do to one item. *)
Definition mark1 (nicks : list string) (m : Item) : Item :=
  if existsb (λ n, nick_matches n m) nicks then set_assigned true m else m.

(** *** What one [format()] call does to the stored items *)

(** The [actionItemsPerson] loops of every summary writer: each nick in
    turn flags the action items that name it. *)
Definition mark_assigned (attendees : list (string * nat)) (minutes : list Item)
  : list Item :=
  foldl (λ ms nick, (nickitems nick ms).2) minutes (sorted_nicks attendees).

(** The first loop of [ReST.format]: [m.rst(M)] on every item in order,
    starting from empty [M.rst_refs] and [M.rst_urls]. *)
Fixpoint rst_items (basename : string) (minutes : list Item)
    (st : gset string * list string)
  : option (list Item * (gset string * list string)) :=
  match minutes with
  | [] => Some ([], st)
  | m :: rest =>
      '(m', st1) ← rst basename m st;
      '(rest', st2) ← rst_items basename rest st1;
      Some (m' :: rest', st2)
  end.

(** The stored items after [w.format()]; [None] when the call raises. *)
Definition format_items (w : Writer) (basename : string)
    (attendees : list (string * nat)) (minutes : list Item)
  : option (list Item) :=
  match w with
  | TextLog | HTMLlog => Some minutes
  | HTML | Text | MediaWiki | PmWiki | Moin | Template =>
      Some (mark_assigned attendees minutes)
  | ReST | HTMLfromReST =>
      '(minutes1, _) ← rst_items basename minutes (∅, []);
      Some (mark_assigned attendees minutes1)
  end.

(** What a render pass may do to one stored item: the attributes given at
    creation stay; [assigned] is never taken back, and is set only on an
    action item whose text names an attendee. *)
Definition render_marks (attendees : list (string * nat)) (m m' : Item) : Prop :=
  created m' = created m
  ∧ (assigned m = true → assigned m' = true)
  ∧ (assigned m' = true →
     assigned m = true
     ∨ (itemtype m = ACTION
        ∧ ∃ nick, nick ∈ attendees.*1 ∧ nick_RE nick (line m) = true)).


(** *** [HTML.meetingItems] *)

(** The loop variables of [HTML.meetingItems]. *)
Record Nesting := {
  haveTopic : bool;
  haveSubtopic : bool;
  inSublist : bool;
  inSubsublist : bool;
  MeetingItems : list string;
}.

Section HTML.

(** [wrapList(item, indent)] is [textwrap]'s [fill]. *)
Variable wrapList : string → nat → string.
Variable basename : string.

Definition heading (name : string) : string := "<h3>" +:+ name +:+ "</h3>".

Definition ol_a : string := "<ol type=" +:+ dq +:+ "a" +:+ dq +:+ ">".
Definition ol_i : string := "<ol type=" +:+ dq +:+ "i" +:+ dq +:+ ">".

(** The [if not inSublist:] block shared by the last two branches. *)
Definition open_sublist (st : Nesting) : Nesting :=
  if inSublist st then st
  else
    let out := MeetingItems st in
    let out := if haveTopic st then out else out ++ [indentItem "<li>" 2] in
    {| haveTopic := true; haveSubtopic := haveSubtopic st; inSublist := true;
       inSubsublist := inSubsublist st;
       MeetingItems := out ++ [indentItem ol_a 4] |}.

(** One turn of the loop over [M.minutes]. *)
Definition item_step (st : Nesting) (m : Item) : Nesting :=
  let item := "<li>" +:+ html basename m in
  match itemtype m with
  | TOPIC =>
      let out := MeetingItems st in
      let out := if inSublist st then out ++ [indentItem "</ol>" 4] else out in
      let out := if haveSubtopic st
                 then (if inSubsublist st then out ++ [indentItem "</ol>" 8]
                       else out) ++ [indentItem "</li>" 6]
                 else out in
      let out := if haveTopic st then out ++ [indentItem "</li>" 2] else out in
      {| haveTopic := true; haveSubtopic := false; inSublist := false;
         inSubsublist := if haveSubtopic st then false else inSubsublist st;
         MeetingItems := out ++ [wrapList item 2] |}
  | SUBTOPIC =>
      let st1 := open_sublist st in
      {| haveTopic := haveTopic st1; haveSubtopic := true;
         inSublist := inSublist st1; inSubsublist := inSubsublist st1;
         MeetingItems := MeetingItems st1 ++ [wrapList item 6] |}
  | _ =>
      let st1 := open_sublist st in
      if haveSubtopic st1 then
        let out := if inSubsublist st1 then MeetingItems st1
                   else MeetingItems st1 ++ [indentItem ol_i 8] in
        {| haveTopic := haveTopic st1; haveSubtopic := true;
           inSublist := inSublist st1; inSubsublist := true;
           MeetingItems := out ++ [wrapList item 10 +:+ "</li>"] |}
      else
        {| haveTopic := haveTopic st1; haveSubtopic := false;
           inSublist := inSublist st1; inSubsublist := inSubsublist st1;
           MeetingItems :=
             MeetingItems st1 ++
             [(if haveTopic st1 then wrapList item 6 else wrapList item 2)
              +:+ "</li>"] |}
  end.

(** The state before the loop. *)
Definition start : Nesting :=
  {| haveTopic := false; haveSubtopic := false; inSublist := false;
     inSubsublist := false;
     MeetingItems := [heading "Meeting summary";
                      "<ol class=" +:+ dq +:+ "summary" +:+ dq +:+ ">"] |}.

(** What follows the loop: the levels still open are closed. *)
Definition close_levels (st : Nesting) : list string :=
  let out := MeetingItems st in
  let out := if haveSubtopic st
             then (if inSubsublist st then out ++ [indentItem "</ol>" 8]
                   else out) ++ [indentItem "</li>" 6]
             else out in
  let out := if inSublist st then out ++ [indentItem "</ol>" 4] else out in
  let out := if haveTopic st then out ++ [indentItem "</li>" 2] else out in
  out ++ ["</ol>"].

(** The list [MeetingItems] just before it is joined. *)
Definition meetingItems_lines (minutes : list Item) : list string :=
  close_levels (foldl item_step start minutes).

(** [HTML.meetingItems()] *)
Definition meetingItems (minutes : list Item) : string :=
  join (String "010" "") (meetingItems_lines minutes).

End HTML.

(** *** The list structure of a hypertext document *)

Inductive Tag := OL | LI.

Global Instance Tag_eq_dec : EqDecision Tag.
Proof. solve_decision. Defined.

Inductive Ev := Open (t : Tag) | Close (t : Tag).

Global Instance Ev_eq_dec : EqDecision Ev.
Proof. solve_decision. Defined.

(** The list tag that starts at the head of a text. *)
Definition tag_at (s : string) : option Ev :=
  if starts_with "<ol" s then Some (Open OL)
  else if starts_with "</ol>" s then Some (Close OL)
  else if starts_with "<li>" s then Some (Open LI)
  else if starts_with "</li>" s then Some (Close LI)
  else None.

(** The opening and closing tags of lists and list entries in a text, in
    order of occurrence. *)
Fixpoint tag_events (s : string) : list Ev :=
  match s with
  | "" => []
  | String _ s' =>
      match tag_at s with
      | Some e => e :: tag_events s'
      | None => tag_events s'
      end
  end.

(** A text that can follow any other without completing a tag begun in
    it: its first character is none of those inside the four tags. *)
Definition head_safe (b : string) : bool :=
  match b with
  | "" => true
  | String c _ => negb (mem_char c "ol>/i")
  end.

Fixpoint all_chars (f : ascii → bool) (s : string) : bool :=
  match s with
  | "" => true
  | String c s' => f c && all_chars f s'
  end.

(** [textwrap] moves white space only, so a wrapper keeps the tags. *)
Definition keeps_tags (wrapList : string → nat → string) : Prop :=
  ∀ s n, tag_events (wrapList s n) = tag_events s.

(** Reading the events with a stack of open elements: the elements still
    open at the end, or [None] when a closing tag does not close the
    innermost open element. *)
Fixpoint nest (open : list Tag) (evs : list Ev) : option (list Tag) :=
  match evs with
  | [] => Some open
  | Open t :: evs' => nest (t :: open) evs'
  | Close t :: evs' =>
      match open with
      | t' :: open' => if bool_decide (t = t') then nest open' evs' else None
      | [] => None
      end
  end.

(** Every element that is opened is closed, innermost first. *)
Definition well_nested (evs : list Ev) : bool :=
  bool_decide (nest [] evs = Some []).

(** *** The list structure as a function of the item classes *)

(** The four flags of the loop. *)
Definition Flags : Type := bool * bool * bool * bool.

Definition flags (st : Nesting) : Flags :=
  (haveTopic st, haveSubtopic st, inSublist st, inSubsublist st).

(** The list tags written by the [if not inSublist:] block, and the two
    flags it sets. *)
Definition sublist_events (f : Flags) : list Ev * bool * bool :=
  let '(ht, _, isl, _) := f in
  if isl then ([], ht, isl)
  else ((if ht then [] else [Open LI]) ++ [Open OL], true, true).

(** The list tags written in one turn of the loop, the entry of the item
    included, and the flags after the turn. *)
Definition kind_step (f : Flags) (k : ItemType) : list Ev * Flags :=
  let '(ht, hs, isl, issl) := f in
  match k with
  | TOPIC =>
      ((if isl then [Close OL] else [])
       ++ (if hs then (if issl then [Close OL] else []) ++ [Close LI] else [])
       ++ (if ht then [Close LI] else []) ++ [Open LI],
       (true, false, false, if hs then false else issl))
  | SUBTOPIC =>
      let '(pre, ht1, isl1) := sublist_events f in
      (pre ++ [Open LI], (ht1, true, isl1, issl))
  | _ =>
      let '(pre, ht1, isl1) := sublist_events f in
      if hs
      then (pre ++ (if issl then [] else [Open OL]) ++ [Open LI; Close LI],
            (ht1, true, isl1, true))
      else (pre ++ [Open LI; Close LI], (ht1, false, isl1, issl))
  end.

(** The list tags written after the loop. *)
Definition kind_close (f : Flags) : list Ev :=
  let '(ht, hs, isl, issl) := f in
  (if hs then (if issl then [Close OL] else []) ++ [Close LI] else [])
  ++ (if isl then [Close OL] else [])
  ++ (if ht then [Close LI] else []) ++ [Close OL].

Fixpoint kind_run (f : Flags) (ks : list ItemType) : list Ev :=
  match ks with
  | [] => kind_close f
  | k :: ks' => (kind_step f k).1 ++ kind_run (kind_step f k).2 ks'
  end.

(** The list tags of the whole summary for items of the classes [ks]. *)
Definition kind_events (ks : list ItemType) : list Ev :=
  Open OL :: kind_run (false, false, false, false) ks.

(** The tags on the lines written so far. *)
Definition written (st : Nesting) : list Ev :=
  flat_map tag_events (MeetingItems st).

(** [haveSubtopic] *)
Definition below_subtopic (f : Flags) : bool :=
  let '(_, hs, _, _) := f in hs.

(** The elements open in each state of the loop that can be reached
    without a heading after a subtopic, innermost first. *)
Definition open_in (f : Flags) : option (list Tag) :=
  match f with
  | (false, false, false, false) => Some [OL]
  | (true, false, false, false) => Some [LI; OL]
  | (true, false, true, false) => Some [OL; LI; OL]
  | (true, true, true, false) => Some [LI; OL; LI; OL]
  | (true, true, true, true) => Some [OL; LI; OL; LI; OL]
  | _ => None
  end.

(** No topic and no subtopic among the classes. *)
Definition no_headings (ks : list ItemType) : bool :=
  forallb (λ k, negb (bool_decide (k = TOPIC ∨ k = SUBTOPIC))) ks.

(** No topic and no subtopic comes after a subtopic. *)
Fixpoint subtopic_last (ks : list ItemType) : bool :=
  match ks with
  | [] => true
  | SUBTOPIC :: ks' => no_headings ks'
  | _ :: ks' => subtopic_last ks'
  end.

(** A text without the character that starts a tag. *)
Definition no_lt (s : string) : bool := negb (mem_char "<" s).

(** [p] and [s] agree as far as both go. *)
Fixpoint compatible (p s : string) : bool :=
  match p, s with
  | String a p', String b s' => Ascii.eqb a b && compatible p' s'
  | _, _ => true
  end.

(** A fixed piece of a template in which no list tag starts, whatever
    comes after the piece. *)
Fixpoint frag_ok (s : string) : bool :=
  match s with
  | "" => true
  | String _ s' =>
      negb (compatible "<ol" s) && negb (compatible "</ol>" s)
      && negb (compatible "<li>" s) && negb (compatible "</li>" s)
      && frag_ok s'
  end.

Definition opens (t : Tag) (evs : list Ev) : nat :=
  length (List.filter (λ e, bool_decide (e = Open t)) evs).

Definition closes (t : Tag) (evs : list Ev) : nat :=
  length (List.filter (λ e, bool_decide (e = Close t)) evs).

(** *** [iterNickCounts] *)

(** [nicks.sort(key=lambda x: x[1], reverse=True)]: the sort is stable, so
    an entry goes behind every entry whose count is not smaller. *)
Fixpoint insert_count (x : string * nat) (l : list (string * nat))
  : list (string * nat) :=
  match l with
  | [] => [x]
  | y :: r => if x.2 <=? y.2 then y :: insert_count x r else x :: l
  end.

(** [iterNickCounts()] *)
Definition iterNickCounts (attendees : list (string * nat))
  : list (string * nat) :=
  foldl (λ acc x, insert_count x acc) [] attendees.

(** The order of [sorted(..., key=lambda x: x.lower())]. *)
Definition nick_le (x y : string) : Prop := String.leb (lower x) (lower y) = true.

(** The order of [iterNickCounts]: the larger count first. *)
Definition count_ge (x y : string * nat) : Prop := y.2 ≤ x.2.


(** *** The other blocks of [HTML] *)

Section HTML_blocks.

Variable wrapList : string → nat → string.

Definition nl : string := String "010" "".

(** [HTML.peoplePresent()] *)
Definition peoplePresent_lines (attendees : list (string * nat)) : list string :=
  [heading "People present (lines said)"; "<ol>"]
  ++ ((λ x : string * nat,
         indentItem ("<li>" +:+ escapers.html x.1 +:+ " (" +:+ dec x.2 +:+ ")</li>") 2)
        <$> iterNickCounts attendees)
  ++ ["</ol>"].

Definition peoplePresent (attendees : list (string * nat)) : string :=
  join nl (peoplePresent_lines attendees).

(** One entry of the lists of [actionItems], [doneItems] and
    [actionItemsPerson]. *)
Definition li_line (indent : nat) (m : Item) : string :=
  wrapList ("<li>" +:+ escapers.html (line m) +:+ "</li>") indent.

(** [HTML.actionItems()] and [HTML.doneItems()], which differ in the class
    they select and in the heading; [None] is the [None] they return when
    no item is of the class. *)
Definition class_items (t : ItemType) (title : string) (minutes : list Item)
  : option string :=
  match li_line 2 <$> List.filter (λ m, bool_decide (itemtype m = t)) minutes with
  | [] => None
  | ls => Some (join nl ([heading title; "<ol>"] ++ ls ++ ["</ol>"]))
  end.

Definition actionItems : list Item → option string :=
  class_items ACTION "Action items".

Definition doneItems : list Item → option string :=
  class_items DONE "Done items".

(** The lines that one nick adds in the loop of [actionItemsPerson]: the
    header before the first item that the generator yields, the items, and
    the closing line when the header was printed. *)
Definition person_lines (nick : string) (yielded : list Item) : list string :=
  match yielded with
  | [] => []
  | _ => [indentItem ("<li>" +:+ escapers.html nick +:+ ol_a) 2]
         ++ (li_line 4 <$> yielded) ++ [indentItem "</ol></li>" 2]
  end.

(** The loop over [iterActionItemsNick()]: the lines, and the stored items
    afterwards. *)
Fixpoint persons_loop (nicks : list string) (minutes : list Item)
  : list string * list Item :=
  match nicks with
  | [] => ([], minutes)
  | nick :: rest =>
      let '(yielded, minutes1) := nickitems nick minutes in
      let '(out, minutes2) := persons_loop rest minutes1 in
      (person_lines nick yielded ++ out, minutes2)
  end.

(** The block of the items that no nick was found in. *)
Definition unassigned_lines (minutes : list Item) : list string :=
  match li_line 4 <$> iterActionItemsUnassigned minutes with
  | [] => []
  | ls => [indentItem "<li><b>UNASSIGNED</b><ol>" 2] ++ ls
          ++ [indentItem "</ol></li>" 2]
  end.

(** [HTML.actionItemsPerson()]: the block, and the stored items after the
    call.  It returns [None] before it looks for unassigned items. *)
Definition actionItemsPerson (attendees : list (string * nat))
    (minutes : list Item) : option string * list Item :=
  let '(out, minutes1) := persons_loop (sorted_nicks attendees) minutes in
  match out with
  | [] => (None, minutes1)
  | _ =>
      (Some (join nl ([heading "Action items, by person"; "<ol>"] ++ out
                      ++ unassigned_lines minutes1 ++ ["</ol>"])),
       minutes1)
  end.

End HTML_blocks.

(** A text without the character that ends a tag. *)
Definition no_gt (s : string) : bool := negb (mem_char ">" s).

(** The list tags of [n] entries that are opened and closed in turn. *)
Fixpoint entries (n : nat) : list Ev :=
  match n with
  | O => []
  | S n' => Open LI :: Close LI :: entries n'
  end.

(** A run of tags that closes what it opens and nothing else. *)
Definition balanced (evs : list Ev) : Prop := ∀ open, nest open evs = Some open.

(** The list tags of one attendee's block in [actionItemsPerson], and of
    the block of unassigned items, with [n] entries. *)
Definition block_events (n : nat) : list Ev :=
  match n with
  | O => []
  | _ => [Open LI; Open OL] ++ entries n ++ [Close OL; Close LI]
  end.

(** *** The agenda of [get_template] *)

(** The dictionary of [m.template(M, escape)] in [items.py]: of the
    replacements it keeps the nine keys below.  A
    [Topic] or [Subtopic] has [topic] where the other classes have [line];
    [url] and [url_quoteescaped] are those of a [Link]. *)
Record item_dict := {
  t_itemtype : string;
  t_line : option string;
  t_topic : option string;
  t_url : option string;
  t_url_quoteescaped : option string;
  t_nick : string;
  t_time : string;
  t_link : string;
  t_anchor : string;
}.

(** One entry of [MeetingItems]: [{'topic': ..., 'items': [...]}]. *)
Definition Group : Type := item_dict * list item_dict.

Section agenda.

Variable escape : string → string.
Variable basename : string.

Definition template (m : Item) : item_dict :=
  let heading := bool_decide (itemtype m = TOPIC ∨ itemtype m = SUBTOPIC) in
  let link := bool_decide (itemtype m = LINK) in
  {| t_itemtype := itemtype_name (itemtype m);
     t_line := if heading then None else Some (escape (line m));
     t_topic := if heading then Some (escape (line m)) else None;
     t_url := if link then Some (url m) else None;
     t_url_quoteescaped :=
       if link then Some (escape (escapers.replace_char "034"%char "%22" (url m)))
       else None;
     t_nick := escape (nick m);
     t_time := time m;
     t_link := logURL basename;
     t_anchor := anchor m |}.

(** The null topic that stands in for items before the first topic. *)
Definition Prologue : item_dict :=
  {| t_itemtype := "TOPIC"; t_line := None; t_topic := Some "Prologue";
     t_url := None; t_url_quoteescaped := None; t_nick := ""; t_time := "";
     t_link := ""; t_anchor := "" |}.

(** [nextTopic['topic']['nick'] or nextTopic['items']] *)
Definition kept (g : Group) : bool :=
  negb (String.eqb (t_nick g.1) "")
  || match g.2 with [] => false | _ => true end.

(** One turn of the first loop of [get_template]; the state is
    [(MeetingItems, nextTopic)]. *)
Definition topic_step (st : list Group * Group) (m : Item)
  : list Group * Group :=
  let '(out, nextTopic) := st in
  if bool_decide (itemtype m = TOPIC)
  then ((if kept nextTopic then out ++ [nextTopic] else out), (template m, []))
  else (out, (nextTopic.1, nextTopic.2 ++ [template m])).

(** [repl['MeetingItems']] *)
Definition MeetingItems_groups (minutes : list Item) : list Group :=
  let '(out, nextTopic) := foldl topic_step ([], (Prologue, [])) minutes in
  out ++ [nextTopic].

(** The entries of the groups in one row, each topic before its items. *)
Definition ungroup (gs : list Group) : list item_dict :=
  flat_map (λ g : Group, g.1 :: g.2) gs.

End agenda.

(** A group as a template expects it: a topic at its head, and no topic
    among its items. *)
Definition group_ok (g : Group) : Prop :=
  t_itemtype g.1 = "TOPIC" ∧ Forall (λ t, t_itemtype t ≠ "TOPIC") g.2.

End writers.

(** ** [meeting.py]: [Config.save] and the two configurations *)

Module config.

Import meeting writers.

(** [Config.save(realtime_update)] over the writers of [self.writers], in
    the order in which the loop visits them.  A realtime update returns at
    once while the meeting has no [starttime] and skips every writer
    without [update_realtime].  [None] when a writer raises. *)
Fixpoint run_writers (ws : list Writer) (basename : string) (realtime : bool)
    (M : Meeting) : option Meeting :=
  match ws with
  | [] => Some M
  | w :: rest =>
      M1 ← (if realtime && negb (update_realtime w) then Some M
            else ms ← format_items w basename (attendees M) (minutes M);
                 Some (set_minutes ms M));
      run_writers rest basename realtime M1
  end.

Definition Config_save (ws : list Writer) (basename : string) (realtime : bool)
    (M : Meeting) : option Meeting :=
  if realtime && negb (bool_decide (is_Some (starttime M))) then Some M
  else run_writers ws basename realtime M.

(** [Config.writer_map] of [meeting.py], behind the raw log that the plugin
    asks for with [writeRawLog=True]. *)
Definition writers_default : list Writer :=
  [TextLog; HTMLlog; HTML; ReST; Text; HTMLfromReST; Moin; MediaWiki].

(** [writer_map] of [meetingLocalConfig.py], which replaces the default. *)
Definition writers_local : list Writer := [TextLog; HTMLlog; HTML].

(** The configuration in force: [meetingLocalConfig.Config] comes first in
    the bases of the merged class, so its [command_RE] and [writer_map]
    win.  None of its writers raises on the stored items. *)
Definition localConfig (basename : string) : Config :=
  {| command_RE := command_RE_local;
     UrlProtocols := UrlProtocols_default;
     save := λ realtime M,
       default M (Config_save writers_local basename realtime M) |}.

End config.

(** ** [plugin.py]: the entry points that reach a session *)

Module plugin.

Import meeting.

(** What the callbacks read from [irc] and from the channel state. *)
Record Irc := {
  irc_nick : string;
  irc_network : string;
  chan_isOp : string → bool;
  chan_topic : string;
}.

(** An incoming [PRIVMSG]: [msg.nick], [msg.host], [msg.channel] and
    [msg.args[1]]. *)
Record Msg := {
  msg_nick : string;
  msg_host : string;
  msg_channel : string;
  msg_text : string;
}.

Section Plugin.

Variable cfg : Config.
Variable clock : Time.
(** [Config.logline_RE], [Config.loglineAction_RE] and the [parse_time] of
    [process_meeting]: the groups [(time, nick, line)] of a match. *)
Variable logline_RE : string → option (string * string * string).
Variable loglineAction_RE : string → option (string * string * string).
Variable parse_time : string → option Time.
(** [logfile_RE] and the [parse_time] of [doPrivmsg]. *)
Variable logfile_RE : string → option (string * string).
Variable parse_time_file : string → option Time.
(** [utils.web.getUrl(url).decode('utf-8')] *)
Variable getUrl : string → string.

(** The loop of [process_meeting].  The second pattern is tried on [line],
    which the first branch has rebound to its third group. *)
Fixpoint process_lines (ls : list string) (M : Meeting) : option Meeting :=
  match ls with
  | [] => Some M
  | l :: rest =>
      '(l1, M1) ← match logline_RE l with
                  | Some (t, nick, line) =>
                      M' ← addline cfg clock nick line false (parse_time t) M;
                      Some (line, M')
                  | None => Some (l, M)
                  end;
      M2 ← match loglineAction_RE l1 with
           | Some (t, nick, line) =>
               addline cfg clock nick ("ACTION " +:+ line) false (parse_time t) M1
           | None => Some M1
           end;
      process_lines rest M2
  end.


(** [process_meeting(content)] *)
Definition process_meeting (content : string) (M : Meeting) : option Meeting :=
  process_lines (split_lines content) M.

(** The [isChair] of [doPrivmsg] *)
Definition isChair (irc : Irc) (M : Meeting) (nick : string) : bool :=
  bool_decide (owner M = Some nick) || bool_decide (nick ∈ chairs M)
  || chan_isOp irc nick.

(** The end of [doPrivmsg], from [if not M or M._meetingIsOver] on.  [M] is
    the local variable, [cache] the entry of [meeting_cache]. *)
Definition forward (irc : Irc) (msg : Msg) (payload : string)
    (M : option Meeting) (cache : option Meeting) : option (option Meeting) :=
  match M with
  | None => Some cache
  | Some M =>
      if _meetingIsOver M then Some cache
      else
        M1 ← (if contains "hellomouse/bin" (msg_host msg)
              then Some (addrawline clock (msg_nick msg) payload None M).2
              else addline cfg clock (msg_nick msg) payload
                     (chan_isOp irc (msg_nick msg)) None M);
        Some (if _meetingIsOver M1 then None else Some M1)
  end.

(** [doPrivmsg(irc, msg)] on the entry of [meeting_cache] for the channel
    and network of the message: the entry afterwards, or [None] when the
    callback raises. *)
Definition doPrivmsg (irc : Irc) (msg : Msg) (cache : option Meeting)
  : option (option Meeting) :=
  let nick := msg_nick msg in
  let payload := strip (msg_text msg) in
  if starts_with_ci "#startmeeting" payload then
    match cache with
    | Some _ => Some cache
    | None =>
        let M := init (msg_channel msg) (Some nick) (chan_isOp irc (irc_nick irc))
                   (irc_nick irc) (chan_topic irc) (irc_network irc) in
        forward irc msg payload (Some M) (Some M)
    end
  else if starts_with_ci "#replay" payload then
    match cache with
    | Some _ => Some cache
    | None =>
        let M := init (msg_channel msg) None (chan_isOp irc (irc_nick irc))
                   "" (chan_topic irc) (irc_network irc) in
        url ← head (split_ws (strip (drop_str 7 payload)));
        let M1 := match logfile_RE url with
                  | Some (name, when) =>
                      set_starttime (parse_time_file when)
                        (set_channel ("#" +:+ name) M)
                  | None => M
                  end in
        M2 ← process_meeting (getUrl url) M1;
        Some (if _meetingIsOver M2 then None else Some M2)
    end
  else
    match cache with
    | Some M =>
        if starts_with_ci "#endmeeting" payload && _meetingIsOver M
           && isChair irc M nick
        then Some None
        else if starts_with_ci "#abortmeeting" payload && isChair irc M nick
        then Some None
        else forward irc msg payload (Some M) cache
    | None => forward irc msg payload None cache
    end.

(** [outFilter(irc, msg)] for an outgoing [PRIVMSG] with text [text]. *)
Definition outFilter (irc : Irc) (text : string) (cache : option Meeting)
  : option Meeting :=
  (λ M, (addrawline clock (irc_nick irc) (strip text) None M).2) <$> cache.

(** The private [vote] command, on the entry of the named channel. *)
Definition vote (nick ballot : string) (cache : option Meeting)
  : option (option Meeting) :=
  if ballot_RE ballot then
    match cache with
    | Some M => Some <$> doCastVote nick ballot true M
    | None => Some None
    end
  else Some cache.

End Plugin.

End plugin.

(** ** The sessions, items and messages of the examples *)

Module examples.

Import meeting items.

(** A clock, the configuration in force, and a session as the plugin
    creates it for [alice]. *)
Definition t0 : Time := {| tm_hour := 10; tm_min := 0; tm_sec := 0 |}.
Definition cfg0 : Config := config.localConfig "chan.2026-01-01-10.00".
Definition M0 : Meeting := init "#chan" (Some "alice") false "meetbot" "" "net".

(** Four calls, one of each kind: a recognised command, an unknown
    command, a bare link, plain speech. *)
Definition calls0 : list (string * string * bool * option Time) :=
  [("alice", "#topic agenda", false, None);
   ("bob", "#frobnicate now", false, None);
   ("bob", "https://example.org/a b", false, None);
   ("carol", "hello there", false, None)].

(** A session with a vote open, its required margin and its ballots. *)
Definition Mvote (required : Z) (ballots : list (string * string)) : Meeting :=
  set_currentVote (list_to_map ballots)
    (set_publicVoters {["Adopt the plan" := []]}
       (set_activeVote "Adopt the plan" (set_votesrequired required M0))).

Definition ballots3 : list (string * string) :=
  [("bob", "+1"); ("carol", "+1 yes"); ("dave", "+1")].

Definition irc0 : plugin.Irc :=
  {| plugin.irc_nick := "meetbot"; plugin.irc_network := "net";
     plugin.chan_isOp := λ _, false; plugin.chan_topic := "" |}.

Definition msg0 : plugin.Msg :=
  {| plugin.msg_nick := "bob"; plugin.msg_host := "example.org";
     plugin.msg_channel := "#chan"; plugin.msg_text := "#action bob to tidy up" |}.

Definition bob_item : Item := new ACTION "alice" "bob to fix the build" 4 t0.
Definition att0 : list (string * nat) := [("alice", 3); ("bob", 2)].

Definition m_a : Item := new INFO "alice" "first" 3 t0.
Definition m_b : Item := new IDEA "alice" "second" 4 t0.

Definition T1 : Item := new TOPIC "alice" "T1" 1 t0.
Definition a1 : Item := new ACTION "bob" "a1" 2 t0.
Definition S1 : Item := new SUBTOPIC "alice" "S1" 3 t0.
Definition a2 : Item := new ACTION "bob" "a2" 4 t0.
Definition S2 : Item := new SUBTOPIC "alice" "S2" 5 t0.
Definition T2 : Item := new TOPIC "alice" "T2" 6 t0.

End examples.

(** * Properties *)

(** ** The string primitives on examples *)

Example command_RE_examples :
  command_RE_default "#info  hello world  " = Some ("info", "hello world")
  ∧ command_RE_default "#info" = Some ("info", "")
  ∧ command_RE_default "#in!fo" = None
  ∧ command_RE_default "info" = None
  ∧ command_RE_local "[Topic] x" = Some ("Topic", "x")
  ∧ command_RE_local "[Topic]x" = None.
Proof. repeat split; reflexivity. Qed.

Example ballot_RE_examples :
  ballot_RE "+1 yes" = true ∧ ballot_RE "+12" = false ∧ ballot_RE "0" = true
  ∧ ballot_RE "-0." = true ∧ ballot_RE "01" = false ∧ ballot_RE "+" = false.
Proof. repeat split; reflexivity. Qed.

Example int_examples :
  int " -1_0 " = Some (-10)%Z ∧ int "3x" = None ∧ int "" = None
  ∧ int "+7" = Some 7%Z ∧ int "1__0" = None.
Proof. repeat split; reflexivity. Qed.

Example split_examples :
  split_tokens ", bob,  carol ,dave" = ["bob"; "carol"; "dave"]
  ∧ before_dslash "https://x//y" = "https:"
  ∧ join "_" (split_ws "  a b   c ") = "a_b_c"
  ∧ split_lines "a
b" = ["a"; "b"].
Proof. repeat split; reflexivity. Qed.

(** ** The session *)

Module meeting_facts.

Import meeting.

Lemma att_get_set_eq nick n a : att_get nick (att_set nick n a) = Some n.
Proof.
  induction a as [|[k v] a IH]; simpl.
  - by rewrite String.eqb_refl.
  - destruct (String.eqb k nick) eqn:E; simpl; rewrite E; auto.
Qed.

Lemma att_get_set_ne nick nick' n a :
  nick ≠ nick' → att_get nick' (att_set nick n a) = att_get nick' a.
Proof.
  intros Hne. induction a as [|[k v] a IH]; simpl.
  - destruct (String.eqb nick nick') eqn:E; [|done].
    by apply String.eqb_eq in E.
  - destruct (String.eqb k nick) eqn:E; simpl.
    + apply String.eqb_eq in E as ->.
      destruct (String.eqb nick nick') eqn:E'; [|done].
      by apply String.eqb_eq in E'.
    + by rewrite IH.
Qed.

(** [addnick] adds [n] to the count of [nick] unless it is the bot. *)
Lemma attributed_addnick nick n M n' :
  attributed (addnick nick n M) n' =
  if bool_decide (nick = n' ∧ nick ≠ botNick M)
  then attributed M n' + n else attributed M n'.
Proof.
  unfold addnick, attributed.
  destruct (String.eqb nick (botNick M)) eqn:E; simpl.
  - apply String.eqb_eq in E. rewrite bool_decide_eq_false_2; [done|]. tauto.
  - apply String.eqb_neq in E.
    destruct (decide (nick = n')) as [->|Hne].
    + rewrite bool_decide_eq_true_2 by done. by rewrite att_get_set_eq.
    + rewrite bool_decide_eq_false_2 by tauto. by rewrite att_get_set_ne.
Qed.

Lemma attributed_addnick_0 nick M n' :
  attributed (addnick nick 0 M) n' = attributed M n'.
Proof. rewrite attributed_addnick. case_bool_decide; lia. Qed.

Lemma addnick_fields nick n M :
  lines (addnick nick n M) = lines M ∧ botNick (addnick nick n M) = botNick M
  ∧ minutes (addnick nick n M) = minutes M
  ∧ activeVote (addnick nick n M) = activeVote M
  ∧ publicVoters (addnick nick n M) = publicVoters M
  ∧ chairs (addnick nick n M) = chairs M
  ∧ voters (addnick nick n M) = voters M.
Proof. unfold addnick. by destruct (negb _). Qed.

(** *** [handler_frame] is a preorder, and the steps that respect it *)

Lemma frame_refl M : handler_frame M M.
Proof. by repeat split. Qed.

Lemma frame_trans M1 M2 M3 :
  handler_frame M1 M2 → handler_frame M2 M3 → handler_frame M1 M3.
Proof.
  intros (Hl1&Hb1&Ha1&Hw1) (Hl2&Hb2&Ha2&Hw2).
  repeat split; try congruence; auto.
Qed.

(** A step that leaves [lines], [botNick], [attendees], [activeVote] and
    [publicVoters] alone. *)
Lemma frame_same M M' :
  lines M' = lines M → botNick M' = botNick M → attendees M' = attendees M →
  activeVote M' = activeVote M → publicVoters M' = publicVoters M →
  handler_frame M M'.
Proof.
  intros Hl Hb Ha Hv Hp. repeat split; auto.
  - intros n. unfold attributed. by rewrite Ha.
  - unfold vote_wf. by rewrite Hv, Hp.
Qed.

Lemma frame_addnick_0 nick M : handler_frame M (addnick nick 0 M).
Proof.
  destruct (addnick_fields nick 0 M) as (?&?&?&Hv&Hp&?&?).
  repeat split; auto.
  - intros n. apply attributed_addnick_0.
  - unfold vote_wf. by rewrite Hv, Hp.
Qed.

Lemma frame_save cfg realtime M :
  save_frame cfg → handler_frame M (save cfg realtime M).
Proof.
  intros Hs. destruct (Hs realtime M) as [-> _]. by apply frame_same.
Qed.

(** *** Every handler returns and respects [handler_frame] *)

Lemma outcome_spec vfor vagainst required :
  outcome vfor vagainst required =
  Some (if (required <=? Z.of_nat vfor - Z.of_nat vagainst)%Z
        then ("Carried", "Motion carried") else ("Denied", "Motion denied")).
Proof.
  unfold outcome.
  destruct (Z.leb_spec required (Z.of_nat vfor - Z.of_nat vagainst)); [done|].
  destruct (Z.ltb_spec (Z.of_nat vfor - Z.of_nat vagainst) required); [done|lia].
Qed.

Lemma outcome_never_deadlock f a r : fst <$> outcome f a r ≠ Some "Deadlock".
Proof. rewrite outcome_spec. destruct (_ <=? _)%Z; simpl; intros [=]. Qed.

Ltac frame_step :=
  first [ apply frame_refl
        | apply frame_addnick_0
        | apply frame_same; reflexivity ].

Ltac guarded h :=
  intros nick line linenum time_ M; unfold h;
  destruct (isChair M nick); simpl;
  [| eexists; split; [reflexivity | apply frame_refl] ].

Section Handlers.

Variable cfg : Config.
Variable clock : Time.
Hypothesis Hsave : save_frame cfg.

Lemma do_meetingtopic_ok : handler_ok do_meetingtopic.
Proof.
  guarded do_meetingtopic. destruct (_ || _); eexists; (split; [reflexivity | frame_step]).
Qed.

Lemma do_startmeeting_ok : handler_ok do_startmeeting.
Proof.
  intros nick line linenum time_ M. unfold do_startmeeting.
  set (M1 := match owner M with
             | None | Some "" => set_owner (Some nick) M | Some _ => M end).
  set (M2 := match starttime M1 with
             | None => set_starttime (Some time_) M1 | Some _ => M1 end).
  assert (handler_frame M M1) as H1.
  { subst M1. destruct (owner M) as [[|]|]; frame_step. }
  assert (handler_frame M1 M2) as H2.
  { subst M2. destruct (starttime M1); frame_step. }
  destruct (negb (String.eqb line "")).
  - destruct (do_meetingtopic_ok nick line linenum time_ M2) as (M'&->&H3).
    eexists; split; [done|]. eauto using frame_trans.
  - eexists; split; [done|]. eauto using frame_trans.
Qed.

Lemma do_endvote_ok : handler_ok do_endvote.
Proof.
  guarded do_endvote. destruct (String.eqb (activeVote M) "").
  { eexists; split; [reflexivity | frame_step]. }
  rewrite outcome_spec. simpl.
  destruct (_ <=? _)%Z; simpl; (eexists; split; [reflexivity|]);
    (repeat split; [done..| intros _ Hne; by simpl in Hne]).
Qed.

Lemma endmeeting_frame M : handler_frame M (endmeeting cfg M).
Proof. by apply frame_save. Qed.

Lemma do_endmeeting_ok : handler_ok (do_endmeeting cfg clock).
Proof.
  guarded do_endmeeting.
  assert (∃ M1, (if negb (String.eqb (activeVote M) "")
                 then do_endvote nick line linenum clock M else Some M) = Some M1
                ∧ handler_frame M M1) as (M1&->&H1).
  { destruct (negb _); [apply do_endvote_ok|].
    eexists; split; [done | frame_step]. }
  simpl. eexists; split; [reflexivity|].
  eapply frame_trans; [exact H1|].
  eapply frame_trans; [|apply endmeeting_frame]. frame_step.
Qed.

Lemma do_abortmeeting_ok : handler_ok do_abortmeeting.
Proof. intros ?????. eexists; split; [reflexivity | frame_step]. Qed.

Lemma do_replay_ok : handler_ok do_replay.
Proof. intros ?????. eexists; split; [reflexivity | frame_step]. Qed.

Lemma do_topic_ok : handler_ok do_topic.
Proof. guarded do_topic. eexists; split; [reflexivity | frame_step]. Qed.

Lemma do_subtopic_ok : handler_ok do_subtopic.
Proof. guarded do_subtopic. eexists; split; [reflexivity | frame_step]. Qed.

Lemma do_save_ok : handler_ok (do_save cfg).
Proof.
  guarded do_save. eexists; split; [reflexivity|].
  eapply frame_trans; [|by apply frame_save]. frame_step.
Qed.

Lemma chair_item_ok t : handler_ok (chair_item t).
Proof. guarded chair_item. eexists; split; [reflexivity | frame_step]. Qed.

Lemma foldl_frame {A} (f : Meeting → A → Meeting) (l : list A) M :
  (∀ M x, handler_frame M (f M x)) → handler_frame M (foldl f M l).
Proof.
  intros Hf. revert M. induction l as [|x l IH]; intros M; simpl.
  - apply frame_refl.
  - eapply frame_trans; [apply Hf | apply IH].
Qed.

Lemma do_chair_ok : handler_ok do_chair.
Proof.
  guarded do_chair. eexists; split; [reflexivity|]. apply foldl_frame.
  intros M' chair. case_bool_decide; [frame_step|].
  eapply frame_trans; [apply frame_addnick_0 | frame_step].
Qed.

Lemma do_unchair_ok : handler_ok do_unchair.
Proof.
  guarded do_unchair. eexists; split; [reflexivity|]. apply foldl_frame.
  intros M' chair. case_bool_decide; frame_step.
Qed.

Lemma do_undo_ok : handler_ok do_undo.
Proof.
  guarded do_undo. destruct (minutes M); eexists; (split; [reflexivity | frame_step]).
Qed.

Lemma do_restrictlogs_ok : handler_ok do_restrictlogs.
Proof. guarded do_restrictlogs. eexists; split; [reflexivity | frame_step]. Qed.

Lemma do_lurk_ok : handler_ok do_lurk.
Proof. guarded do_lurk. eexists; split; [reflexivity | frame_step]. Qed.

Lemma do_unlurk_ok : handler_ok do_unlurk.
Proof. guarded do_unlurk. eexists; split; [reflexivity | frame_step]. Qed.

Lemma do_meetingname_ok : handler_ok do_meetingname.
Proof. guarded do_meetingname. eexists; split; [reflexivity | frame_step]. Qed.

Lemma do_vote_ok : handler_ok do_vote.
Proof.
  guarded do_vote. destruct (negb _).
  { eexists; split; [reflexivity | frame_step]. }
  eexists; split; [reflexivity|].
  repeat split; [done..|]. intros _ _. simpl.
  rewrite lookup_insert_eq. by eexists.
Qed.

Lemma do_votesrequired_ok : handler_ok do_votesrequired.
Proof. guarded do_votesrequired. eexists; split; [reflexivity | frame_step]. Qed.

Lemma voters_loop_frame toks M : handler_frame M (voters_loop toks M).
Proof.
  revert M. induction toks as [|v toks IH]; intros M; simpl; [frame_step|].
  case_bool_decide; [frame_step|].
  case_bool_decide; [apply IH|].
  eapply frame_trans; [apply frame_addnick_0|].
  eapply frame_trans; [|apply IH]. frame_step.
Qed.

Lemma do_voters_ok : handler_ok do_voters.
Proof. guarded do_voters. eexists; split; [reflexivity | apply voters_loop_frame]. Qed.

Lemma do_private_commands_ok : handler_ok do_private_commands.
Proof. intros ?????. eexists; split; [reflexivity | frame_step]. Qed.

Lemma anyone_item_ok t : handler_ok (anyone_item t).
Proof. intros ?????. eexists; split; [reflexivity | frame_step]. Qed.

Lemma do_nick_ok : handler_ok do_nick.
Proof.
  intros ?????. eexists; split; [reflexivity|]. apply foldl_frame.
  intros; apply frame_addnick_0.
Qed.

Lemma do_link_ok : handler_ok do_link.
Proof. intros ?????. eexists; split; [reflexivity | frame_step]. Qed.

Lemma do_commands_ok : handler_ok do_commands.
Proof. intros ?????. eexists; split; [reflexivity | frame_step]. Qed.

Lemma handlers_ok : Forall (λ kh, handler_ok kh.2) (handlers cfg clock).
Proof.
  unfold handlers.
  repeat (apply Forall_cons; split;
    [first [ apply do_startmeeting_ok | apply do_endmeeting_ok
           | apply do_abortmeeting_ok | apply do_replay_ok | apply do_topic_ok
           | apply do_subtopic_ok | apply do_meetingtopic_ok | apply do_save_ok
           | apply chair_item_ok | apply do_chair_ok | apply do_unchair_ok
           | apply do_undo_ok | apply do_restrictlogs_ok | apply do_lurk_ok
           | apply do_unlurk_ok | apply do_meetingname_ok | apply do_vote_ok
           | apply do_votesrequired_ok | apply do_endvote_ok | apply do_voters_ok
           | apply do_private_commands_ok | apply anyone_item_ok
           | apply do_nick_ok | apply do_link_ok | apply do_commands_ok ]|]).
  apply Forall_nil_2.
Qed.

Lemma lookup_handler_In command l h :
  lookup_handler command l = Some h → (command, h) ∈ l.
Proof.
  induction l as [|[k h'] l IH]; simpl; [done|].
  destruct (String.eqb k command) eqn:E.
  - intros [= ->]. apply String.eqb_eq in E as ->. left.
  - intros H. right. auto.
Qed.

Lemma dispatch_ok command h :
  dispatch cfg clock command = Some h → handler_ok h.
Proof.
  intros H%lookup_handler_In.
  pose proof handlers_ok as Hall. rewrite Forall_forall in Hall.
  apply (Hall _ H).
Qed.

(** *** [doCastVote] and [addrawline] *)

Lemma doCastVote_ok nick line private M :
  vote_wf M →
  ∃ M', doCastVote nick line private M = Some M' ∧ handler_frame M M'
        ∧ minutes M' = minutes M.
Proof.
  intros Hwf. unfold doCastVote.
  destruct (_ || _); [|eexists; split; [done | split; [frame_step | done]]].
  destruct (String.eqb (activeVote M) "") eqn:E; simpl;
    [eexists; split; [done | split; [frame_step | done]]|].
  apply String.eqb_neq in E. destruct (Hwf E) as [l Hl].
  destruct private; simpl.
  - eexists; split; [done|]. split; [frame_step | done].
  - rewrite Hl. simpl. eexists; split; [done|]. split; [|done].
    repeat split; [done..|]. intros _ _. simpl.
    rewrite lookup_insert_eq. by eexists.
Qed.

Lemma addrawline_spec nick line time_ M :
  let r := addrawline clock nick line time_ M in
  lines r.2 = lines M ++ [logline nick line (default clock time_)]
  ∧ r.1 = length (lines r.2)
  ∧ botNick r.2 = botNick M
  ∧ minutes r.2 = minutes M
  ∧ (∀ n, attributed r.2 n = attributed (addnick nick 1 M) n)
  ∧ (vote_wf M → vote_wf r.2).
Proof.
  destruct (addnick_fields nick 1 M) as (Hl&Hb&Hm&Hv&Hp&_&_).
  simpl. rewrite Hl. repeat split; auto.
  unfold vote_wf. simpl. by rewrite Hv, Hp.
Qed.

Lemma after_command_ok nick line M :
  vote_wf M →
  ∃ M', after_command cfg nick line M = Some M' ∧ handler_frame M M'.
Proof.
  intros Hwf. unfold after_command.
  pose proof (frame_save cfg true M Hsave) as Hf.
  destruct (ballot_RE line).
  - destruct (doCastVote_ok nick line false (save cfg true M)) as (M'&->&Hf'&_).
    { by apply Hf. }
    eexists; split; [done|]. eauto using frame_trans.
  - by eexists.
Qed.

(** *** [addline]: what every call does, whatever the line is *)

Lemma addline_spec nick line isop time_ M :
  vote_wf M →
  ∃ M', addline cfg clock nick line isop time_ M = Some M'
        ∧ lines M' = lines M ++ [logline nick line (default clock time_)]
        ∧ botNick M' = botNick M
        ∧ (∀ n, attributed M' n = attributed (addnick nick 1 M) n)
        ∧ vote_wf M'.
Proof.
  intros Hwf. unfold addline.
  pose proof (addrawline_spec nick line (Some (default clock time_)) M) as Hr.
  destruct (addrawline clock nick line (Some (default clock time_)) M)
    as [linenum M1] eqn:Hraw.
  simpl in Hr. destruct Hr as (Hl&_&Hb&_&Ha&Hw).
  set (M2 := set_isop isop M1).
  assert (handler_frame M1 M2) as H12 by (subst M2; frame_step).
  assert (∀ l M3, handler_frame M2 M3 →
            ∃ M', after_command cfg nick l M3 = Some M'
                  ∧ lines M' = lines M ++ [logline nick line (default clock time_)]
                  ∧ botNick M' = botNick M
                  ∧ (∀ n, attributed M' n = attributed (addnick nick 1 M) n)
                  ∧ vote_wf M') as Hafter.
  { intros l M3 H23.
    pose proof (frame_trans _ _ _ H12 H23) as (Hl3&Hb3&Ha3&Hw3).
    destruct (after_command_ok nick l M3) as (M'&->&(Hl'&Hb'&Ha'&Hw')); [auto|].
    eexists; split; [done|]. repeat split; try congruence; auto. }
  destruct (command_RE cfg line) as [[command line']|].
  - destruct (dispatch cfg clock (lower command)) as [h|] eqn:Hd.
    + destruct (dispatch_ok _ _ Hd nick line' linenum (default clock time_) M2)
        as (M3&->&H23).
      simpl. by apply Hafter.
    + simpl. apply Hafter, frame_refl.
  - case_bool_decide.
    + destruct (do_link_ok nick line linenum (default clock time_) M2)
        as (M3&->&H23).
      simpl. by apply Hafter.
    + simpl. apply Hafter, frame_refl.
Qed.


End Handlers.

Lemma vote_wf_init channel owner botIsOp botNick oldtopic network :
  vote_wf (init channel owner botIsOp botNick oldtopic network).
Proof. by intros []. Qed.

End meeting_facts.

(** ** The writers and the stored items *)

Module writers_facts.

Import items writers.

Lemma created_set_assigned b m : created (set_assigned b m) = created m.
Proof. done. Qed.

Lemma created_set_rstref r m : created (set_rstref r m) = created m.
Proof. done. Qed.

Lemma insert_nick_elem k x l : x ∈ insert_nick k l ↔ x = k ∨ x ∈ l.
Proof.
  induction l as [|y l IH]; simpl.
  - set_solver.
  - destruct (String.leb _ _); set_solver.
Qed.

(** [sorted] returns the keys it was given. *)
Lemma sorted_nicks_elem att x : x ∈ sorted_nicks att ↔ x ∈ att.*1.
Proof.
  unfold sorted_nicks.
  assert (∀ l acc, x ∈ foldl (λ acc k, insert_nick k acc) acc l
                   ↔ x ∈ acc ∨ x ∈ l) as H.
  { induction l as [|k l IH]; intros acc; simpl; [set_solver|].
    rewrite IH, insert_nick_elem. set_solver. }
  rewrite H. set_solver.
Qed.

Section marks.

Variable att : list (string * nat).

Lemma render_marks_refl m : render_marks att m m.
Proof. repeat split; auto. Qed.

Lemma render_marks_trans m1 m2 m3 :
  render_marks att m1 m2 → render_marks att m2 m3 → render_marks att m1 m3.
Proof.
  intros (Hc1&Hu1&Hd1) (Hc2&Hu2&Hd2). repeat split.
  - congruence.
  - auto.
  - intros H3. destruct (Hd2 H3) as [H2|(Ht&nick&Hin&Hre)]; [auto|].
    right. unfold created in Hc1. simplify_eq. split; [congruence|].
    exists nick. split; [done|]. congruence.
Qed.

Lemma nickitems_marks nick ms :
  nick ∈ att.*1 → Forall2 (render_marks att) ms (nickitems nick ms).2.
Proof.
  intros Hin. simpl. induction ms as [|m ms IH]; simpl; constructor; [|done].
  unfold nick_matches. destruct (bool_decide _ && _) eqn:E.
  - apply andb_true_iff in E as [Ht%bool_decide_eq_true Hre].
    repeat split; auto. intros _. right. eauto.
  - apply render_marks_refl.
Qed.

Lemma Forall2_marks_trans ms1 ms2 ms3 :
  Forall2 (render_marks att) ms1 ms2 → Forall2 (render_marks att) ms2 ms3 →
  Forall2 (render_marks att) ms1 ms3.
Proof.
  intros H12. revert ms3. induction H12; intros ms3 H23; inversion H23; subst;
    constructor; eauto using render_marks_trans.
Qed.

Lemma Forall2_marks_refl ms : Forall2 (render_marks att) ms ms.
Proof. induction ms; constructor; auto using render_marks_refl. Qed.

Lemma foldl_nickitems_marks nicks ms :
  (∀ n, n ∈ nicks → n ∈ att.*1) →
  Forall2 (render_marks att) ms (foldl (λ ms nick, (nickitems nick ms).2) ms nicks).
Proof.
  revert ms. induction nicks as [|n nicks IH]; intros ms Hsub.
  - apply Forall2_marks_refl.
  - cbn [foldl]. eapply Forall2_marks_trans.
    + apply (nickitems_marks n). apply Hsub. left.
    + apply IH. intros n' Hn'. apply Hsub. by right.
Qed.

Lemma mark_assigned_marks ms :
  Forall2 (render_marks att) ms (mark_assigned att ms).
Proof.
  apply foldl_nickitems_marks. intros n. by rewrite sorted_nicks_elem.
Qed.

End marks.



(** [m.rst(M)] writes [rstref] and nothing else. *)
Lemma rst_items_marks att basename ms st ms' st' :
  rst_items basename ms st = Some (ms', st') →
  Forall2 (render_marks att) ms ms'.
Proof.
  revert st ms' st'. induction ms as [|m ms IH]; intros st ms' st' H; simpl in H.
  - simplify_eq. constructor.
  - unfold rst in H.
    destruct (makeRSTref basename m st) as [[r st1]|]; simpl in H; [|done].
    destruct (rst_items basename ms st1) as [[rest' st2]|] eqn:E; simpl in H; [|done].
    simplify_eq. constructor; [|eauto].
    repeat split; auto.
Qed.

Lemma Forall2_created att (ms ms' : list Item) :
  Forall2 (render_marks att) ms ms' → created <$> ms' = created <$> ms.
Proof.
  induction 1 as [|m m' ms ms' (Hc&_) _ IH]; [done|].
  rewrite !fmap_cons. congruence.
Qed.

(** *** The closed form of the per-person pass *)

Lemma nick_matches_set_assigned n b m :
  nick_matches n (set_assigned b m) = nick_matches n m.
Proof. done. Qed.

Lemma foldl_nickitems_map nicks ms :
  foldl (λ ms nick, (nickitems nick ms).2) ms nicks = mark1 nicks <$> ms.
Proof.
  revert ms. induction nicks as [|n nicks IH]; intros ms.
  - cbn [foldl]. unfold mark1. simpl. by rewrite list_fmap_id.
  - cbn [foldl]. rewrite IH. unfold nickitems. cbn [snd].
    rewrite <-list_fmap_compose. apply list_fmap_ext. intros _ m _.
    unfold mark1, compose. cbn [existsb].
    destruct (nick_matches n m) eqn:E; [|done].
    cbn [orb]. unfold nick_matches in *. simpl.
    by destruct (existsb _ _).
Qed.

(** Flagging items does not change which items a nick matches. *)
Lemma filter_matches_flagged n (g : Item → Item) ms :
  (∀ m, g m = m ∨ g m = set_assigned true m) →
  line <$> List.filter (nick_matches n) (g <$> ms)
  = line <$> List.filter (nick_matches n) ms.
Proof.
  intros Hg. induction ms as [|m ms IH]; [done|].
  rewrite fmap_cons. cbn [List.filter].
  assert (nick_matches n (g m) = nick_matches n m ∧ line (g m) = line m)
    as [-> Hl] by (destruct (Hg m) as [-> | ->]; done).
  destruct (nick_matches n m); [|done].
  by rewrite !fmap_cons, IH, Hl.
Qed.

Section get_template.

Variable escape : string → string.

Lemma per_person_spec nicks ms :
  per_person escape nicks ms =
  (flat_map (entry escape ms) nicks, mark1 nicks <$> ms).
Proof.
  rewrite <-foldl_nickitems_map.
  revert ms. induction nicks as [|n nicks IH]; intros ms; [done|].
  cbn [per_person flat_map foldl]. unfold nickitems at 1.
  rewrite IH. f_equal. f_equal.
  - unfold entry. rewrite <-list_fmap_compose. done.
  - apply flat_map_ext. intros n'. unfold entry, nickitems. cbn [snd].
    assert (∀ l : list Item,
              (λ m, escape (line m)) <$> l = escape <$> (line <$> l)) as Hc.
    { intros l. by rewrite <-list_fmap_compose. }
    rewrite !Hc. rewrite filter_matches_flagged; [done|].
    intros m. destruct (nick_matches n m); auto.
Qed.

Lemma ActionItemsPerson_spec att ms :
  ActionItemsPerson escape att ms =
  let ms' := mark_assigned att ms in
  let un := (λ m, escape (line m)) <$> iterActionItemsUnassigned ms' in
  (flat_map (entry escape ms) (sorted_nicks att)
   ++ (if 1 <? length un then [("UNASSIGNED", un)] else []), ms').
Proof.
  unfold ActionItemsPerson. rewrite per_person_spec.
  unfold mark_assigned. by rewrite foldl_nickitems_map.
Qed.

(** Every action item that names an attendee is listed under that
    attendee, once for each of its occurrences in the minutes. *)
Lemma ActionItemsPerson_assigned att ms nick m :
  nick ∈ att.*1 → m ∈ ms → itemtype m = ACTION → nick_RE nick (line m) = true →
  ∃ ls, (escape nick, ls) ∈ (ActionItemsPerson escape att ms).1
        ∧ ls = (λ m, escape (line m)) <$> List.filter (nick_matches nick) ms
        ∧ escape (line m) ∈ ls.
Proof.
  intros Hnick Hm Ht Hre. rewrite ActionItemsPerson_spec. cbn [fst].
  assert (m ∈ List.filter (nick_matches nick) ms) as Hf.
  { apply list_elem_of_In, filter_In. split; [by apply list_elem_of_In|].
    unfold nick_matches. rewrite Hre. by rewrite bool_decide_eq_true_2. }
  eexists. split; [|split; [reflexivity|]].
  - apply elem_of_app. left. apply list_elem_of_In, in_flat_map.
    exists nick. split; [by apply list_elem_of_In, sorted_nicks_elem|].
    unfold entry. rewrite length_fmap.
    destruct (List.filter (nick_matches nick) ms) as [|x l] eqn:E.
    + by apply elem_of_nil in Hf.
    + left. reflexivity.
  - apply (list_elem_of_fmap_2 (λ m, escape (line m))). done.
Qed.

End get_template.

Lemma existsb_andb {A} (b : bool) (f : A → bool) l :
  existsb (λ x, b && f x) l = b && existsb f l.
Proof.
  induction l as [|x l IH]; simpl; [by rewrite andb_false_r|].
  rewrite IH. by destruct b.
Qed.

(** On minutes that no earlier pass has flagged, the unassigned items after
    the pass are the action items that name no attendee. *)
Lemma unassigned_fresh att ms :
  Forall (λ m, assigned m = false) ms →
  iterActionItemsUnassigned (mark_assigned att ms) =
  List.filter (λ m, bool_decide (itemtype m = ACTION)
                    && negb (existsb (λ n, nick_RE n (line m)) (sorted_nicks att)))
              ms.
Proof.
  intros Hfresh. unfold mark_assigned. rewrite foldl_nickitems_map.
  unfold iterActionItemsUnassigned.
  induction Hfresh as [|m ms Hm _ IH]; [done|].
  rewrite fmap_cons. cbn [List.filter]. rewrite IH.
  assert (existsb (λ n, nick_matches n m) (sorted_nicks att)
          = bool_decide (itemtype m = ACTION)
            && existsb (λ n, nick_RE n (line m)) (sorted_nicks att)) as Hex.
  { unfold nick_matches. apply existsb_andb. }
  unfold mark1. rewrite Hex. clear Hex.
  destruct (bool_decide (itemtype m = ACTION)) eqn:Ht; cbn [andb].
  - destruct (existsb _ _); cbn [itemtype assigned set_assigned negb];
      rewrite Ht, ?Hm; cbn [andb negb]; done.
  - by rewrite Ht.
Qed.

(** On such minutes the "UNASSIGNED" entry is there, with every action item
    that names no attendee, as soon as there are two of them. *)
Lemma ActionItemsPerson_unassigned escape att ms :
  Forall (λ m, assigned m = false) ms →
  let un := List.filter
              (λ m, bool_decide (itemtype m = ACTION)
                    && negb (existsb (λ n, nick_RE n (line m)) (sorted_nicks att)))
              ms in
  2 ≤ length un →
  ("UNASSIGNED", (λ m, escape (line m)) <$> un)
    ∈ (ActionItemsPerson escape att ms).1.
Proof.
  intros Hfresh un Hlen. rewrite ActionItemsPerson_spec. cbn [fst].
  rewrite (unassigned_fresh att ms Hfresh). fold un.
  apply elem_of_app. right. rewrite length_fmap.
  destruct (Nat.ltb_spec 1 (length un)); [left | lia].
Qed.

End writers_facts.

(** ** The persistence layer of the configuration in force *)

Module config_facts.

Import meeting writers config.

Lemma set_minutes_same M : set_minutes (minutes M) M = M.
Proof. by destruct M. Qed.

(** The writers of [meetingLocalConfig.py] never raise on the stored
    items, and all they change is the [assigned] attribute. *)
Lemma Config_save_local basename realtime M :
  Config_save writers_local basename realtime M =
  Some (if realtime then M
        else set_minutes (mark_assigned (attendees M) (minutes M)) M).
Proof.
  unfold Config_save, writers_local.
  destruct realtime; simpl.
  - destruct (negb _); [done|]. by rewrite set_minutes_same.
  - by rewrite set_minutes_same.
Qed.

Lemma localConfig_frame basename : save_frame (localConfig basename).
Proof.
  intros realtime M. simpl. rewrite Config_save_local. simpl.
  destruct realtime; simpl.
  - by rewrite set_minutes_same.
  - split; [done|].
    eapply writers_facts.Forall2_created, writers_facts.mark_assigned_marks.
Qed.

End config_facts.

(** ** The list structure of the hypertext summary *)

Module tag_facts.

Import items writers.

Lemma append_cons c s t : String c s +:+ t = String c (s +:+ t).
Proof. done. Qed.

Lemma append_nil s : "" +:+ s = s.
Proof. done. Qed.

Lemma starts_with_cons a p b s :
  starts_with (String a p) (String b s) = Ascii.eqb a b && starts_with p s.
Proof. done. Qed.

(** A pattern made of inner tag characters matches [x +:+ b] only if it
    matches [x]. *)
Lemma starts_with_inner p b :
  all_chars (λ c, mem_char c "ol>/i") p = true → head_safe b = true →
  ∀ x, starts_with p (x +:+ b) = starts_with p x.
Proof.
  intros Hp Hb. induction p as [|a p IH]; intros x; [done|].
  simpl in Hp. apply andb_true_iff in Hp as [Ha Hp].
  destruct x as [|c x].
  - rewrite append_nil. destruct b as [|c b]; [done|].
    cbn [starts_with]. simpl in Hb.
    destruct (Ascii.eqb_spec a c) as [->|]; [|done].
    by rewrite Ha in Hb.
  - rewrite append_cons, !starts_with_cons. by rewrite IH.
Qed.

Lemma tag_at_app c x b :
  head_safe b = true → tag_at (String c x +:+ b) = tag_at (String c x).
Proof.
  intros Hb. rewrite append_cons. unfold tag_at.
  change "<ol" with (String "<" "ol").
  change "</ol>" with (String "<" "/ol>").
  change "<li>" with (String "<" "li>").
  change "</li>" with (String "<" "/li>").
  rewrite !starts_with_cons.
  by rewrite !(λ p Hp, starts_with_inner p b Hp Hb x).
Qed.

(** No tag lies across the seam of two texts when the second is
    [head_safe]. *)
Lemma tag_events_app a b :
  head_safe b = true → tag_events (a +:+ b) = tag_events a ++ tag_events b.
Proof.
  intros Hb. induction a as [|c a IH]; [done|].
  rewrite append_cons at 1. cbn [tag_events].
  rewrite <-append_cons, tag_at_app by done.
  rewrite IH. by destruct (tag_at (String c a)).
Qed.

Lemma tag_events_skip c s : tag_at (String c s) = None →
  tag_events (String c s) = tag_events s.
Proof. intros H. cbn [tag_events]. by rewrite H. Qed.

Lemma tag_events_indentItem s n : tag_events (indentItem s n) = tag_events s.
Proof.
  unfold indentItem. induction n as [|n IH]; [done|].
  cbn [spaces]. rewrite append_cons. by rewrite tag_events_skip.
Qed.

Lemma tag_events_join ls :
  tag_events (join (String "010" "") ls) = flat_map tag_events ls.
Proof.
  induction ls as [|x ls IH]; [done|].
  destruct ls as [|y ls].
  - cbn [join flat_map]. by rewrite app_nil_r.
  - change (flat_map tag_events (x :: y :: ls))
      with (tag_events x ++ flat_map tag_events (y :: ls)).
    rewrite <-IH.
    change (join (String "010" "") (x :: y :: ls))
      with (x +:+ String "010" (join (String "010" "") (y :: ls))).
    rewrite tag_events_app by done. by rewrite tag_events_skip.
Qed.

(** *** The rendering of an item contains no list tag *)

Lemma append_assoc a b c : (a +:+ b) +:+ c = a +:+ (b +:+ c).
Proof. induction a as [|d a IH]; [done|]. by rewrite !append_cons, IH. Qed.

Lemma mem_char_app c a b : mem_char c (a +:+ b) = mem_char c a || mem_char c b.
Proof.
  induction a as [|d a IH]; [done|].
  rewrite append_cons. cbn [mem_char]. by rewrite IH, orb_assoc.
Qed.

Lemma no_lt_app a b : no_lt (a +:+ b) = no_lt a && no_lt b.
Proof. unfold no_lt. by rewrite mem_char_app, negb_orb. Qed.

Lemma tag_at_no_lt c s : Ascii.eqb "<" c = false → tag_at (String c s) = None.
Proof. intros H. unfold tag_at. cbn [starts_with]. by rewrite H. Qed.

Lemma tag_events_no_lt s rest :
  no_lt s = true → tag_events (s +:+ rest) = tag_events rest.
Proof.
  unfold no_lt. induction s as [|c s IH]; [done|].
  cbn [mem_char]. rewrite negb_orb. intros [Hc Hs]%andb_true_iff.
  rewrite append_cons, tag_events_skip; [auto|].
  apply tag_at_no_lt. by apply negb_true_iff.
Qed.

Lemma starts_with_incompatible p s rest :
  compatible p s = false → starts_with p (s +:+ rest) = false.
Proof.
  revert s. induction p as [|a p IH]; intros [|b s]; try done.
  rewrite append_cons. cbn [compatible starts_with].
  destruct (Ascii.eqb a b); [apply IH | done].
Qed.

Lemma tag_events_frag s rest :
  frag_ok s = true → tag_events (s +:+ rest) = tag_events rest.
Proof.
  induction s as [|c s IH]; [done|].
  cbn [frag_ok]. rewrite !andb_true_iff, !negb_true_iff.
  intros ((((H1&H2)&H3)&H4)&Hs).
  rewrite append_cons, tag_events_skip; [auto|].
  rewrite <-append_cons. unfold tag_at.
  by rewrite !starts_with_incompatible.
Qed.

Lemma no_lt_replace_char c rep s :
  no_lt rep = true → Ascii.eqb c "<" = true ∨ no_lt s = true →
  no_lt (escapers.replace_char c rep s) = true.
Proof.
  intros Hrep Hs. induction s as [|d s IH]; [done|].
  cbn [escapers.replace_char].
  assert (Ascii.eqb c "<" = true ∨ no_lt s = true) as Hs'.
  { destruct Hs as [|Hs]; [by left | right].
    unfold no_lt in *. cbn [mem_char] in Hs.
    rewrite negb_orb in Hs. by apply andb_true_iff in Hs as [_ ?]. }
  destruct (Ascii.eqb_spec c d) as [<-|Hcd].
  - rewrite no_lt_app, Hrep. auto.
  - unfold no_lt in *. cbn [mem_char]. rewrite negb_orb.
    apply andb_true_iff. split; [|auto].
    destruct Hs as [Hc|Hs].
    + apply Ascii.eqb_eq in Hc as ->. apply negb_true_iff.
      by apply Ascii.eqb_neq.
    + cbn [mem_char] in Hs. rewrite negb_orb in Hs.
      by apply andb_true_iff in Hs as [? _].
Qed.

(** The escaper leaves no ["<"]. *)
Lemma no_lt_html s : no_lt (escapers.html s) = true.
Proof.
  unfold escapers.html.
  apply no_lt_replace_char; [done|]. right.
  apply no_lt_replace_char; [done|]. by left.
Qed.

Lemma no_lt_string_of_uint d : no_lt (NilEmpty.string_of_uint d) = true.
Proof. induction d; done. Qed.

Lemma no_lt_dec n : no_lt (dec n) = true.
Proof. apply no_lt_string_of_uint. Qed.

Lemma no_lt_strftime_HM t : no_lt (strftime_HM t) = true.
Proof.
  unfold strftime_HM, dec2. by rewrite !no_lt_app, !no_lt_dec.
Qed.

Ltac peel :=
  repeat first
    [ rewrite tag_events_frag by reflexivity
    | rewrite tag_events_no_lt
        by first [ apply no_lt_html | apply no_lt_dec | assumption ] ].

(** No list tag starts in the rendering of an item, whatever its texts
    are, when the name of the log and the time contain no ["<"]. *)
Lemma html_tag_free basename m :
  no_lt basename = true → no_lt (time m) = true →
  tag_events (html basename m) = [].
Proof.
  intros Hb Ht. unfold html, details, logURL, anchor.
  destruct (itemtype m); cbn [starthtml endhtml itemtype_name];
    rewrite ?append_assoc; peel; reflexivity.
Qed.

Lemma html_tag_free_new basename t n l k tm :
  no_lt basename = true → tag_events (html basename (new t n l k tm)) = [].
Proof. intros Hb. apply html_tag_free; [done|]. apply no_lt_strftime_HM. Qed.

(** *** The list tags of the summary depend on the classes only *)

Section refine.

Variable wrapList : string → nat → string.
Variable basename : string.
Hypothesis Hwrap : keeps_tags wrapList.

Lemma tag_events_li x : tag_events ("<li>" +:+ x) = Open LI :: tag_events x.
Proof. reflexivity. Qed.

Lemma ev_item m n :
  tag_events (html basename m) = [] →
  tag_events (wrapList ("<li>" +:+ html basename m) n) = [Open LI].
Proof. intros H. by rewrite Hwrap, tag_events_li, H. Qed.

Lemma ev_item_closed m n :
  tag_events (html basename m) = [] →
  tag_events (wrapList ("<li>" +:+ html basename m) n +:+ "</li>")
  = [Open LI; Close LI].
Proof. intros H. rewrite tag_events_app by done. by rewrite ev_item. Qed.

Lemma flat_map_snoc {A B} (f : A → list B) l x :
  flat_map f (l ++ [x]) = flat_map f l ++ f x.
Proof. rewrite flat_map_app. simpl. by rewrite app_nil_r. Qed.

Ltac lines_events H :=
  rewrite ?flat_map_snoc, ?(ev_item_closed _ _ H), ?(ev_item _ _ H);
  change (tag_events (indentItem "<li>" 2)) with [Open LI];
  change (tag_events (indentItem "</li>" 2)) with [Close LI];
  change (tag_events (indentItem "</li>" 6)) with [Close LI];
  change (tag_events (indentItem "</ol>" 4)) with [Close OL];
  change (tag_events (indentItem "</ol>" 8)) with [Close OL];
  change (tag_events (indentItem ol_a 4)) with [Open OL];
  change (tag_events (indentItem ol_i 8)) with [Open OL];
  change (tag_events "</ol>") with [Close OL];
  rewrite <-?app_assoc.

Lemma item_step_events st m :
  tag_events (html basename m) = [] →
  written (item_step wrapList basename st m)
  = written st ++ (kind_step (flags st) (itemtype m)).1
  ∧ flags (item_step wrapList basename st m)
    = (kind_step (flags st) (itemtype m)).2.
Proof.
  intros H. destruct st as [ht hs isl issl out].
  unfold written, item_step, open_sublist, flags, kind_step, sublist_events.
  cbn [haveTopic haveSubtopic inSublist inSubsublist MeetingItems].
  destruct (itemtype m), ht, hs, isl, issl;
    cbn [haveTopic haveSubtopic inSublist inSubsublist MeetingItems fst snd];
    lines_events H; split; reflexivity.
Qed.

Lemma close_levels_events st :
  flat_map tag_events (close_levels st) = written st ++ kind_close (flags st).
Proof.
  destruct st as [ht hs isl issl out].
  unfold written, close_levels, flags, kind_close.
  cbn [haveTopic haveSubtopic inSublist inSubsublist MeetingItems].
  destruct ht, hs, isl, issl; lines_events I; reflexivity.
Qed.

Lemma foldl_item_step_events ms st :
  Forall (λ m, tag_events (html basename m) = []) ms →
  flat_map tag_events (close_levels (foldl (item_step wrapList basename) st ms))
  = written st ++ kind_run (flags st) (itemtype <$> ms).
Proof.
  intros Hms. revert st. induction Hms as [|m ms Hm _ IH]; intros st.
  - apply close_levels_events.
  - cbn [foldl]. rewrite IH.
    destruct (item_step_events st m Hm) as [-> ->].
    rewrite fmap_cons. cbn [kind_run]. by rewrite <-app_assoc.
Qed.

(** The list tags of the document are those of [kind_events]. *)
Lemma meetingItems_kind_events ms :
  Forall (λ m, tag_events (html basename m) = []) ms →
  tag_events (meetingItems wrapList basename ms) = kind_events (itemtype <$> ms).
Proof.
  intros Hms. unfold meetingItems, meetingItems_lines.
  by rewrite tag_events_join, foldl_item_step_events.
Qed.

End refine.

(** *** When the summary is well nested *)

Lemma nest_app open evs1 evs2 :
  nest open (evs1 ++ evs2) = nest open evs1 ≫= λ open', nest open' evs2.
Proof.
  revert open. induction evs1 as [|[t|t] evs1 IH]; intros open; simpl; [done|auto|].
  destruct open as [|t' open]; [done|]. by case_bool_decide.
Qed.

(** Below a subtopic, items that are no headings keep the nesting. *)
Lemma kind_run_no_headings ks f open :
  open_in f = Some open → below_subtopic f = true → no_headings ks = true →
  nest open (kind_run f ks) = Some [].
Proof.
  revert f open. induction ks as [|k ks IH]; intros [[[ht hs] isl] issl] open Ho Hs Hk.
  - simpl in Hs. subst hs. destruct ht, isl, issl; simplify_eq/=; done.
  - simpl in Hs. subst hs. cbn [no_headings forallb] in Hk.
    apply andb_true_iff in Hk as [Hk Hks].
    cbn [kind_run]. rewrite nest_app.
    destruct k, ht, isl, issl; simplify_eq/=;
      first [done | by eapply IH].
Qed.

(** Every level that is opened is closed once, innermost first, when no
    topic and no subtopic comes after a subtopic. *)
Lemma kind_run_subtopic_last ks f open :
  open_in f = Some open → below_subtopic f = false → subtopic_last ks = true →
  nest open (kind_run f ks) = Some [].
Proof.
  revert f open. induction ks as [|k ks IH]; intros [[[ht hs] isl] issl] open Ho Hs Hk.
  - simpl in Hs. subst hs. destruct ht, isl, issl; simplify_eq/=; done.
  - simpl in Hs. subst hs. cbn [kind_run]. rewrite nest_app.
    destruct k, ht, isl, issl; simplify_eq/=;
      first [ done | by eapply IH | by eapply kind_run_no_headings ].
Qed.

Lemma kind_events_well_nested ks :
  subtopic_last ks = true → well_nested (kind_events ks) = true.
Proof.
  intros H. unfold well_nested, kind_events. apply bool_decide_eq_true.
  cbn [nest]. by apply (kind_run_subtopic_last ks (false, false, false, false)).
Qed.

(** In a well nested sequence each kind of element is opened as often
    as it is closed. *)
Lemma nest_counts t evs : ∀ open open',
  nest open evs = Some open' →
  length (List.filter (λ t', bool_decide (t' = t)) open) + opens t evs
  = length (List.filter (λ t', bool_decide (t' = t)) open') + closes t evs.
Proof.
  unfold opens, closes.
  induction evs as [|[t1|t1] evs IH]; intros open open' H; simpl in H.
  - by simplify_eq.
  - apply IH in H. cbn [List.filter] in *.
    repeat case_bool_decide; simplify_eq; simpl in *; lia.
  - destruct open as [|t2 open]; [done|].
    case_bool_decide; [|done]. subst t2. apply IH in H.
    cbn [List.filter] in *.
    repeat case_bool_decide; simplify_eq; simpl in *; lia.
Qed.

Lemma well_nested_counts t evs :
  well_nested evs = true → opens t evs = closes t evs.
Proof.
  intros H%bool_decide_eq_true. by apply (nest_counts t) in H.
Qed.

(** The hypertext summary is well nested, and so has as many closing as
    opening tags of each kind, for every sequence of items in which no
    topic and no subtopic comes after a subtopic. *)
Lemma meetingItems_well_nested wrapList basename ms :
  keeps_tags wrapList → no_lt basename = true →
  Forall (λ m, no_lt (time m) = true) ms →
  subtopic_last (itemtype <$> ms) = true →
  let evs := tag_events (meetingItems wrapList basename ms) in
  well_nested evs = true ∧ ∀ t, opens t evs = closes t evs.
Proof.
  intros Hwrap Hb Ht Hks evs.
  assert (well_nested evs = true) as Hwn.
  { subst evs. rewrite meetingItems_kind_events; [|done|].
    - by apply kind_events_well_nested.
    - eapply Forall_impl; [exact Ht|]. intros m Hm. by apply html_tag_free. }
  split; [done|]. intros t. by apply well_nested_counts.
Qed.

End tag_facts.

(** ** The reference allocator *)

Module ref_facts.

Import items.

Lemma inbase_rec_unfold fuel i chars place :
  inbase_rec fuel i chars place =
  let d := String.length chars ^ (place + 1) in
  match i / d with
  | O => c ← String.get (i mod d) chars; Some (String c "")
  | S _ =>
      match fuel with
      | O => None
      | S fuel' =>
          hi ← inbase_rec fuel' (i / d) chars (place + 1);
          c ← String.get (i mod d) chars;
          Some (hi +:+ String c "")
      end
  end.
Proof. by destruct fuel. Qed.

Lemma pow_ge_2 n place : 2 ≤ n → 2 ≤ n ^ (place + 1).
Proof.
  intros Hn. rewrite Nat.add_1_r. cbn [Nat.pow].
  assert (1 ≤ n ^ place) by (apply Nat.neq_0_lt_0, Nat.pow_nonzero; lia).
  nia.
Qed.

(** The result does not depend on the fuel once it is at least [i]:
    [div] is smaller than [i] whenever it is not 0. *)
Lemma inbase_rec_fuel chars (Hc : 2 ≤ String.length chars) fuel1 :
  ∀ fuel2 i place, i ≤ fuel1 → i ≤ fuel2 →
    inbase_rec fuel1 i chars place = inbase_rec fuel2 i chars place.
Proof.
  induction fuel1 as [|fuel1 IH]; intros fuel2 i place H1 H2;
    rewrite (inbase_rec_unfold _ i), (inbase_rec_unfold fuel2 i); cbv zeta;
    pose proof (pow_ge_2 _ place Hc) as Hd;
    destruct (i / String.length chars ^ (place + 1)) as [|k] eqn:Hdiv; try done.
  - assert (i = 0) as -> by lia. rewrite Nat.Div0.div_0_l in Hdiv. done.
  - assert (0 < i) as Hi.
    { destruct i; [|lia]. rewrite Nat.Div0.div_0_l in Hdiv. done. }
    pose proof (Nat.div_lt i _ Hi Hd) as Hlt. rewrite Hdiv in Hlt.
    destruct fuel2 as [|fuel2]; [lia|].
    rewrite (IH fuel2) by lia. done.
Qed.

(** The recursion of [inbase], as the source writes it. *)
Lemma inbase_rec_step i place :
  inbase_rec i i alphabet place =
  let d := 26 ^ (place + 1) in
  match i / d with
  | O => c ← String.get (i mod d) alphabet; Some (String c "")
  | S _ =>
      hi ← inbase_rec (i / d) (i / d) alphabet (place + 1);
      c ← String.get (i mod d) alphabet;
      Some (hi +:+ String c "")
  end.
Proof.
  rewrite inbase_rec_unfold. change (String.length alphabet) with 26. cbv zeta.
  destruct (i / 26 ^ (place + 1)) as [|k] eqn:Hdiv; [done|].
  assert (2 ≤ 26 ^ (place + 1)) as Hd by (apply pow_ge_2; lia).
  assert (0 < i) as Hi.
  { destruct i; [|lia]. rewrite Nat.Div0.div_0_l in Hdiv. done. }
  pose proof (Nat.div_lt i _ Hi Hd) as Hlt. rewrite Hdiv in Hlt.
  destruct i as [|i']; [lia|].
  rewrite (inbase_rec_fuel alphabet) with (fuel2 := S k); [done|..];
    change (String.length alphabet) with 26; lia.
Qed.

Example inbase_values :
  inbase 0 = Some "a" ∧ inbase 1 = Some "b" ∧ inbase 25 = Some "z"
  ∧ inbase 26 = Some "ba" ∧ inbase 27 = Some "bb" ∧ inbase 675 = Some "zz"
  ∧ inbase 676 = None ∧ inbase 677 = None.
Proof. repeat split; vm_compute; reflexivity. Qed.

Lemma rstref_loop_unfold fuel refs orig rstref count :
  rstref_loop fuel refs orig rstref count =
  if bool_decide (rstref ∈ refs) then
    match fuel with
    | O => None
    | S fuel' =>
        sfx ← inbase count;
        rstref_loop fuel' refs orig (orig +:+ sfx) (S count)
    end
  else Some rstref.
Proof. by destruct fuel. Qed.

(** The loop of [makeRSTref] never stops for want of fuel: [inbase]
    raises at 676 and at 677, so more than 677 turns change nothing. *)
Lemma rstref_loop_fuel refs orig k :
  ∀ count fuel1 fuel2 rstref, count + k = 677 → k ≤ fuel1 → k ≤ fuel2 →
    rstref_loop fuel1 refs orig rstref count
    = rstref_loop fuel2 refs orig rstref count.
Proof.
  induction k as [|k IH]; intros count fuel1 fuel2 rstref Hc H1 H2;
    rewrite (rstref_loop_unfold fuel1), (rstref_loop_unfold fuel2);
    destruct (bool_decide (rstref ∈ refs)); try done.
  - assert (count = 677) as -> by lia.
    assert (inbase 677 = None) as -> by (vm_compute; reflexivity).
    by destruct fuel1, fuel2.
  - destruct fuel1 as [|fuel1], fuel2 as [|fuel2]; try lia.
    destruct (inbase count) as [sfx|]; [|done]. simpl.
    apply IH; lia.
Qed.

Lemma append_ne s c : s +:+ String c "" ≠ s.
Proof.
  induction s as [|d s IH]; [done|].
  rewrite tag_facts.append_cons. intros [= H]. by apply IH.
Qed.

End ref_facts.

(** ** The plugin *)

Module plugin_facts.

Import meeting meeting_facts plugin.

Section Plugin.

Variable cfg : Config.
Variable clock : Time.
Variable logline_RE loglineAction_RE : string → option (string * string * string).
Variable parse_time : string → option Time.
Variable logfile_RE : string → option (string * string).
Variable parse_time_file : string → option Time.
Variable getUrl : string → string.
Hypothesis Hsave : save_frame cfg.



(** The other two entry points keep [vote_wf] as well. *)
Lemma outFilter_vote_wf irc text M :
  vote_wf M →
  ∃ M', outFilter clock irc text (Some M) = Some M' ∧ vote_wf M'
        ∧ _meetingIsOver M' = _meetingIsOver M.
Proof.
  intros Hwf. unfold outFilter. eexists; split; [done|].
  destruct (addrawline_spec clock (irc_nick irc) (strip text) None M)
    as (_&_&_&_&_&Hw).
  split; [auto|]. unfold addrawline, addnick. simpl. by destruct (negb _).
Qed.

Lemma vote_vote_wf nick ballot M :
  vote_wf M →
  ∃ M', vote nick ballot (Some M) = Some (Some M') ∧ vote_wf M'.
Proof.
  intros Hwf. unfold vote.
  destruct (ballot_RE ballot); [|by eexists].
  destruct (doCastVote_ok nick ballot true M Hwf) as (M'&->&(_&_&_&Hw)&_).
  exists M'. auto.
Qed.

End Plugin.

End plugin_facts.

(** ** The two sorted views of the attendees *)

Module sort_facts.

Import writers.

(** The order on strings is transitive. *)
Lemma leb_trans s1 s2 s3 :
  String.leb s1 s2 = true → String.leb s2 s3 = true → String.leb s1 s3 = true.
Proof.
  unfold String.leb. revert s2 s3.
  induction s1 as [|c1 s1 IH]; intros [|c2 s2] [|c3 s3]; simpl; try done.
  unfold Ascii.compare.
  destruct (N.compare_spec (N_of_ascii c1) (N_of_ascii c2)) as [E12|L12|G12];
    destruct (N.compare_spec (N_of_ascii c2) (N_of_ascii c3)) as [E23|L23|G23];
    try done.
  - rewrite E12, E23, N.compare_refl. apply IH.
  - intros _ _. rewrite E12. by apply N.compare_lt_iff in L23 as ->.
  - intros _ _. rewrite <- E23. by apply N.compare_lt_iff in L12 as ->.
  - intros _ _.
    assert (N_of_ascii c1 < N_of_ascii c3)%N as L by lia.
    by apply N.compare_lt_iff in L as ->.
Qed.

Global Instance nick_le_trans : Transitive nick_le.
Proof. intros x y z. apply leb_trans. Qed.

Global Instance count_ge_trans : Transitive count_ge.
Proof. intros x y z. unfold count_ge. lia. Qed.

(** *** [iterNickCounts] *)

Lemma insert_count_perm x l : insert_count x l ≡ₚ x :: l.
Proof.
  induction l as [|y l IH]; simpl; [done|].
  destruct (x.2 <=? y.2); [|done]. rewrite IH. apply Permutation_swap.
Qed.

Lemma insert_count_sorted x l :
  StronglySorted count_ge l → StronglySorted count_ge (insert_count x l).
Proof.
  induction 1 as [|y l Hs IH Hy]; simpl.
  - repeat constructor.
  - destruct (Nat.leb_spec x.2 y.2) as [Hle|Hlt].
    + constructor; [done|].
      rewrite insert_count_perm. constructor; [done|done].
    + constructor; [by constructor|].
      constructor; [unfold count_ge; lia|].
      eapply Forall_impl; [exact Hy|]. unfold count_ge. intros; simpl in *; lia.
Qed.

(** An entry goes behind the entries of the same count. *)
Lemma insert_count_stable c x l :
  StronglySorted count_ge l →
  List.filter (λ y : string * nat, y.2 =? c) (insert_count x l)
  = List.filter (λ y : string * nat, y.2 =? c) l
    ++ (if x.2 =? c then [x] else []).
Proof.
  induction 1 as [|y l Hs IH Hy]; simpl; [by destruct (_ =? _)|].
  destruct (Nat.leb_spec x.2 y.2) as [Hle|Hlt]; simpl.
  - rewrite IH. by destruct (y.2 =? c).
  - assert (List.filter (λ y0 : string * nat, y0.2 =? c) l
            ++ (if x.2 =? c then [x] else [])
            = (if x.2 =? c then [x] else [])
              ++ List.filter (λ y0 : string * nat, y0.2 =? c) l) as Hsw.
    { destruct (Nat.eqb_spec x.2 c) as [Hc|Hc]; [|by rewrite app_nil_r].
      assert (List.filter (λ y0 : string * nat, y0.2 =? c) l = []) as ->; [|done].
      clear -Hy Hlt Hc. induction Hy as [|z l Hz _ IH]; simpl; [done|].
      unfold count_ge in Hz.
      destruct (Nat.eqb_spec z.2 c); [lia | done]. }
    destruct (Nat.eqb_spec y.2 c) as [Hyc|Hyc].
    + destruct (Nat.eqb_spec x.2 c); [lia|]. simpl. by rewrite app_nil_r.
    + rewrite Hsw. by destruct (x.2 =? c).
Qed.

Lemma iterNickCounts_snoc a x :
  iterNickCounts (a ++ [x]) = insert_count x (iterNickCounts a).
Proof. unfold iterNickCounts. by rewrite foldl_app. Qed.

Lemma iterNickCounts_spec a :
  iterNickCounts a ≡ₚ a
  ∧ StronglySorted count_ge (iterNickCounts a)
  ∧ ∀ c, List.filter (λ y : string * nat, y.2 =? c) (iterNickCounts a)
         = List.filter (λ y : string * nat, y.2 =? c) a.
Proof.
  induction a as [|x a (Hp&Hs&Hst)] using rev_ind.
  - repeat split; constructor.
  - rewrite iterNickCounts_snoc. split; [|split].
    + rewrite insert_count_perm, Hp. by rewrite Permutation_cons_append.
    + by apply insert_count_sorted.
    + intros c. rewrite insert_count_stable by done.
      rewrite Hst, List.filter_app. simpl. by destruct (_ =? _).
Qed.

(** *** [sorted(M.attendees.keys(), key=lambda x: x.lower())] *)

Lemma insert_nick_perm k l : insert_nick k l ≡ₚ k :: l.
Proof.
  induction l as [|y l IH]; simpl; [done|].
  destruct (String.leb _ _); [|done]. rewrite IH. apply Permutation_swap.
Qed.

Lemma insert_nick_sorted k l :
  StronglySorted nick_le l → StronglySorted nick_le (insert_nick k l).
Proof.
  induction 1 as [|y l Hs IH Hy]; simpl.
  - repeat constructor.
  - destruct (String.leb (lower y) (lower k)) eqn:E.
    + constructor; [done|]. rewrite insert_nick_perm. by constructor.
    + assert (nick_le k y) as Hky.
      { destruct (String.leb_total (lower y) (lower k)); [congruence|done]. }
      constructor; [by constructor|]. constructor; [done|].
      eapply Forall_impl; [exact Hy|]. intros z Hz. by transitivity y.
Qed.

Lemma sorted_nicks_snoc a x :
  sorted_nicks (a ++ [x]) = insert_nick x.1 (sorted_nicks a).
Proof. unfold sorted_nicks. by rewrite fmap_app, foldl_app. Qed.

Lemma sorted_nicks_spec a :
  sorted_nicks a ≡ₚ a.*1 ∧ StronglySorted nick_le (sorted_nicks a).
Proof.
  induction a as [|x a (Hp&Hs)] using rev_ind.
  - repeat split; constructor.
  - rewrite sorted_nicks_snoc. split.
    + rewrite insert_nick_perm, Hp, fmap_app. simpl.
      by rewrite Permutation_cons_append.
    + by apply insert_nick_sorted.
Qed.

End sort_facts.

(** ** The escaper, the link items and the cross-references *)

Module item_facts.

Import items writers tag_facts ref_facts.

(** *** [writers.html] *)

Lemma replace_char_app c rep a b :
  escapers.replace_char c rep (a +:+ b)
  = escapers.replace_char c rep a +:+ escapers.replace_char c rep b.
Proof.
  induction a as [|d a IH]; [done|]. rewrite append_cons. simpl.
  destruct (Ascii.eqb c d); rewrite IH; [by rewrite append_assoc|done].
Qed.

(** The escaper works character by character. *)
Lemma html_cons c s :
  escapers.html (String c s) = escapers.html (String c "") +:+ escapers.html s.
Proof.
  unfold escapers.html.
  change (String c s) with (String c "" +:+ s).
  by rewrite !replace_char_app.
Qed.

Lemma html_char c :
  escapers.html (String c "")
  = if Ascii.eqb c "&" then "&amp;"
    else if Ascii.eqb c "<" then "&lt;"
    else if Ascii.eqb c ">" then "&gt;" else String c "".
Proof.
  unfold escapers.html. cbn [escapers.replace_char].
  rewrite (Ascii.eqb_sym c "&"), (Ascii.eqb_sym c "<"), (Ascii.eqb_sym c ">").
  destruct (Ascii.eqb_spec "&" c) as [<-|Hamp]; [reflexivity|].
  cbn [escapers.replace_char].
  destruct (Ascii.eqb_spec "<" c) as [<-|Hlt]; [reflexivity|].
  cbn [escapers.replace_char].
  destruct (Ascii.eqb_spec ">" c) as [<-|Hgt]; reflexivity.
Qed.

Lemma no_gt_app a b : no_gt (a +:+ b) = no_gt a && no_gt b.
Proof. unfold no_gt. rewrite mem_char_app. by destruct (mem_char _ a). Qed.

Lemma no_gt_html s : no_gt (escapers.html s) = true.
Proof.
  induction s as [|c s IH]; [done|].
  rewrite html_cons, no_gt_app, IH, html_char.
  destruct (Ascii.eqb c "&"); [done|]. destruct (Ascii.eqb c "<"); [done|].
  destruct (Ascii.eqb c ">") eqn:E; [done|].
  unfold no_gt. cbn [mem_char]. by rewrite (Ascii.eqb_sym ">" c), E.
Qed.

Lemma html_safe s :
  mem_char "&" s = false → mem_char "<" s = false → mem_char ">" s = false →
  escapers.html s = s.
Proof.
  induction s as [|c s IH]; [done|]. cbn [mem_char].
  intros [Ha Ha']%orb_false_elim [Hl Hl']%orb_false_elim [Hg Hg']%orb_false_elim.
  rewrite html_cons, html_char, IH by done.
  rewrite Ascii.eqb_sym in Ha. rewrite Ascii.eqb_sym in Hl.
  rewrite Ascii.eqb_sym in Hg. by rewrite Ha, Hl, Hg.
Qed.

Lemma html_inj s1 : ∀ s2, escapers.html s1 = escapers.html s2 → s1 = s2.
Proof.
  induction s1 as [|c1 s1 IH]; intros [|c2 s2].
  - done.
  - rewrite html_cons, html_char.
    destruct (Ascii.eqb c2 "&"); [done|]. destruct (Ascii.eqb c2 "<"); [done|].
    by destruct (Ascii.eqb c2 ">").
  - rewrite html_cons, html_char.
    destruct (Ascii.eqb c1 "&"); [done|]. destruct (Ascii.eqb c1 "<"); [done|].
    by destruct (Ascii.eqb c1 ">").
  - rewrite (html_cons c1), (html_cons c2), !html_char.
    destruct (Ascii.eqb_spec c1 "&") as [->|H1a];
      destruct (Ascii.eqb_spec c2 "&") as [->|H2a].
    + intros [= H]. f_equal. by apply IH.
    + destruct (Ascii.eqb c2 "<"); [done|]. destruct (Ascii.eqb c2 ">"); [done|].
      intros [= H _]. congruence.
    + destruct (Ascii.eqb c1 "<"); [done|]. destruct (Ascii.eqb c1 ">"); [done|].
      intros [= H _]. congruence.
    + destruct (Ascii.eqb_spec c1 "<") as [->|H1l];
        destruct (Ascii.eqb_spec c2 "<") as [->|H2l].
      * intros [= H]. f_equal. by apply IH.
      * destruct (Ascii.eqb c2 ">"); [done|]. intros [= H _]. congruence.
      * destruct (Ascii.eqb c1 ">"); [done|]. intros [= H _]. congruence.
      * destruct (Ascii.eqb_spec c1 ">") as [->|H1g];
          destruct (Ascii.eqb_spec c2 ">") as [->|H2g].
        -- intros [= H]. f_equal. by apply IH.
        -- intros [= H _]. congruence.
        -- intros [= H _]. congruence.
        -- intros [= -> H]. f_equal. by apply IH.
Qed.

(** *** [Link.__init__] *)

Lemma split_first_space_spec s u rest :
  mem_char " " s = true → split_first_space s = (u, rest) →
  s = u +:+ " " +:+ rest ∧ mem_char " " u = false.
Proof.
  revert u rest. induction s as [|c s IH]; intros u rest;
    cbn [mem_char split_first_space]; [done|].
  rewrite (Ascii.eqb_sym " " c).
  destruct (Ascii.eqb c " ") eqn:E.
  - intros _ [= <- <-]. apply Ascii.eqb_eq in E as ->. done.
  - cbn [orb]. intros Hs. destruct (split_first_space s) as [a b].
    intros [= <- <-]. destruct (IH a b Hs eq_refl) as [-> Ha].
    split; [done|]. cbn [mem_char]. by rewrite (Ascii.eqb_sym " " c), E.
Qed.

Lemma split_first_space_none s :
  mem_char " " s = false → split_first_space (s +:+ " ") = (s, "").
Proof.
  induction s as [|c s IH]; cbn [mem_char]; [done|].
  rewrite (Ascii.eqb_sym " " c). intros [E Hs]%orb_false_elim.
  rewrite append_cons. cbn [split_first_space]. by rewrite E, IH.
Qed.

Lemma rstrip_by_app p a b :
  rstrip_by p (a +:+ b)
  = if String.eqb (rstrip_by p b) "" then rstrip_by p a else a +:+ rstrip_by p b.
Proof.
  induction a as [|c a IH].
  - rewrite !append_nil. by destruct (rstrip_by p b).
  - rewrite append_cons. simpl. rewrite IH.
    destruct (String.eqb _ "") eqn:E; [done|].
    rewrite append_cons.
    destruct (a +:+ rstrip_by p b) eqn:E'; [|done].
    destruct a; [|done]. rewrite append_nil in E'. by rewrite E' in E.
Qed.

Lemma rstrip_by_idem p s : rstrip_by p (rstrip_by p s) = rstrip_by p s.
Proof.
  induction s as [|c s IH]; [done|]. simpl.
  destruct (rstrip_by p s) as [|d r] eqn:E.
  - destruct (p c) eqn:Ep; simpl; [done|]. by rewrite Ep.
  - simpl in *. by rewrite IH.
Qed.

Lemma rstrip_by_app_rstrip p a b :
  rstrip_by p (a +:+ rstrip_by p b) = rstrip_by p (a +:+ b).
Proof.
  by rewrite !rstrip_by_app, rstrip_by_idem.
Qed.

Lemma mem_char_starts_with u rest : starts_with u (u +:+ rest) = true.
Proof.
  induction u as [|c u IH]; [done|]. rewrite append_cons. simpl.
  by rewrite Ascii.eqb_refl.
Qed.

Lemma split_first_space_prefix s : ∀ u rest,
  split_first_space (s +:+ " ") = (u, rest) → starts_with u s = true.
Proof.
  induction s as [|c s IH]; intros u rest.
  - by intros [= <- <-].
  - rewrite append_cons. cbn [split_first_space].
    destruct (Ascii.eqb c " "); [by intros [= <- <-]|].
    destruct (split_first_space (s +:+ " ")) as [a b] eqn:E.
    intros [= <- <-]. cbn [starts_with]. rewrite Ascii.eqb_refl.
    by apply (IH a b).
Qed.

Lemma Link_spec nick l n t :
  let m := Link nick l n t in
  itemtype m = LINK ∧ linenum m = n
  ∧ mem_char " " (url m) = false
  ∧ starts_with (url m) l = true
  ∧ rstrip (url m +:+ " " +:+ line m) = rstrip l.
Proof.
  cbn zeta. unfold Link.
  destruct (split_first_space (l +:+ " ")) as [u rest] eqn:E. cbn.
  assert (mem_char " " (l +:+ " ") = true) as Hsp.
  { rewrite mem_char_app. cbn. by rewrite orb_true_r. }
  destruct (split_first_space_spec _ _ _ Hsp E) as [Heq Hu].
  repeat split; [done|by eapply split_first_space_prefix|].
  unfold rstrip.
  rewrite <-append_assoc, rstrip_by_app_rstrip, append_assoc, <-Heq.
  by rewrite rstrip_by_app.
Qed.

(** *** [inbase] *)

Lemma get_alphabet n : n < 26 → is_Some (String.get n alphabet).
Proof.
  intros H. do 26 (destruct n as [|n]; [by eexists|]). lia.
Qed.

Lemma get_alphabet_none n : 26 ≤ n → String.get n alphabet = None.
Proof.
  intros H. do 26 (destruct n as [|n]; [lia|]). done.
Qed.

Lemma inbase_small i : i < 26 →
  ∃ c, String.get i alphabet = Some c ∧ inbase i = Some (String c "").
Proof.
  intros H. unfold inbase. rewrite inbase_rec_step.
  cbn zeta. change (26 ^ (0 + 1)) with 26.
  rewrite Nat.div_small, Nat.mod_small by done.
  destruct (get_alphabet i H) as [c Hc]. exists c. by rewrite Hc.
Qed.

Lemma inbase_two i : 26 ≤ i → i < 676 →
  ∃ c1 c2, String.get (i / 26) alphabet = Some c1
           ∧ String.get (i mod 26) alphabet = Some c2
           ∧ inbase i = Some (String c1 (String c2 "")).
Proof.
  intros Hlo Hhi. unfold inbase. rewrite inbase_rec_step.
  cbn zeta. change (26 ^ (0 + 1)) with 26.
  assert (1 ≤ i / 26) as Hd by (apply Nat.div_le_lower_bound; lia).
  assert (i / 26 < 26) as Hd' by (apply Nat.Div0.div_lt_upper_bound; lia).
  destruct (i / 26) as [|q] eqn:Eq; [lia|].
  rewrite inbase_rec_step. cbn zeta. change (26 ^ (0 + 1 + 1)) with 676.
  rewrite (Nat.div_small (S q) 676), (Nat.mod_small (S q) 676) by lia.
  destruct (get_alphabet (S q) Hd') as [c1 Hc1].
  destruct (get_alphabet (i mod 26)) as [c2 Hc2].
  { apply Nat.mod_upper_bound. lia. }
  exists c1, c2. rewrite Hc1, Hc2. done.
Qed.

Lemma inbase_gap i : 676 ≤ i → i < 26 * 676 → inbase i = None.
Proof.
  intros Hlo Hhi. unfold inbase. rewrite inbase_rec_step.
  cbn zeta. change (26 ^ (0 + 1)) with 26.
  assert (26 ≤ i / 26) as Hd by (apply Nat.div_le_lower_bound; lia).
  assert (i / 26 < 676) as Hd' by (apply Nat.Div0.div_lt_upper_bound; lia).
  destruct (i / 26) as [|q] eqn:Eq; [lia|].
  rewrite inbase_rec_step. cbn zeta. change (26 ^ (0 + 1 + 1)) with 676.
  rewrite (Nat.div_small (S q) 676), (Nat.mod_small (S q) 676) by lia.
  by rewrite (get_alphabet_none (S q)).
Qed.

Lemma get_alphabet_inj i j c :
  String.get i alphabet = Some c → String.get j alphabet = Some c → i = j.
Proof.
  intros Hi Hj.
  assert (i < 26) as Hi'.
  { destruct (Nat.lt_ge_cases i 26); [done|]. by rewrite get_alphabet_none in Hi. }
  assert (j < 26) as Hj'.
  { destruct (Nat.lt_ge_cases j 26); [done|]. by rewrite get_alphabet_none in Hj. }
  revert Hi Hj.
  do 26 (destruct i as [|i]; [intros [= <-]; do 26 (destruct j as [|j]; [done|]); lia|]).
  lia.
Qed.

Lemma inbase_inj i j : i < 676 → j < 676 → inbase i = inbase j → i = j.
Proof.
  intros Hi Hj.
  destruct (Nat.lt_ge_cases i 26) as [Hi1|Hi2];
    destruct (Nat.lt_ge_cases j 26) as [Hj1|Hj2].
  - destruct (inbase_small i Hi1) as (c&Hc&->).
    destruct (inbase_small j Hj1) as (d&Hd&->).
    intros [= <-]. eapply get_alphabet_inj; eauto.
  - destruct (inbase_small i Hi1) as (c&Hc&->).
    by destruct (inbase_two j Hj2 Hj) as (c1&c2&_&_&->).
  - destruct (inbase_small j Hj1) as (c&Hc&->).
    by destruct (inbase_two i Hi2 Hi) as (c1&c2&_&_&->).
  - destruct (inbase_two i Hi2 Hi) as (c1&c2&H1&H2&->).
    destruct (inbase_two j Hj2 Hj) as (d1&d2&H1'&H2'&->).
    intros [= <- <-].
    pose proof (get_alphabet_inj _ _ _ H1 H1') as Hq.
    pose proof (get_alphabet_inj _ _ _ H2 H2') as Hr.
    rewrite (Nat.div_mod_eq i 26), (Nat.div_mod_eq j 26). lia.
Qed.

(** *** The references of one [ReST] pass *)

Lemma rstref_loop_fresh fuel refs orig r0 count r :
  rstref_loop fuel refs orig r0 count = Some r → r ∉ refs.
Proof.
  revert r0 count. induction fuel as [|fuel IH]; intros r0 count;
    rewrite rstref_loop_unfold; case_bool_decide; try done.
  - by intros [= <-].
  - destruct (inbase count) as [sfx|]; [|done]. simpl. apply IH.
  - by intros [= <-].
Qed.

Lemma makeRSTref_fresh basename m refs urls r refs' urls' :
  makeRSTref basename m (refs, urls) = Some (r, (refs', urls')) →
  (r ∉ refs) ∧ refs' = {[r]} ∪ refs ∧ length urls' = S (length urls).
Proof.
  unfold makeRSTref. destruct (last_char (nick m)) as [c|]; [|done].
  cbn [mbind option_bind].
  destruct (rstref_loop 677 _ _ _ _) as [r'|] eqn:E; [|done].
  intros [= <- <- <-]. split; [by eapply rstref_loop_fresh|].
  split; [done|]. rewrite length_app. simpl. lia.
Qed.

Lemma rst_items_refs basename ms : ∀ refs urls ms' refs' urls',
  rst_items basename ms (refs, urls) = Some (ms', (refs', urls')) →
  ∃ rs, rstref <$> ms' = Some <$> rs ∧ NoDup rs ∧ (∀ r, r ∈ rs → r ∉ refs)
        ∧ refs' = list_to_set rs ∪ refs
        ∧ length urls' = length urls + length ms
        ∧ length ms' = length ms.
Proof.
  induction ms as [|m ms IH]; intros refs urls ms' refs' urls'; simpl.
  - intros [= <- <- <-]. exists [].
    repeat split; try done; try constructor; try set_solver.
  - unfold rst.
    destruct (makeRSTref basename m (refs, urls)) as [[r [refs1 urls1]]|] eqn:E;
      [|done].
    simpl.
    destruct (rst_items basename ms (refs1, urls1)) as [[rest' [refs2 urls2]]|]
      eqn:E'; [|done].
    simpl. intros [= <- <- <-].
    apply makeRSTref_fresh in E as (Hr&->&Hlen).
    destruct (IH _ _ _ _ _ E') as (rs&Hrs&Hnd&Hfresh&->&Hlen'&Hlen'').
    exists (r :: rs). rewrite !fmap_cons, Hrs. repeat split.
    + constructor; [|done]. intros Hin. apply (Hfresh r Hin). set_solver.
    + intros r' [->|Hin]%elem_of_cons; [done|].
      intros Hr'. apply (Hfresh r' Hin). set_solver.
    + set_solver.
    + simpl. lia.
    + simpl. lia.
Qed.

End item_facts.

(** ** The list structure of the other [HTML] blocks *)

Module block_facts.

Import items writers writers_facts tag_facts.

Lemma balanced_nil : balanced [].
Proof. by intros open. Qed.

Lemma balanced_app evs1 evs2 :
  balanced evs1 → balanced evs2 → balanced (evs1 ++ evs2).
Proof. intros H1 H2 open. rewrite nest_app, H1. simpl. apply H2. Qed.

Lemma balanced_wrap t evs :
  balanced evs → balanced (Open t :: evs ++ [Close t]).
Proof.
  intros H open. simpl. rewrite nest_app, H. simpl.
  by rewrite bool_decide_eq_true_2.
Qed.

Lemma balanced_entries n : balanced (entries n).
Proof.
  induction n as [|n IH]; [apply balanced_nil|].
  intros open. simpl. apply IH.
Qed.

Lemma balanced_block n : balanced (block_events n).
Proof.
  destruct n as [|n]; [apply balanced_nil|].
  assert (block_events (S n)
          = Open LI :: (Open OL :: entries (S n) ++ [Close OL]) ++ [Close LI])
    as ->.
  { unfold block_events. simpl. by rewrite <-app_assoc. }
  apply balanced_wrap, balanced_wrap, balanced_entries.
Qed.

Lemma balanced_flat_map {A} (f : A → list Ev) l :
  (∀ x, balanced (f x)) → balanced (flat_map f l).
Proof.
  intros Hf. induction l as [|x l IH]; [apply balanced_nil|].
  simpl. by apply balanced_app.
Qed.

Lemma balanced_well_nested evs : balanced evs → well_nested evs = true.
Proof. intros H. unfold well_nested. by rewrite H, bool_decide_eq_true_2. Qed.

Lemma entries_app n k : entries (n + k) = entries n ++ entries k.
Proof. induction n as [|n IH]; [done|]. simpl. by rewrite IH. Qed.

Lemma flat_map_entries {A} (f : A → list Ev) l :
  (∀ x, f x = [Open LI; Close LI]) → flat_map f l = entries (length l).
Proof.
  intros Hf. induction l as [|x l IH]; [done|]. simpl. by rewrite Hf, IH.
Qed.

Lemma flat_map_fmap {A B C} (f : B → list C) (g : A → B) l :
  flat_map f (g <$> l) = flat_map (λ x, f (g x)) l.
Proof. induction l as [|x l IH]; [done|]. rewrite fmap_cons. simpl. by rewrite IH. Qed.

Lemma opens_entries n evs :
  opens LI (entries n ++ evs) = n + opens LI evs.
Proof.
  induction n as [|n IH]; [done|]. unfold opens in *. simpl. by rewrite IH.
Qed.

Lemma opens_list n : opens LI (Open OL :: entries n ++ [Close OL]) = n.
Proof.
  change (opens LI (Open OL :: entries n ++ [Close OL]))
    with (opens LI (entries n ++ [Close OL])).
  rewrite opens_entries. unfold opens. simpl. lia.
Qed.

Lemma list_well_nested n :
  well_nested (Open OL :: entries n ++ [Close OL]) = true.
Proof. apply balanced_well_nested, balanced_wrap, balanced_entries. Qed.

(** *** [peoplePresent] *)

Lemma tag_events_person_line (x : string * nat) :
  tag_events
    (indentItem ("<li>" +:+ escapers.html x.1 +:+ " (" +:+ dec x.2 +:+ ")</li>") 2)
  = [Open LI; Close LI].
Proof.
  rewrite tag_events_indentItem, tag_events_li. by peel.
Qed.

Lemma peoplePresent_events att :
  tag_events (peoplePresent att)
  = Open OL :: entries (length att) ++ [Close OL].
Proof.
  unfold peoplePresent, nl. rewrite tag_events_join. unfold peoplePresent_lines.
  rewrite !flat_map_app, flat_map_fmap.
  rewrite (flat_map_entries _ _ tag_events_person_line).
  destruct (sort_facts.iterNickCounts_spec att) as (Hp&_&_).
  by rewrite (Permutation_length Hp).
Qed.

(** *** [actionItems] and [doneItems] *)

Section blocks.

Variable wrapList : string → nat → string.
Hypothesis Hwrap : keeps_tags wrapList.

Lemma tag_events_li_line n m : tag_events (li_line wrapList n m) = [Open LI; Close LI].
Proof.
  unfold li_line. rewrite Hwrap, tag_events_li. by peel.
Qed.

Lemma class_items_spec t title ms :
  tag_events (heading title) = [] →
  let k := length (List.filter (λ m, bool_decide (itemtype m = t)) ms) in
  match class_items wrapList t title ms with
  | None => k = 0
  | Some s => 0 < k ∧ tag_events s = Open OL :: entries k ++ [Close OL]
  end.
Proof.
  intros Ht. unfold class_items.
  destruct (List.filter _ ms) as [|m l] eqn:E; [done|].
  cbn zeta. rewrite fmap_cons. split; [simpl; lia|].
  unfold nl. rewrite tag_events_join.
  rewrite <-fmap_cons, !flat_map_app, flat_map_fmap.
  rewrite (flat_map_entries _ _ (tag_events_li_line 2)).
  cbn [flat_map]. rewrite Ht.
  change (tag_events "<ol>") with [Open OL].
  change (tag_events "</ol>") with [Close OL]. done.
Qed.

(** *** [actionItemsPerson] *)

Lemma person_lines_line nick y1 y2 :
  line <$> y1 = line <$> y2 →
  person_lines wrapList nick y1 = person_lines wrapList nick y2.
Proof.
  intros H.
  assert (li_line wrapList 4 <$> y1 = li_line wrapList 4 <$> y2) as Hl.
  { clear nick. revert y2 H.
    induction y1 as [|a y1 IH]; intros [|b y2]; rewrite ?fmap_cons; try done.
    intros [= Hl Hr]. f_equal; [unfold li_line; by rewrite Hl | auto]. }
  unfold person_lines. rewrite Hl.
  destruct y1, y2; try done.
Qed.

Lemma persons_loop_spec nicks ms :
  persons_loop wrapList nicks ms
  = (flat_map (λ nick, person_lines wrapList nick
                         (List.filter (nick_matches nick) ms)) nicks,
     mark1 nicks <$> ms).
Proof.
  rewrite <-foldl_nickitems_map.
  revert ms. induction nicks as [|n nicks IH]; intros ms; [done|].
  cbn [persons_loop flat_map foldl]. unfold nickitems at 1.
  rewrite IH. f_equal. f_equal.
  - apply person_lines_line. by rewrite <-list_fmap_compose.
  - apply flat_map_ext. intros n'. unfold nickitems. cbn [snd].
    apply person_lines_line. rewrite filter_matches_flagged; [done|].
    intros m. destruct (nick_matches n m); auto.
Qed.

Lemma person_lines_events nick y :
  flat_map tag_events (person_lines wrapList nick y) = block_events (length y).
Proof.
  unfold person_lines. destruct y as [|m y]; [done|].
  rewrite !flat_map_app, flat_map_fmap.
  rewrite (flat_map_entries _ _ (tag_events_li_line 4)).
  cbn [flat_map]. rewrite tag_events_indentItem, tag_events_li.
  rewrite tag_events_no_lt by apply no_lt_html. done.
Qed.

Lemma unassigned_lines_events ms :
  flat_map tag_events (unassigned_lines wrapList ms)
  = block_events (length (iterActionItemsUnassigned ms)).
Proof.
  unfold unassigned_lines.
  destruct (iterActionItemsUnassigned ms) as [|m y]; [done|].
  rewrite fmap_cons, <-fmap_cons.
  rewrite !flat_map_app, flat_map_fmap.
  rewrite (flat_map_entries _ _ (tag_events_li_line 4)). done.
Qed.

Lemma person_lines_nil nick y : person_lines wrapList nick y = [] ↔ y = [].
Proof. unfold person_lines. by destruct y. Qed.

Lemma flat_map_nil {A B} (f : A → list B) l :
  flat_map f l = [] ↔ Forall (λ x, f x = []) l.
Proof.
  induction l as [|x l IH]; simpl; [by split; [constructor|]|].
  split.
  - intros [H1 H2]%app_eq_nil. constructor; [done|]. by apply IH.
  - intros H. inversion H; subst. apply app_nil; split; [done|]. by apply IH.
Qed.

Lemma actionItemsPerson_spec att ms :
  (actionItemsPerson wrapList att ms).2 = mark_assigned att ms
  ∧ match (actionItemsPerson wrapList att ms).1 with
    | None =>
        Forall (λ nick, List.filter (nick_matches nick) ms = []) (sorted_nicks att)
    | Some s =>
        Exists (λ nick, List.filter (nick_matches nick) ms ≠ []) (sorted_nicks att)
        ∧ tag_events s
          = Open OL ::
              (flat_map (λ nick, block_events
                           (length (List.filter (nick_matches nick) ms)))
                        (sorted_nicks att)
               ++ block_events
                    (length (iterActionItemsUnassigned (mark_assigned att ms))))
              ++ [Close OL]
    end.
Proof.
  unfold actionItemsPerson. rewrite persons_loop_spec.
  unfold mark_assigned. rewrite foldl_nickitems_map.
  destruct (flat_map _ (sorted_nicks att)) as [|l ls] eqn:E.
  - split; [done|]. cbn [fst]. apply flat_map_nil in E.
    eapply Forall_impl; [exact E|]. intros nick. apply person_lines_nil.
  - split; [done|]. cbn [fst]. split.
    + apply not_Forall_Exists; [intros x; apply _|].
      intros HF. assert (l :: ls = []) as [=]. rewrite <-E.
      apply flat_map_nil. eapply Forall_impl; [exact HF|].
      intros nick. cbn beta. intros Hn. apply person_lines_nil.
      by destruct (List.filter _ ms).
    + unfold nl. rewrite tag_events_join, <-E.
      rewrite !flat_map_app, unassigned_lines_events.
      cbn [flat_map].
      change (tag_events (heading "Action items, by person")) with ([] : list Ev).
      change (tag_events "<ol>") with [Open OL].
      change (tag_events "</ol>") with [Close OL].
      cbn [app]. f_equal. rewrite <-app_assoc. f_equal.
      clear E. induction (sorted_nicks att) as [|n l' IH]; [done|].
      cbn [flat_map]. by rewrite flat_map_app, person_lines_events, IH.
Qed.

End blocks.

Lemma filter_matches_nil nick ms :
  List.filter (nick_matches nick) ms = []
  ↔ ∀ m, m ∈ ms → itemtype m = ACTION → nick_RE nick (line m) = false.
Proof.
  induction ms as [|m0 ms0 IH]; cbn [List.filter].
  - split; [|done]. by intros _ m ?%elem_of_nil.
  - unfold nick_matches at 1.
    destruct (decide (itemtype m0 = ACTION)) as [Ht|Ht].
    + rewrite (bool_decide_eq_true_2 _ Ht). cbn [andb].
      destruct (nick_RE nick (line m0)) eqn:Er.
      * split; [done|]. intros H. exfalso.
        specialize (H m0 (list_elem_of_here _ _) Ht). congruence.
      * rewrite IH. split.
        -- intros H m [->|Hin]%elem_of_cons; auto.
        -- intros H m Hin. apply H. by right.
    + rewrite (bool_decide_eq_false_2 _ Ht). cbn [andb]. rewrite IH. split.
      * intros H m [->|Hin]%elem_of_cons; [done|auto].
      * intros H m Hin. apply H. by right.
Qed.

(** *** [pagetitle] *)




End block_facts.

(** ** The session over any number of lines *)

Module session_facts.

Import meeting meeting_facts.

(** *** [session_order] is a preorder, and the steps that respect it *)

Ltac order_split :=
  unfold session_order;
  split; [|split; [|split; [|split; [|split; [|split]]]]].

Ltac same_count := let n := fresh in let k := fresh in
  intros n k ->; by exists k.

Lemma order_refl M : session_order M M.
Proof. order_split; auto. same_count. Qed.

Lemma order_trans M1 M2 M3 :
  session_order M1 M2 → session_order M2 M3 → session_order M1 M3.
Proof.
  intros (Ho1&Ht1&Hb1&Ha1&Hn1&Hv1&Hk1) (Ho2&Ht2&Hb2&Ha2&Hn2&Hv2&Hk2).
  order_split.
  - intros Hn. rewrite <-(Ho1 Hn). apply Ho2. unfold no_owner in *.
    by rewrite (Ho1 Hn).
  - intros Hs. rewrite <-(Ht1 Hs). apply Ht2. by rewrite (Ht1 Hs).
  - congruence.
  - intros n k Hk. destruct (Ha1 n k Hk) as (k1&Hk1'&Hle1).
    destruct (Ha2 n k1 Hk1') as (k2&Hk2'&Hle2). exists k2. split; [done|lia].
  - intros Hn. rewrite <-Hb1. apply Hn2. rewrite Hb1. by apply Hn1.
  - auto.
  - auto.
Qed.

Lemma order_same M M' :
  owner M' = owner M → starttime M' = starttime M → botNick M' = botNick M →
  attendees M' = attendees M → _meetingIsOver M' = _meetingIsOver M →
  votes M' = votes M → publicVoters M' = publicVoters M →
  activeVote M' = activeVote M → currentVote M' = currentVote M →
  session_order M M'.
Proof.
  intros Ho Ht Hb Ha Hv Hvo Hp Hav Hc.
  unfold session_order, vote_books, vote_wf, no_owner.
  rewrite Ho, Ht, Hb, Ha, Hv, Hvo, Hp, Hav, Hc.
  order_split; auto. same_count.
Qed.

Lemma addnick_other nick n M :
  owner (addnick nick n M) = owner M
  ∧ starttime (addnick nick n M) = starttime M
  ∧ _meetingIsOver (addnick nick n M) = _meetingIsOver M
  ∧ votes (addnick nick n M) = votes M
  ∧ currentVote (addnick nick n M) = currentVote M.
Proof. unfold addnick. by destruct (negb _). Qed.

Lemma order_addnick nick c M : session_order M (addnick nick c M).
Proof.
  destruct (addnick_fields nick c M) as (_&Hb&_&Hav&Hp&_&_).
  destruct (addnick_other nick c M) as (Ho&Ht&Hv&Hvo&Hc).
  unfold session_order, vote_books, vote_wf, no_owner.
  rewrite Ho, Ht, Hb, Hv, Hvo, Hp, Hav, Hc.
  order_split; auto.
  - intros n k Hk. unfold addnick.
    destruct (String.eqb nick (botNick M)) eqn:E; simpl; [by exists k|].
    destruct (decide (nick = n)) as [->|Hne].
    + rewrite att_get_set_eq, Hk. simpl. eexists; split; [done|lia].
    + rewrite att_get_set_ne by done. by exists k.
  - intros Hn. unfold addnick.
    destruct (String.eqb nick (botNick M)) eqn:E; simpl; [done|].
    apply String.eqb_neq in E. by rewrite att_get_set_ne.
Qed.

Lemma order_save cfg realtime M :
  save_frame cfg → session_order M (save cfg realtime M).
Proof.
  intros Hs. destruct (Hs realtime M) as [-> _]. by apply order_same.
Qed.

Lemma order_owner o M : no_owner M → session_order M (set_owner o M).
Proof.
  intros Hn. unfold vote_books, vote_wf. order_split; simpl; auto; try done.
  same_count.
Qed.

Lemma order_starttime t M :
  starttime M = None → session_order M (set_starttime t M).
Proof.
  intros Hn. unfold vote_books, vote_wf. order_split; simpl; auto.
  - rewrite Hn. by intros [].
  - same_count.
Qed.

Lemma order_over M : session_order M (set_meetingIsOver true M).
Proof.
  unfold vote_books, vote_wf. order_split; simpl; auto. same_count.
Qed.

Ltac order_step :=
  first [ apply order_refl
        | apply order_addnick
        | apply order_over
        | apply order_same; reflexivity ].

Ltac guarded_order h :=
  intros nick line linenum time_ M M'; unfold h;
  destruct (isChair M nick) eqn:Hchair; simpl;
  [| intros [= <-]; apply order_refl ].

Lemma foldl_order {A} (f : Meeting → A → Meeting) (l : list A) M :
  (∀ M x, session_order M (f M x)) → session_order M (foldl f M l).
Proof.
  intros Hf. revert M. induction l as [|x l IH]; intros M; simpl.
  - apply order_refl.
  - eapply order_trans; [apply Hf | apply IH].
Qed.

Section Handlers.

Variable cfg : Config.
Variable clock : Time.
Hypothesis Hsave : save_frame cfg.

Lemma do_meetingtopic_order : handler_order do_meetingtopic.
Proof.
  guarded_order do_meetingtopic. destruct (_ || _); intros [= <-]; order_step.
Qed.

Lemma do_startmeeting_order : handler_order do_startmeeting.
Proof.
  intros nick line linenum time_ M M'. unfold do_startmeeting.
  set (M1 := match owner M with
             | None | Some "" => set_owner (Some nick) M | Some _ => M end).
  set (M2 := match starttime M1 with
             | None => set_starttime (Some time_) M1 | Some _ => M1 end).
  assert (session_order M M1) as H1.
  { subst M1. unfold no_owner.
    destruct (owner M) as [[|]|] eqn:E;
      [apply order_owner; unfold no_owner; auto | order_step
      | apply order_owner; unfold no_owner; auto]. }
  assert (session_order M1 M2) as H2.
  { subst M2. destruct (starttime M1) eqn:E; [order_step|].
    by apply order_starttime. }
  destruct (negb (String.eqb line "")).
  - intros H3%do_meetingtopic_order. eauto using order_trans.
  - intros [= <-]. eauto using order_trans.
Qed.

(** Closing a vote keeps the books: the proposal gets its entry in
    [votes], and it has one in [publicVoters] since the vote was open. *)
Lemma do_endvote_order : handler_order do_endvote.
Proof.
  guarded_order do_endvote.
  destruct (String.eqb (activeVote M) "") eqn:Eav; [intros [= <-]; order_step|].
  apply String.eqb_neq in Eav.
  rewrite outcome_spec. simpl.
  destruct (_ <=? _)%Z; simpl; intros [= <-];
    (order_split; simpl; auto; [same_count|]);
    intros (Hwf&Hb1&Hb2&Hb3); unfold vote_books, vote_wf; simpl;
    (split; [done|]); (split; [|done]);
    intros v [<-|[_ Hv]]%lookup_insert_is_Some; auto.
Qed.

(** Opening a vote starts the books of the proposal afresh. *)
Lemma do_vote_order : handler_order do_vote.
Proof.
  guarded_order do_vote.
  destruct (negb _); [intros [= <-]; order_step|].
  intros [= <-]. order_split; simpl; auto; [same_count|].
  intros (Hwf&Hb1&Hb2&Hb3). unfold vote_books, vote_wf. simpl.
  rewrite lookup_insert_eq. split; [by eexists|]. split; [|split; [|done]].
  - intros v Hv. apply lookup_insert_is_Some'. auto.
  - intros _ l n [= <-]. by intros ?%elem_of_nil.
Qed.

Lemma doCastVote_order nick line private M M' :
  doCastVote nick line private M = Some M' → session_order M M'.
Proof.
  unfold doCastVote.
  destruct (_ || _); [|intros [= <-]; order_step].
  destruct (String.eqb (activeVote M) "") eqn:Eav; simpl;
    [intros [= <-]; order_step|].
  apply String.eqb_neq in Eav.
  destruct private; simpl.
  - intros [= <-]. order_split; simpl; auto; [same_count|].
    intros (Hwf&Hb1&Hb2&Hb3). unfold vote_books, vote_wf. simpl.
    split; [done|]. split; [done|]. split; [|done].
    intros _ l n Hl Hn. apply lookup_insert_is_Some'. right. eauto.
  - destruct (publicVoters M !! activeVote M) as [l0|] eqn:El; [|done].
    simpl. intros [= <-]. order_split; simpl; auto; [same_count|].
    intros (Hwf&Hb1&Hb2&Hb3). unfold vote_books, vote_wf. simpl.
    rewrite lookup_insert_eq. split; [by eexists|]. split; [|split; [|done]].
    + intros v Hv. apply lookup_insert_is_Some'. auto.
    + intros _ l n [= <-] [Hn|Hn]%elem_of_app.
      * apply lookup_insert_is_Some'. right. eauto.
      * apply list_elem_of_singleton in Hn as ->.
        apply lookup_insert_is_Some'. by left.
Qed.

Lemma do_endmeeting_order : handler_order (do_endmeeting cfg clock).
Proof.
  guarded_order do_endmeeting.
  destruct (negb (String.eqb (activeVote M) "")).
  - destruct (do_endvote nick line linenum clock M) as [M1|] eqn:E; [|done].
    apply do_endvote_order in E. simpl. intros [= <-].
    eapply order_trans; [exact E|].
    eapply order_trans; [|by apply order_save].
    eapply order_trans; [|apply order_over]. order_step.
  - simpl. intros [= <-].
    eapply order_trans; [|by apply order_save].
    eapply order_trans; [|apply order_over]. order_step.
Qed.

Lemma do_abortmeeting_order : handler_order do_abortmeeting.
Proof. intros ??????. intros [= <-]. order_step. Qed.

Lemma do_replay_order : handler_order do_replay.
Proof. intros ??????. intros [= <-]. order_step. Qed.

Lemma do_topic_order : handler_order do_topic.
Proof. guarded_order do_topic. intros [= <-]. order_step. Qed.

Lemma do_subtopic_order : handler_order do_subtopic.
Proof. guarded_order do_subtopic. intros [= <-]. order_step. Qed.

Lemma do_save_order : handler_order (do_save cfg).
Proof.
  guarded_order do_save. intros [= <-].
  eapply order_trans; [|by apply order_save]. order_step.
Qed.

Lemma chair_item_order t : handler_order (chair_item t).
Proof. guarded_order chair_item. intros [= <-]. order_step. Qed.

Lemma do_chair_order : handler_order do_chair.
Proof.
  guarded_order do_chair. intros [= <-]. apply foldl_order.
  intros M' chair. case_bool_decide; [order_step|].
  eapply order_trans; [apply order_addnick | order_step].
Qed.

Lemma do_unchair_order : handler_order do_unchair.
Proof.
  guarded_order do_unchair. intros [= <-]. apply foldl_order.
  intros M' chair. case_bool_decide; order_step.
Qed.

Lemma do_undo_order : handler_order do_undo.
Proof.
  guarded_order do_undo. destruct (minutes M); intros [= <-]; order_step.
Qed.

Lemma do_restrictlogs_order : handler_order do_restrictlogs.
Proof. guarded_order do_restrictlogs. intros [= <-]. order_step. Qed.

Lemma do_lurk_order : handler_order do_lurk.
Proof. guarded_order do_lurk. intros [= <-]. order_step. Qed.

Lemma do_unlurk_order : handler_order do_unlurk.
Proof. guarded_order do_unlurk. intros [= <-]. order_step. Qed.

Lemma do_meetingname_order : handler_order do_meetingname.
Proof. guarded_order do_meetingname. intros [= <-]. order_step. Qed.

Lemma do_votesrequired_order : handler_order do_votesrequired.
Proof. guarded_order do_votesrequired. intros [= <-]. order_step. Qed.

Lemma voters_loop_order toks M : session_order M (voters_loop toks M).
Proof.
  revert M. induction toks as [|v toks IH]; intros M; simpl; [order_step|].
  case_bool_decide; [order_step|].
  case_bool_decide; [apply IH|].
  eapply order_trans; [apply order_addnick|].
  eapply order_trans; [|apply IH]. order_step.
Qed.

Lemma do_voters_order : handler_order do_voters.
Proof. guarded_order do_voters. intros [= <-]. apply voters_loop_order. Qed.

Lemma do_private_commands_order : handler_order do_private_commands.
Proof. intros ??????. intros [= <-]. order_step. Qed.

Lemma anyone_item_order t : handler_order (anyone_item t).
Proof. intros ??????. intros [= <-]. order_step. Qed.

Lemma do_nick_order : handler_order do_nick.
Proof.
  intros ??????. intros [= <-]. apply foldl_order. intros; apply order_addnick.
Qed.

Lemma do_link_order : handler_order do_link.
Proof. intros ??????. intros [= <-]. order_step. Qed.

Lemma do_commands_order : handler_order do_commands.
Proof. intros ??????. intros [= <-]. order_step. Qed.

Lemma handlers_order : Forall (λ kh, handler_order kh.2) (handlers cfg clock).
Proof.
  unfold handlers.
  repeat (apply Forall_cons; split;
    [first [ apply do_startmeeting_order | apply do_endmeeting_order
           | apply do_abortmeeting_order | apply do_replay_order
           | apply do_topic_order | apply do_subtopic_order
           | apply do_meetingtopic_order | apply do_save_order
           | apply chair_item_order | apply do_chair_order
           | apply do_unchair_order | apply do_undo_order
           | apply do_restrictlogs_order | apply do_lurk_order
           | apply do_unlurk_order | apply do_meetingname_order
           | apply do_vote_order | apply do_votesrequired_order
           | apply do_endvote_order | apply do_voters_order
           | apply do_private_commands_order | apply anyone_item_order
           | apply do_nick_order | apply do_link_order
           | apply do_commands_order ]|]).
  apply Forall_nil_2.
Qed.

Lemma dispatch_order command h :
  dispatch cfg clock command = Some h → handler_order h.
Proof.
  intros H%lookup_handler_In.
  pose proof handlers_order as Hall. rewrite Forall_forall in Hall.
  apply (Hall _ H).
Qed.

End Handlers.

(** *** What one handler does to the minutes and to the end flag *)

Lemma fmap_removelast {A B} (f : A → B) l :
  f <$> removelast l = removelast (f <$> l).
Proof.
  induction l as [|x l IH]; [done|]. destruct l as [|y l]; [done|].
  change (removelast (x :: y :: l)) with (x :: removelast (y :: l)).
  rewrite !fmap_cons, IH. done.
Qed.

Lemma step_created n ms ms1 ms' :
  minutes_step n ms ms1 → items.created <$> ms' = items.created <$> ms1 →
  minutes_step n ms ms'.
Proof. unfold minutes_step. intros H ->. exact H. Qed.

Lemma foldl_keeps {A B} (proj : Meeting → B) (f : Meeting → A → Meeting) l M :
  (∀ M x, proj (f M x) = proj M) → proj (foldl f M l) = proj M.
Proof.
  intros Hf. revert M. induction l as [|x l IH]; intros M; [done|].
  simpl. by rewrite IH, Hf.
Qed.

Lemma voters_loop_keeps {B} (proj : Meeting → B) toks M :
  (∀ M v, proj (set_voters v M) = proj M) →
  (∀ M n, proj (addnick n 0 M) = proj M) →
  proj (voters_loop toks M) = proj M.
Proof.
  intros Hv Ha. revert M. induction toks as [|v toks IH]; intros M; [done|].
  simpl. case_bool_decide; [apply Hv|]. case_bool_decide; [apply IH|].
  by rewrite IH, Hv, Ha.
Qed.

Lemma addnick_minutes n c M : minutes (addnick n c M) = minutes M.
Proof. by destruct (addnick_fields n c M) as (_&_&->&_). Qed.

Lemma addnick_over n c M : _meetingIsOver (addnick n c M) = _meetingIsOver M.
Proof. by destruct (addnick_other n c M) as (_&_&->&_). Qed.

Ltac effect_same := split; [left; reflexivity | left; reflexivity].

Ltac effect_item :=
  split; [right; right; eexists; split;
            [unfold additem; simpl; by rewrite fmap_app | done]
         | left; reflexivity].

Ltac guarded_effect h :=
  intros nick line linenum time_ M M'; unfold h;
  destruct (isChair M nick) eqn:Hchair; simpl;
  [| intros [= <-]; effect_same ].

Section Effects.

Variable cfg : Config.
Variable clock : Time.
Hypothesis Hsave : save_frame cfg.

Lemma save_created realtime M :
  items.created <$> minutes (save cfg realtime M) = items.created <$> minutes M.
Proof. by destruct (Hsave realtime M) as [_ ->]. Qed.

Lemma save_over realtime M :
  _meetingIsOver (save cfg realtime M) = _meetingIsOver M.
Proof. by destruct (Hsave realtime M) as [-> _]. Qed.

Lemma do_meetingtopic_effect name : handler_effect name do_meetingtopic.
Proof.
  guarded_effect do_meetingtopic. destruct (_ || _); intros [= <-]; effect_same.
Qed.

Lemma do_startmeeting_effect name : handler_effect name do_startmeeting.
Proof.
  intros nick line linenum time_ M M'. unfold do_startmeeting.
  set (M1 := match owner M with
             | None | Some "" => set_owner (Some nick) M | Some _ => M end).
  set (M2 := match starttime M1 with
             | None => set_starttime (Some time_) M1 | Some _ => M1 end).
  assert (minutes M2 = minutes M ∧ _meetingIsOver M2 = _meetingIsOver M)
    as [Hm Hv].
  { subst M2 M1. by destruct (owner M) as [[|]|], (starttime _). }
  destruct (negb (String.eqb line "")).
  - intros [H1 H2]%(do_meetingtopic_effect "meetingtopic").
    rewrite Hm, Hv in *. split; [done|]. left.
    by destruct H2 as [|[? _]].
  - intros [= <-]. rewrite Hm, Hv. effect_same.
Qed.

Lemma do_endvote_effect name : handler_effect name do_endvote.
Proof.
  guarded_effect do_endvote.
  destruct (String.eqb (activeVote M) ""); [intros [= <-]; effect_same|].
  rewrite outcome_spec. simpl.
  destruct (_ <=? _)%Z; simpl; intros [= <-]; effect_item.
Qed.

Lemma do_endmeeting_effect : handler_effect "endmeeting" (do_endmeeting cfg clock).
Proof.
  guarded_effect do_endmeeting.
  assert (∀ M1, minutes_step linenum (minutes M) (minutes M1) →
            minutes_step linenum (minutes M)
              (minutes (endmeeting cfg
                          (set_meetingIsOver true
                             (set_endtime (Some time_) M1))))
            ∧ _meetingIsOver
                (endmeeting cfg
                   (set_meetingIsOver true (set_endtime (Some time_) M1)))
              = true) as Hend.
  { intros M1 H1. unfold endmeeting. rewrite save_over. split; [|done].
    eapply step_created; [exact H1|]. by rewrite save_created. }
  destruct (negb (String.eqb (activeVote M) "")).
  - destruct (do_endvote nick line linenum clock M) as [M1|] eqn:E; [|done].
    apply (do_endvote_effect "endvote") in E as [E _].
    simpl. intros [= <-]. destruct (Hend M1 E). auto.
  - simpl. intros [= <-]. destruct (Hend M) as [? ?]; [by left|auto].
Qed.

Lemma do_abortmeeting_effect name : handler_effect name do_abortmeeting.
Proof. intros ??????. intros [= <-]. effect_same. Qed.

Lemma do_replay_effect name : handler_effect name do_replay.
Proof. intros ??????. intros [= <-]. effect_same. Qed.

Lemma do_topic_effect name : handler_effect name do_topic.
Proof. guarded_effect do_topic. intros [= <-]. effect_item. Qed.

Lemma do_subtopic_effect name : handler_effect name do_subtopic.
Proof. guarded_effect do_subtopic. intros [= <-]. effect_item. Qed.

Lemma do_save_effect name : handler_effect name (do_save cfg).
Proof.
  guarded_effect do_save. intros [= <-]. rewrite save_over. split; [|by left].
  left. by rewrite save_created.
Qed.

Lemma chair_item_effect t name : handler_effect name (chair_item t).
Proof. guarded_effect chair_item. intros [= <-]. effect_item. Qed.

Lemma do_chair_effect name : handler_effect name do_chair.
Proof.
  guarded_effect do_chair. intros [= <-].
  rewrite (foldl_keeps minutes), (foldl_keeps _meetingIsOver); [effect_same|..];
    intros M0 x; case_bool_decide; simpl;
    by rewrite ?addnick_minutes, ?addnick_over.
Qed.

Lemma do_unchair_effect name : handler_effect name do_unchair.
Proof.
  guarded_effect do_unchair. intros [= <-].
  rewrite (foldl_keeps minutes), (foldl_keeps _meetingIsOver); [effect_same|..];
    intros M0 x; by case_bool_decide.
Qed.

Lemma do_undo_effect name : handler_effect name do_undo.
Proof.
  guarded_effect do_undo. destruct (minutes M) as [|m ms] eqn:E.
  - intros [= <-]. split; [left; by rewrite E | by left].
  - intros [= <-]. split; [|by left]. right. left.
    exact (fmap_removelast items.created (m :: ms)).
Qed.

Lemma do_restrictlogs_effect name : handler_effect name do_restrictlogs.
Proof. guarded_effect do_restrictlogs. intros [= <-]. effect_same. Qed.

Lemma do_lurk_effect name : handler_effect name do_lurk.
Proof. guarded_effect do_lurk. intros [= <-]. effect_same. Qed.

Lemma do_unlurk_effect name : handler_effect name do_unlurk.
Proof. guarded_effect do_unlurk. intros [= <-]. effect_same. Qed.

Lemma do_meetingname_effect name : handler_effect name do_meetingname.
Proof. guarded_effect do_meetingname. intros [= <-]. effect_same. Qed.

Lemma do_vote_effect name : handler_effect name do_vote.
Proof.
  guarded_effect do_vote. destruct (negb _); intros [= <-]; effect_same.
Qed.

Lemma do_votesrequired_effect name : handler_effect name do_votesrequired.
Proof. guarded_effect do_votesrequired. intros [= <-]. effect_same. Qed.

Lemma do_voters_effect name : handler_effect name do_voters.
Proof.
  guarded_effect do_voters. intros [= <-].
  rewrite (voters_loop_keeps minutes), (voters_loop_keeps _meetingIsOver);
    [effect_same|..]; intros; by rewrite ?addnick_minutes, ?addnick_over.
Qed.

Lemma do_private_commands_effect name : handler_effect name do_private_commands.
Proof. intros ??????. intros [= <-]. effect_same. Qed.

Lemma anyone_item_effect t name : handler_effect name (anyone_item t).
Proof. intros ??????. intros [= <-]. effect_item. Qed.

Lemma do_nick_effect name : handler_effect name do_nick.
Proof.
  intros ??????. intros [= <-].
  rewrite (foldl_keeps minutes), (foldl_keeps _meetingIsOver); [effect_same|..];
    intros; by rewrite ?addnick_minutes, ?addnick_over.
Qed.

Lemma linenum_Link nick line linenum time_ :
  items.linenum (items.Link nick line linenum time_) = linenum.
Proof. unfold items.Link. by destruct (split_first_space _). Qed.

Lemma do_link_effect name : handler_effect name do_link.
Proof.
  intros ??????. intros [= <-]. split; [|by left]. right. right.
  eexists. split; [simpl; by rewrite fmap_app|]. apply linenum_Link.
Qed.

Lemma do_commands_effect name : handler_effect name do_commands.
Proof. intros ??????. intros [= <-]. effect_same. Qed.

Lemma handlers_effect :
  Forall (λ kh, handler_effect kh.1 kh.2) (handlers cfg clock).
Proof.
  unfold handlers.
  repeat (apply Forall_cons; split;
    [first [ apply do_startmeeting_effect | apply do_endmeeting_effect
           | apply do_abortmeeting_effect | apply do_replay_effect
           | apply do_topic_effect | apply do_subtopic_effect
           | apply do_meetingtopic_effect | apply do_save_effect
           | apply chair_item_effect | apply do_chair_effect
           | apply do_unchair_effect | apply do_undo_effect
           | apply do_restrictlogs_effect | apply do_lurk_effect
           | apply do_unlurk_effect | apply do_meetingname_effect
           | apply do_vote_effect | apply do_votesrequired_effect
           | apply do_endvote_effect | apply do_voters_effect
           | apply do_private_commands_effect | apply anyone_item_effect
           | apply do_nick_effect | apply do_link_effect
           | apply do_commands_effect ]|]).
  apply Forall_nil_2.
Qed.

Lemma dispatch_effect command h :
  dispatch cfg clock command = Some h → handler_effect command h.
Proof.
  intros H%lookup_handler_In.
  pose proof handlers_effect as Hall. rewrite Forall_forall in Hall.
  apply (Hall _ H).
Qed.

End Effects.

(** *** One line, step by step *)

Lemma set_votebooks_same M :
  set_publicVoters (publicVoters M) (set_currentVote (currentVote M) M) = M.
Proof. by destruct M. Qed.

Lemma set_publicVoters_same M : set_publicVoters (publicVoters M) M = M.
Proof. by destruct M. Qed.

Section Lines.

Variable cfg : Config.
Variable clock : Time.
Hypothesis Hsave : save_frame cfg.

Lemma addrawline_eq nick line time_ M :
  addrawline clock nick line time_ M
  = (S (length (lines M)),
     set_lines (lines M ++ [logline nick line (default clock time_)])
       (addnick nick 1 M)).
Proof.
  unfold addrawline. destruct (addnick_fields nick 1 M) as (->&_).
  cbn [lines set_lines]. rewrite length_app. simpl. f_equal. lia.
Qed.

Lemma isChair_seen nick line isop time_ M n :
  isChair (seen clock nick line isop time_ M) n = isChair (set_isop isop M) n.
Proof.
  unfold seen, isChair. simpl.
  destruct (addnick_fields nick 1 M) as (_&_&_&_&_&->&_).
  by destruct (addnick_other nick 1 M) as (->&_).
Qed.

Lemma addline_unfold nick line isop time_ M :
  addline cfg clock nick line isop time_ M =
  let M2 := seen clock nick line isop time_ M in
  let n := S (length (lines M)) in
  let t := default clock time_ in
  match command_RE cfg line with
  | Some (command, arg) =>
      match dispatch cfg clock (lower command) with
      | Some h => h nick arg n t M2
      | None => Some M2
      end ≫= after_command cfg nick arg
  | None =>
      (if bool_decide (before_dslash line ∈ UrlProtocols cfg)
       then do_link nick line n t M2 else Some M2)
        ≫= after_command cfg nick line
  end.
Proof.
  unfold addline. rewrite addrawline_eq. cbn zeta. cbn [from_option default].
  destruct (command_RE cfg line) as [[c arg]|]; reflexivity.
Qed.

(** What follows the handler changes the marks on the items and, when the
    text is a ballot, the books of the open vote; nothing else. *)
Lemma after_command_char nick arg M M' :
  after_command cfg nick arg M = Some M' →
  ∃ ms cv pv,
    M' = set_publicVoters pv (set_currentVote cv (set_minutes ms M))
    ∧ items.created <$> ms = items.created <$> minutes M.
Proof.
  unfold after_command. destruct (Hsave true M) as [Hs Hc].
  set (M1 := save cfg true M) in *.
  assert (∀ X, X = M1 ∨ (∃ cv, X = set_currentVote cv M1)
               ∨ (∃ cv pv, X = set_publicVoters pv (set_currentVote cv M1)) →
            ∃ ms cv pv,
              X = set_publicVoters pv (set_currentVote cv (set_minutes ms M))
              ∧ items.created <$> ms = items.created <$> minutes M) as Hform.
  { intros X [->|[[cv ->]|[cv [pv ->]]]]; rewrite Hs.
    - exists (minutes M1), (currentVote M), (publicVoters M). by split.
    - exists (minutes M1), cv, (publicVoters M). by split.
    - exists (minutes M1), cv, pv. by split. }
  destruct (ballot_RE arg); [|intros [= <-]; apply Hform; auto].
  unfold doCastVote.
  destruct (_ || _); [|intros [= <-]; apply Hform; auto].
  destruct (negb _); [|intros [= <-]; apply Hform; auto].
  destruct (negb false); simpl.
  - destruct (publicVoters M1 !! activeVote M1); [|done]. simpl.
    intros [= <-]. apply Hform. right. right. by eexists _, _.
  - intros [= <-]. apply Hform. right. left. by eexists.
Qed.

Lemma after_command_order nick arg M M' :
  after_command cfg nick arg M = Some M' → session_order M M'.
Proof.
  unfold after_command. pose proof (order_save cfg true M Hsave) as H1.
  destruct (ballot_RE arg); [|intros [= <-]; exact H1].
  intros H2%doCastVote_order. eauto using order_trans.
Qed.

Lemma order_seen nick line isop time_ M :
  session_order M (seen clock nick line isop time_ M).
Proof.
  unfold seen. eapply order_trans; [apply (order_addnick nick 1)|].
  by apply order_same.
Qed.

Lemma addline_order nick line isop time_ M M' :
  addline cfg clock nick line isop time_ M = Some M' → session_order M M'.
Proof.
  rewrite addline_unfold. cbn zeta.
  pose proof (order_seen nick line isop time_ M) as H0.
  set (M2 := seen clock nick line isop time_ M) in *.
  assert (∀ (o : option Meeting) l,
            (∀ M3, o = Some M3 → session_order M2 M3) →
            o ≫= after_command cfg nick l = Some M' → session_order M M')
    as Hgo.
  { intros [M3|] l Ho; [|done]. simpl. intros H3%after_command_order.
    eapply order_trans; [exact H0|].
    eapply order_trans; [|exact H3]. by apply Ho. }
  destruct (command_RE cfg line) as [[c arg]|].
  - apply Hgo. destruct (dispatch cfg clock (lower c)) as [h|] eqn:Hd.
    + intros M3. by apply (dispatch_order _ _ Hsave _ _ Hd).
    + intros M3 [= <-]. apply order_refl.
  - apply Hgo. case_bool_decide.
    + intros M3. apply do_link_order.
    + intros M3 [= <-]. apply order_refl.
Qed.

Lemma seen_fields nick line isop time_ M :
  minutes (seen clock nick line isop time_ M) = minutes M
  ∧ _meetingIsOver (seen clock nick line isop time_ M) = _meetingIsOver M
  ∧ lines (seen clock nick line isop time_ M)
    = lines M ++ [logline nick line (default clock time_)].
Proof. unfold seen. simpl. by rewrite addnick_minutes, addnick_over. Qed.

(** One line changes the minutes by one item at most, and only a chair's
    [endmeeting] command sets the flag. *)
Lemma addline_effect nick line isop time_ M M' :
  addline cfg clock nick line isop time_ M = Some M' →
  minutes_step (S (length (lines M))) (minutes M) (minutes M')
  ∧ (_meetingIsOver M' = _meetingIsOver M
     ∨ (∃ c arg, command_RE cfg line = Some (c, arg)
                 ∧ lower c = "endmeeting")
       ∧ isChair (set_isop isop M) nick = true
       ∧ _meetingIsOver M' = true).
Proof.
  rewrite addline_unfold. cbn zeta.
  destruct (seen_fields nick line isop time_ M) as (Hm&Hv&_).
  set (M2 := seen clock nick line isop time_ M) in *.
  set (n := S (length (lines M))).
  assert (∀ M3, minutes_step n (minutes M2) (minutes M3) →
            ∀ l, after_command cfg nick l M3 = Some M' →
                 minutes_step n (minutes M) (minutes M')
                 ∧ _meetingIsOver M' = _meetingIsOver M3) as Hafter.
  { intros M3 H3 l (ms&cv&pv&->&Hc)%after_command_char. simpl. split; [|done].
    rewrite <-Hm. by eapply step_created. }
  destruct (command_RE cfg line) as [[c arg]|].
  - destruct (dispatch cfg clock (lower c)) as [h|] eqn:Hd; simpl.
    + destruct (h nick arg n (default clock time_) M2) as [M3|] eqn:E; [|done].
      simpl. intros Hres.
      apply (dispatch_effect _ _ Hsave _ _ Hd) in E as [E1 E2].
      destruct (Hafter M3 E1 _ Hres) as [? Hv']. split; [done|].
      rewrite Hv'. destruct E2 as [->|(Hn&Hch&Ho)]; [left; congruence|].
      right. split; [by eexists _, _|]. split; [|done].
      by rewrite <-(isChair_seen nick line isop time_ M).
    + intros Hres.
      destruct (Hafter M2 (or_introl eq_refl) _ Hres) as [? ->]. auto.
  - case_bool_decide.
    + destruct (do_link nick line n (default clock time_) M2) as [M3|] eqn:E;
        [|done].
      simpl. intros Hres. apply (do_link_effect "link") in E as [E1 E2].
      destruct (Hafter M3 E1 _ Hres) as [? ->]. split; [done|]. left.
      destruct E2 as [->|[? _]]; done.
    + simpl. intros Hres.
      destruct (Hafter M2 (or_introl eq_refl) _ Hres) as [? ->]. auto.
Qed.

End Lines.

(** *** Over a sequence of lines *)




Section Sequences.

Variable cfg : Config.
Variable clock : Time.
Hypothesis Hsave : save_frame cfg.




End Sequences.

Lemma vote_books_init channel owner botIsOp botNick oldtopic network :
  vote_books (init channel owner botIsOp botNick oldtopic network).
Proof.
  split; [apply vote_wf_init|]. simpl. split; [|done].
  intros v. rewrite lookup_empty. by intros [].
Qed.


(** *** The commands one by one *)







Section Commands.

Variable cfg : Config.
Variable clock : Time.
Hypothesis Hsave : save_frame cfg.

Lemma addline_command nick line isop time_ M c arg h :
  command_RE cfg line = Some (c, arg) →
  dispatch cfg clock (lower c) = Some h →
  addline cfg clock nick line isop time_ M =
  h nick arg (S (length (lines M))) (default clock time_)
    (seen clock nick line isop time_ M) ≫= after_command cfg nick arg.
Proof. intros Hc Hd. rewrite addline_unfold. cbn zeta. by rewrite Hc, Hd. Qed.

Lemma after_command_eq nick arg M :
  after_command cfg nick arg M =
  let M1 := set_minutes (minutes (save cfg true M)) M in
  if ballot_RE arg then doCastVote nick arg false M1 else Some M1.
Proof. unfold after_command. cbn zeta. by destruct (Hsave true M) as [<- _]. Qed.

Lemma seen_votes nick line isop time_ M :
  let M2 := seen clock nick line isop time_ M in
  voters M2 = voters M ∧ activeVote M2 = activeVote M
  ∧ currentVote M2 = currentVote M ∧ publicVoters M2 = publicVoters M
  ∧ votes M2 = votes M ∧ votesrequired M2 = votesrequired M
  ∧ currentVoteStartLine M2 = currentVoteStartLine M.
Proof. unfold seen, addnick. by destruct (negb _). Qed.

Lemma addline_plain nick line isop time_ M :
  command_RE cfg line = None →
  addline cfg clock nick line isop time_ M =
  (if bool_decide (before_dslash line ∈ UrlProtocols cfg)
   then do_link nick line (S (length (lines M))) (default clock time_)
          (seen clock nick line isop time_ M)
   else Some (seen clock nick line isop time_ M))
    ≫= after_command cfg nick line.
Proof. intros Hc. rewrite addline_unfold. cbn zeta. by rewrite Hc. Qed.

End Commands.

End session_facts.

(** ** The life of a session in the plugin's cache *)

Module lifecycle_facts.

Import meeting meeting_facts session_facts plugin.

Section Plugin.

Variable cfg : Config.
Variable clock : Time.
Hypothesis Hsave : save_frame cfg.

(** What [forward] does with a session that is not over. *)
Lemma forward_running irc msg payload M :
  vote_wf M → _meetingIsOver M = false →
  ∃ M1, forward cfg clock irc msg payload (Some M) (Some M)
        = Some (if _meetingIsOver M1 then None else Some M1)
        ∧ lines M1 = lines M ++ [logline (msg_nick msg) payload clock]
        ∧ session_order M M1
        ∧ (_meetingIsOver M1 = true →
           meeting.isChair (set_isop (chan_isOp irc (msg_nick msg)) M)
             (msg_nick msg) = true).
Proof.
  intros Hwf Hover. unfold forward. rewrite Hover.
  destruct (contains "hellomouse/bin" (msg_host msg)).
  - rewrite addrawline_eq. cbn [snd mbind option_bind].
    eexists. split; [done|]. cbn [lines set_lines]. split; [done|].
    split.
    + eapply order_trans; [apply (order_addnick (msg_nick msg) 1)|].
      by apply order_same.
    + cbn [_meetingIsOver set_lines]. rewrite addnick_over. congruence.
  - destruct (addline_spec cfg clock Hsave (msg_nick msg) payload
                (chan_isOp irc (msg_nick msg)) None M Hwf) as (M1&E&Hl&_).
    rewrite E. cbn [mbind option_bind]. exists M1. split; [done|].
    split; [done|]. split; [by eapply addline_order|].
    intros Hv. apply (addline_effect cfg clock Hsave) in E as [_ [E|(_&?&_)]];
      [congruence|done].
Qed.

End Plugin.

(** *** A realtime update *)


End lifecycle_facts.

(** ** The agenda of the template writer *)

Module agenda_facts.

Import items writers.

Section agenda.

Variable escape : string → string.
Variable basename : string.

Lemma ungroup_app gs gs' : ungroup (gs ++ gs') = ungroup gs ++ ungroup gs'.
Proof. apply flat_map_app. Qed.

(** The loop from any state: the group under construction is dropped when
    the next item is a topic and the group has neither a nick nor items. *)
Lemma topic_loop ms out g :
  Forall (λ m, itemtype m = TOPIC → escape (nick m) ≠ "") ms →
  let '(out', g') := foldl (topic_step escape basename) (out, g) ms in
  ungroup (out' ++ [g']) =
  ungroup out
  ++ (match ms with
      | m :: _ => if bool_decide (itemtype m = TOPIC) && negb (kept g)
                  then [] else g.1 :: g.2
      | [] => g.1 :: g.2
      end)
  ++ (template escape basename <$> ms).
Proof.
  revert out g. induction ms as [|m ms IH]; intros out g Hn.
  - simpl. rewrite ungroup_app. simpl. by rewrite !app_nil_r.
  - apply Forall_cons in Hn as [Hm Hn]. cbn [foldl topic_step].
    case_bool_decide as Ht.
    + specialize (IH (if kept g then out ++ [g] else out)
                     (template escape basename m, []) Hn).
      destruct (foldl _ _ ms) as [out' g']. rewrite IH.
      assert (kept (template escape basename m, []) = true) as Hk.
      { unfold kept. simpl. apply Hm in Ht.
        destruct (String.eqb_spec (escape (nick m)) ""); [done|done]. }
      rewrite Hk. cbn [fst snd negb].
      replace (match ms with
               | [] => [template escape basename m]
               | m0 :: _ =>
                   if bool_decide (itemtype m0 = TOPIC) && false
                   then [] else [template escape basename m]
               end) with [template escape basename m]
        by (destruct ms; [done|by rewrite andb_false_r]).
      destruct (kept g); cbn [negb andb fmap list_fmap app].
      * rewrite ungroup_app. simpl. by rewrite app_nil_r, <-!app_assoc.
      * done.
    + specialize (IH out (g.1, g.2 ++ [template escape basename m]) Hn).
      destruct (foldl _ _ ms) as [out' g']. rewrite IH.
      assert (kept (g.1, g.2 ++ [template escape basename m]) = true) as Hk.
      { unfold kept. cbn [fst snd]. destruct (g.2); simpl; apply orb_true_r. }
      rewrite Hk. cbn [negb andb fst snd].
      replace (match ms with
               | [] => g.1 :: g.2 ++ [template escape basename m]
               | m0 :: _ =>
                   if bool_decide (itemtype m0 = TOPIC) && false
                   then [] else g.1 :: g.2 ++ [template escape basename m]
               end) with (g.1 :: g.2 ++ [template escape basename m])
        by (destruct ms; [done|by rewrite andb_false_r]).
      cbn [fmap list_fmap]. f_equal. simpl. by rewrite <-app_assoc.
Qed.

Lemma template_topic m :
  t_itemtype (template escape basename m) = "TOPIC" ↔ itemtype m = TOPIC.
Proof. unfold template. simpl. by destruct (itemtype m). Qed.

Lemma topic_loop_ok ms out g :
  Forall group_ok out → group_ok g →
  let '(out', g') := foldl (topic_step escape basename) (out, g) ms in
  Forall group_ok (out' ++ [g']).
Proof.
  revert out g. induction ms as [|m ms IH]; intros out g Ho Hg.
  - simpl. apply Forall_app. split; [done|]. by constructor.
  - cbn [foldl topic_step]. case_bool_decide as Ht.
    + apply IH.
      * destruct (kept g); [|done]. apply Forall_app. split; [done|].
        by constructor.
      * split; [by apply template_topic|constructor].
    + apply IH; [done|]. destruct Hg as [H1 H2]. split; [done|].
      apply Forall_app. split; [done|]. constructor; [|constructor].
      by rewrite template_topic.
Qed.

End agenda.

End agenda_facts.

(** ** The name of a meeting *)

Module name_facts.

Import PyStr.

Lemma lower_char_idem c : lower_char (lower_char c) = lower_char c.
Proof. by destruct c as [[] [] [] [] [] [] [] []]. Qed.

Lemma chars_app a b :
  list_ascii_of_string (a +:+ b)
  = list_ascii_of_string a ++ list_ascii_of_string b.
Proof. induction a as [|c a IH]; simpl; [done|by rewrite IH]. Qed.

Lemma words_aux_chars (P : ascii → Prop) cur s :
  Forall P (list_ascii_of_string cur) →
  Forall (λ c, is_space c = false → P c) (list_ascii_of_string s) →
  Forall (λ w, Forall P (list_ascii_of_string w)) (words_aux cur s).
Proof.
  revert cur. induction s as [|c s IH]; intros cur Hcur Hs.
  - simpl. destruct (String.eqb cur ""); by repeat constructor.
  - simpl in Hs. apply Forall_cons in Hs as [Hc Hs]. simpl.
    destruct (is_space c) eqn:E.
    + destruct (String.eqb cur ""); [|constructor; [done|]];
        by apply IH; [constructor|].
    + apply IH; [|done]. rewrite chars_app. apply Forall_app. split; [done|].
      simpl. constructor; [by apply Hc|constructor].
Qed.

Lemma join_chars (P : ascii → Prop) sep l :
  Forall P (list_ascii_of_string sep) →
  Forall (λ w, Forall P (list_ascii_of_string w)) l →
  Forall P (list_ascii_of_string (join sep l)).
Proof.
  intros Hsep. induction 1 as [|w l Hw Hl IH]; [constructor|].
  cbn [join]. destruct l as [|w' l]; [done|].
  rewrite !chars_app. repeat (apply Forall_app; split); auto.
Qed.

(** A name that [do_meetingname] makes has no white space and no capital
    letter. *)
Lemma meetingname_chars line :
  Forall (λ c, is_space c = false ∧ lower_char c = c)
    (list_ascii_of_string (join "_" (split_ws (lower line)))).
Proof.
  apply join_chars; [by repeat constructor|].
  apply words_aux_chars; [constructor|].
  induction line as [|c line IH]; simpl; constructor; [|done].
  intros Hc. split; [done|apply lower_char_idem].
Qed.

End name_facts.

(** ** The replay of a log *)

Module replay_facts.

Import meeting meeting_facts plugin session_facts.

Section Replay.

Variable cfg : Config.
Variable clock : Time.
Variable logline_RE loglineAction_RE : string → option (string * string * string).
Variable parse_time : string → option Time.
Hypothesis Hsave : save_frame cfg.



End Replay.

End replay_facts.

(** * The claims about the session *)

Module session_claims.

Import meeting meeting_facts examples.



(** The four calls on a new session, evaluated: the numbers are 1 to 4, one
    item comes from the command and one from the link. *)
Example addlines_run :
  (λ r, (r.1, length (lines r.2), items.itemtype <$> minutes r.2))
    <$> addlines cfg0 t0 calls0 M0
  = Some ([1; 2; 3; 4], 4, [items.TOPIC; items.LINK]).
Proof. vm_compute. reflexivity. Qed.

(** C3: a chair-only handler called by a nick that is not the owner, not a
    chair and not an operator returns the session it was given. *)
Theorem C3_chair_only_noop cfg clock name (Hname : name ∈ chair_only) :
  ∃ h, dispatch cfg clock name = Some h
       ∧ ∀ nick line linenum time_ M,
           owner M ≠ Some nick → nick ∉ chairs M → isop M = false →
           h nick line linenum time_ M = Some M.
Proof.
  assert (∀ M nick, owner M ≠ Some nick → nick ∉ chairs M → isop M = false →
                    isChair M nick = false) as Hno.
  { intros M nick Ho Hc Hop. unfold isChair.
    by rewrite !bool_decide_eq_false_2, Hop by done. }
  unfold chair_only in Hname.
  repeat (apply elem_of_cons in Hname as [->|Hname]);
    [..|by apply elem_of_nil in Hname];
    (eexists; split; [reflexivity|]);
    intros nick line linenum time_ M Ho Hc Hop;
    cbv beta delta [do_topic do_subtopic do_meetingtopic do_save do_done
                    do_agreed do_accepted do_rejected chair_item do_chair
                    do_unchair do_undo do_restrictlogs do_lurk do_unlurk
                    do_meetingname do_vote do_votesrequired do_endvote
                    do_voters];
    by rewrite (Hno M nick Ho Hc Hop).
Qed.

Lemma C3_witness :
  ∃ h, dispatch cfg0 t0 "undo" = Some h
       ∧ ∀ nick line linenum time_ M,
           owner M ≠ Some nick → nick ∉ chairs M → isop M = false →
           h nick line linenum time_ M = Some M.
Proof.
  apply (C3_chair_only_noop cfg0 t0 "undo").
  apply (bool_decide_unpack _). vm_compute. exact I.
Defined.

(** C4: a ballot cast while no vote is open changes nothing.  While a vote
    is open, a ballot of an eligible nick is stored under the nick, so a
    second ballot of the nick replaces the first and the number of stored
    ballots stays; every cast that is not private appends the nick to the
    list of public voters of the proposal, so two casts leave it there
    twice. *)
Theorem C4_doCastVote nick line private M :
  (activeVote M = "" → doCastVote nick line private M = Some M)
  ∧ (activeVote M ≠ "" → voters M = ∅ ∨ nick ∈ voters M →
     ∀ l, publicVoters M !! activeVote M = Some l →
     ∃ M', doCastVote nick line private M = Some M'
           ∧ currentVote M' = <[nick := line]> (currentVote M)
           ∧ publicVoters M' =
               (if private then publicVoters M
                else <[activeVote M := l ++ [nick]]> (publicVoters M))
           ∧ activeVote M' = activeVote M ∧ voters M' = voters M
           ∧ minutes M' = minutes M ∧ lines M' = lines M
           ∧ ∀ line2,
               ∃ M'', doCastVote nick line2 private M' = Some M''
                      ∧ currentVote M'' = <[nick := line2]> (currentVote M)
                      ∧ size (currentVote M'') = size (currentVote M')
                      ∧ publicVoters M'' !! activeVote M =
                          Some (if private then l else l ++ [nick; nick])).
Proof.
  split.
  - intros Hno. unfold doCastVote. rewrite Hno. simpl. by destruct (_ || _).
  - intros Hopen Hel l Hl.
    assert (bool_decide (voters M = ∅) || bool_decide (nick ∈ voters M) = true)
      as Hel'.
    { apply orb_true_iff. destruct Hel; [left | right]; by apply bool_decide_eq_true. }
    assert (negb (String.eqb (activeVote M) "") = true) as Hopen'.
    { apply negb_true_iff. by apply String.eqb_neq. }
    unfold doCastVote at 1. rewrite Hel', Hopen'.
    destruct private; simpl.
    + eexists; split; [done|]. repeat split; [done..|].
      intros line2. unfold doCastVote. simpl. rewrite Hel', Hopen'. simpl.
      eexists; split; [done|]. simpl.
      split; [apply insert_insert_eq|]. split; [|done].
      by rewrite map_size_insert, lookup_insert_eq.
    + rewrite Hl. simpl. eexists; split; [done|]. repeat split; [done..|].
      intros line2. unfold doCastVote. simpl. rewrite Hel', Hopen'. simpl.
      rewrite lookup_insert_eq. simpl.
      eexists; split; [done|]. simpl.
      split; [apply insert_insert_eq|]. split.
      * by rewrite map_size_insert, lookup_insert_eq.
      * rewrite lookup_insert_eq. by rewrite <-(assoc_L (++)).
Qed.

Lemma C4_witness :
  ∃ M', doCastVote "bob" "+1" false (Mvote 0 []) = Some M'
        ∧ currentVote M' = <["bob" := "+1"]> (currentVote (Mvote 0 []))
        ∧ publicVoters M' =
            <[activeVote (Mvote 0 []) := [] ++ ["bob"]]> (publicVoters (Mvote 0 []))
        ∧ activeVote M' = activeVote (Mvote 0 []) ∧ voters M' = voters (Mvote 0 [])
        ∧ minutes M' = minutes (Mvote 0 []) ∧ lines M' = lines (Mvote 0 [])
        ∧ ∀ line2,
            ∃ M'', doCastVote "bob" line2 false M' = Some M''
                   ∧ currentVote M'' = <["bob" := line2]> (currentVote (Mvote 0 []))
                   ∧ size (currentVote M'') = size (currentVote M')
                   ∧ publicVoters M'' !! activeVote (Mvote 0 []) =
                       Some ([] ++ ["bob"; "bob"]).
Proof.
  apply (proj2 (C4_doCastVote "bob" "+1" false (Mvote 0 []))).
  - vm_compute. discriminate.
  - left. reflexivity.
  - vm_compute. reflexivity.
Defined.

(** Two ballots of one nick in one round, evaluated: one stored ballot, the
    second one, and the nick twice among the public voters. *)
Example doCastVote_twice :
  (λ M, (map_to_list (currentVote M), publicVoters M !! "Adopt the plan"))
    <$> (doCastVote "bob" "+1" false (Mvote 0 []) ≫= doCastVote "bob" "-1" false)
  = Some ([("bob", "-1")], Some ["bob"; "bob"]).
Proof. vm_compute. reflexivity. Qed.

(** C2 as the specification states it fails on its last example: with no
    ballot and a required margin of 0 the first test of the chain holds, and
    the recorded outcome is "Carried", not "Deadlock". *)
Lemma C2_counterexample :
  tally For (currentVote (Mvote 0 [])) = 0
  ∧ tally Against (currentVote (Mvote 0 [])) = 0
  ∧ votesrequired (Mvote 0 []) = 0%Z
  ∧ (λ M', items.line <$> last (minutes M'))
      <$> do_endvote "alice" "" 2 t0 (Mvote 0 [])
    = Some (Some "Adopt the plan (Carried)")
  ∧ fst <$> outcome 0 0 0 ≠ Some "Deadlock".
Proof. repeat split; try (vm_compute; reflexivity). vm_compute. discriminate. Qed.

(** C2, amended: ending an open vote as a chair records the outcome decided
    by the chain in its order: "Carried" when for minus against reaches the
    required margin, "Denied" otherwise; the third branch is never reached.
    With a margin of 2, three for and none against give "Carried", two for
    and one against give "Denied"; no ballot and a margin of 0 give
    "Carried". *)
Theorem C2_endvote_outcome nick line linenum time_ M
    (Hchair : isChair M nick = true) (Hopen : activeVote M ≠ "") :
  let vfor := tally For (currentVote M) in
  let vagainst := tally Against (currentVote M) in
  let result := if (votesrequired M <=? Z.of_nat vfor - Z.of_nat vagainst)%Z
                then "Carried" else "Denied" in
  (∃ M', do_endvote nick line linenum time_ M = Some M'
         ∧ minutes M' =
             minutes M ++
             [items.new items.VOTE nick
                (activeVote M +:+ " (" +:+ result +:+ ")") linenum time_]
         ∧ activeVote M' = "")
  ∧ (∀ f a r, fst <$> outcome f a r ≠ Some "Deadlock")
  ∧ fst <$> outcome 3 0 2 = Some "Carried"
  ∧ fst <$> outcome 2 1 2 = Some "Denied"
  ∧ fst <$> outcome 0 0 0 = Some "Carried".
Proof.
  intros vfor vagainst result. split; [|split; [|done]].
  - unfold do_endvote. rewrite Hchair. simpl.
    apply String.eqb_neq in Hopen. rewrite Hopen.
    rewrite outcome_spec. fold vfor vagainst. subst result.
    destruct (_ <=? _)%Z; simpl; by eexists.
  - apply outcome_never_deadlock.
Qed.

Lemma C2_witness :
  ∃ M', do_endvote "alice" "" 7 t0 (Mvote 2 ballots3) = Some M'
        ∧ minutes M' =
            minutes (Mvote 2 ballots3) ++
            [items.new items.VOTE "alice" "Adopt the plan (Carried)" 7 t0]
        ∧ activeVote M' = "".
Proof.
  refine (proj1 (C2_endvote_outcome "alice" "" 7 t0 (Mvote 2 ballots3) _ _)).
  - vm_compute. reflexivity.
  - vm_compute. discriminate.
Defined.

(** The tally of the three ballots, and of ballots that match no pattern. *)
Example tally_examples :
  tally For (currentVote (Mvote 2 ballots3)) = 3
  ∧ tally Against (list_to_map [("a", "-1"); ("b", "-12"); ("c", "+0")]) = 1
  ∧ tally Abstain (list_to_map [("a", "0"); ("b", "-0."); ("c", "yes")]) = 2.
Proof. repeat split; vm_compute; reflexivity. Qed.







(** The same line through [doPrivmsg], on a session that is not over and
    on one that is. *)
Example doPrivmsg_gate :
  (λ c : option Meeting, (λ M', length (minutes M')) <$> c)
    <$> plugin.doPrivmsg cfg0 t0 (λ _, None) (λ _, None) (λ _, None)
          (λ _, None) (λ _, None) (λ _, "") irc0 msg0 (Some M0)
  = Some (Some 1)
  ∧ (λ c : option Meeting, (λ M', length (minutes M')) <$> c)
      <$> plugin.doPrivmsg cfg0 t0 (λ _, None) (λ _, None) (λ _, None)
            (λ _, None) (λ _, None) (λ _, "") irc0 msg0
            (Some (set_meetingIsOver true M0))
    = Some (Some 0).
Proof. split; vm_compute; reflexivity. Qed.

End session_claims.

(** * The claims about the writers *)

Module writer_claims.

Import items writers writers_facts tag_facts ref_facts examples.




(** C6 as the specification states it fails on its third pinned value:
    counter 26 gives "ba". *)
Lemma C6_counterexample : inbase 26 = Some "ba" ∧ inbase 26 ≠ Some "aa".
Proof. split; vm_compute; [reflexivity | discriminate]. Qed.

(** C6, amended: two items of one nick and one minute, rendered one after
    the other in a pass in which neither name is taken, get the base name
    and the base name followed by "a"; counter 0 gives "a", counter 25
    gives "z" and counter 26 gives "ba". *)
Theorem C6_makeRSTref basename m1 m2 refs urls c
    (Hnick : last_char (nick m1) = Some c)
    (Hsame : nick m2 = nick m1 ∧ time m2 = time m1) :
  let base := if Ascii.eqb c "_" then nick m1 +:+ time m1
              else nick m1 +:+ "-" +:+ time m1 in
  base ∉ refs → base +:+ "a" ∉ refs →
  (∃ st1 st2,
     makeRSTref basename m1 (refs, urls) = Some (base, st1)
     ∧ makeRSTref basename m2 st1 = Some (base +:+ "a", st2))
  ∧ inbase 0 = Some "a" ∧ inbase 25 = Some "z" ∧ inbase 26 = Some "ba".
Proof.
  intros base H1 H2. destruct Hsame as [Hn Ht].
  split; [|repeat split; vm_compute; reflexivity].
  unfold makeRSTref at 1. rewrite Hnick. cbn [mbind option_bind].
  fold base. rewrite rstref_loop_unfold.
  rewrite bool_decide_eq_false_2 by done. cbn [mbind option_bind].
  eexists _, _. split; [reflexivity|].
  unfold makeRSTref. rewrite Hn, Ht, Hnick. cbn [mbind option_bind].
  fold base. rewrite rstref_loop_unfold.
  rewrite bool_decide_eq_true_2 by set_solver.
  change (inbase 0) with (Some "a"). cbn [mbind option_bind].
  rewrite rstref_loop_unfold.
  rewrite bool_decide_eq_false_2; [done|].
  pose proof (append_ne base "a"). set_solver.
Qed.

Lemma C6_witness :
  ∃ st1 st2,
    makeRSTref "chan" m_a (∅, []) = Some ("alice-10:00", st1)
    ∧ makeRSTref "chan" m_b st1 = Some ("alice-10:00" +:+ "a", st2).
Proof.
  refine (proj1 (C6_makeRSTref "chan" m_a m_b ∅ [] "e" _ _ _ _)).
  - reflexivity.
  - split; reflexivity.
  - apply not_elem_of_empty.
  - apply not_elem_of_empty.
Defined.

(** One reST pass over the two items and a third of the same nick and
    minute: the references and the link targets. *)
Example rst_items_run :
  (λ r : list Item * (gset string * list string), (rstref <$> r.1, r.2.2))
    <$> rst_items "chan" [m_a; m_b; new DONE "alice" "third" 5 t0] (∅, [])
  = Some ([Some "alice-10:00"; Some "alice-10:00a"; Some "alice-10:00b"],
          [".. _alice-10:00: chan.log.html#l-3";
           ".. _alice-10:00a: chan.log.html#l-4";
           ".. _alice-10:00b: chan.log.html#l-5"]).
Proof. vm_compute. reflexivity. Qed.

(** *** The hypertext summary *)

(** The list tags of the summary of any items of given classes. *)
Lemma summary_events wrapList basename ms ks :
  keeps_tags wrapList → no_lt basename = true →
  Forall (λ m, no_lt (time m) = true) ms → itemtype <$> ms = ks →
  tag_events (meetingItems wrapList basename ms) = kind_events ks.
Proof.
  intros Hwrap Hb Ht <-. apply meetingItems_kind_events; [done|].
  eapply Forall_impl; [exact Ht|]. intros m Hm. by apply html_tag_free.
Qed.

(** The example of the specification: a topic, an action, a subtopic and
    an action give one entry for the topic, in it a list with the first
    action and the subtopic, and under the subtopic a list with the second
    action; every list and entry is closed once, innermost first. *)
Lemma meetingItems_example wrapList basename ms
    (Hwrap : keeps_tags wrapList) (Hb : no_lt basename = true)
    (Ht : Forall (λ m, no_lt (time m) = true) ms)
    (Hk : itemtype <$> ms = [TOPIC; ACTION; SUBTOPIC; ACTION]) :
  let evs := tag_events (meetingItems wrapList basename ms) in
  evs = [Open OL; Open LI; Open OL; Open LI; Close LI; Open LI; Open OL;
         Open LI; Close LI; Close OL; Close LI; Close OL; Close LI; Close OL]
  ∧ well_nested evs = true.
Proof.
  intros evs. subst evs. rewrite (summary_events _ _ _ _ Hwrap Hb Ht Hk).
  split; vm_compute; reflexivity.
Qed.

Lemma indentItem_keeps_tags : keeps_tags indentItem.
Proof. intros s n. apply tag_events_indentItem. Qed.

(** The four items of the example, with their texts, as the lines of the
    document. *)
Example meetingItems_example_lines :
  meetingItems_lines indentItem "chan" [T1; a1; S1; a2]
  = [ "<h3>Meeting summary</h3>";
      "<ol class=" +:+ dq +:+ "summary" +:+ dq +:+ ">";
      "  <li>" +:+ html "chan" T1;
      "    " +:+ ol_a;
      "      <li>" +:+ html "chan" a1 +:+ "</li>";
      "      <li>" +:+ html "chan" S1;
      "        " +:+ ol_i;
      "          <li>" +:+ html "chan" a2 +:+ "</li>";
      "        </ol>"; "      </li>"; "    </ol>"; "  </li>"; "</ol>" ].
Proof. vm_compute. reflexivity. Qed.

(** C7 fails on the code for two subtopics under one topic: the second
    subtopic is written without closing the entry of the first, so three
    entries are opened outside the items and two are closed, and the
    document is not well nested. *)
Theorem C7_second_subtopic_unclosed wrapList basename ms
    (Hwrap : keeps_tags wrapList) (Hb : no_lt basename = true)
    (Ht : Forall (λ m, no_lt (time m) = true) ms)
    (Hk : itemtype <$> ms = [TOPIC; SUBTOPIC; SUBTOPIC]) :
  let evs := tag_events (meetingItems wrapList basename ms) in
  evs = [Open OL; Open LI; Open OL; Open LI; Open LI; Close LI; Close OL;
         Close LI; Close OL]
  ∧ opens LI evs = 3 ∧ closes LI evs = 2
  ∧ well_nested evs = false.
Proof.
  intros evs. subst evs. rewrite (summary_events _ _ _ _ Hwrap Hb Ht Hk).
  repeat split; vm_compute; reflexivity.
Qed.

Lemma C7_witness :
  let evs := tag_events (meetingItems indentItem "chan" [T1; S1; S2]) in
  evs = [Open OL; Open LI; Open OL; Open LI; Open LI; Close LI; Close OL;
         Close LI; Close OL]
  ∧ opens LI evs = 3 ∧ closes LI evs = 2
  ∧ well_nested evs = false.
Proof.
  apply (C7_second_subtopic_unclosed indentItem "chan" [T1; S1; S2]).
  - exact indentItem_keeps_tags.
  - reflexivity.
  - repeat constructor.
  - reflexivity.
Defined.

(** The lines of that document: the entry of "S1" is still open when the
    entry of "S2" starts, and one [</li>] closes the two. *)
Example meetingItems_two_subtopics_lines :
  meetingItems_lines indentItem "chan" [T1; S1; S2]
  = [ "<h3>Meeting summary</h3>";
      "<ol class=" +:+ dq +:+ "summary" +:+ dq +:+ ">";
      "  <li>" +:+ html "chan" T1;
      "    " +:+ ol_a;
      "      <li>" +:+ html "chan" S1;
      "      <li>" +:+ html "chan" S2;
      "      </li>"; "    </ol>"; "  </li>"; "</ol>" ].
Proof. vm_compute. reflexivity. Qed.

(** A new topic after a subtopic with items closes as many lists and
    entries as are open, but the outer list before the inner one. *)
Lemma meetingItems_topic_after_subtopic wrapList basename ms
    (Hwrap : keeps_tags wrapList) (Hb : no_lt basename = true)
    (Ht : Forall (λ m, no_lt (time m) = true) ms)
    (Hk : itemtype <$> ms = [TOPIC; SUBTOPIC; ACTION; TOPIC]) :
  let evs := tag_events (meetingItems wrapList basename ms) in
  evs = [Open OL; Open LI; Open OL; Open LI; Open OL; Open LI; Close LI;
         Close OL; Close OL; Close LI; Close LI; Open LI; Close LI; Close OL]
  ∧ opens LI evs = closes LI evs ∧ opens OL evs = closes OL evs
  ∧ well_nested evs = false.
Proof.
  intros evs. subst evs. rewrite (summary_events _ _ _ _ Hwrap Hb Ht Hk).
  repeat split; vm_compute; reflexivity.
Qed.

(** *** The per-person action lists *)

(** C10 fails on the code for a single action item that names nobody:
    [get_template] appends the "UNASSIGNED" entry only when it has more
    than one item, so the item is in no entry at all. *)
Theorem C10_single_unassigned_dropped :
  let minutes := [new ACTION "alice" "fix the build" 4 t0] in
  existsb (λ n, nick_RE n "fix the build") (sorted_nicks att0) = false
  ∧ line <$> iterActionItemsUnassigned (mark_assigned att0 minutes)
    = ["fix the build"]
  ∧ (ActionItemsPerson id att0 minutes).1 = [].
Proof. repeat split; vm_compute; reflexivity. Qed.

(** With two such items the entry is there, and an item that names two
    attendees is listed under both; "bobby" does not name "bob". *)
Example ActionItemsPerson_run :
  (ActionItemsPerson id att0
     [new ACTION "x" "Bob to ask alice" 4 t0;
      new ACTION "x" "fix the build" 5 t0;
      new ACTION "x" "bobby to test" 6 t0;
      new INFO "x" "bob was here" 7 t0]).1
  = [("alice", ["Bob to ask alice"]); ("bob", ["Bob to ask alice"]);
     ("UNASSIGNED", ["fix the build"; "bobby to test"])].
Proof. vm_compute. reflexivity. Qed.

Example nick_RE_examples :
  nick_RE "bob" "bob to fix" = true ∧ nick_RE "bob" "bobby to fix" = false
  ∧ nick_RE "bob" "tell BOB: fix" = true ∧ nick_RE "bob" "x_bob" = false
  ∧ nick_RE "bob" "ask (bob)" = true ∧ nick_RE "bob" "" = false.
Proof. repeat split; reflexivity. Qed.

End writer_claims.

(** * Further properties of the session *)

Module session_extras.

Import meeting meeting_facts session_facts examples.























(** X12.  A line that is not a command adds an item exactly when the
    text before its first [//] is one of the configured protocols, and the
    item is then the link made from the whole line, numbered as the line.
    In the configuration in force, every line that starts with one of the
    six protocols and [//] is such a line. *)
Theorem X12_link_detection cfg clock (Hsave : save_frame cfg) M
    (Hwf : vote_wf M) nick line isop time_
    (Hplain : command_RE cfg line = None) :
  (∃ M', addline cfg clock nick line isop time_ M = Some M'
         ∧ items.created <$> minutes M'
           = (items.created <$> minutes M)
             ++ (if bool_decide (before_dslash line ∈ UrlProtocols cfg)
                 then [items.created
                         (items.Link nick line (length (lines M'))
                            (default clock time_))]
                 else []))
  ∧ (∀ basename p rest,
       p ∈ UrlProtocols_default →
       command_RE (config.localConfig basename) (p +:+ "//" +:+ rest) = None
       ∧ before_dslash (p +:+ "//" +:+ rest)
         ∈ UrlProtocols (config.localConfig basename)).
Proof.
  split.
  - destruct (addline_spec cfg clock Hsave nick line isop time_ M Hwf)
      as (M'&E&Hl&_).
    exists M'. split; [done|].
    assert (length (lines M') = S (length (lines M))) as ->.
    { rewrite Hl, length_app. simpl. lia. }
    rewrite (addline_plain cfg clock) in E by done.
    destruct (seen_fields clock nick line isop time_ M) as (Hm&_).
    case_bool_decide.
    + unfold do_link in E. cbn [mbind option_bind] in E.
      apply (after_command_char cfg Hsave) in E as (ms&cv&pv&->&Hc).
      cbn in *. by rewrite Hc, fmap_app, Hm.
    + cbn [mbind option_bind] in E.
      apply (after_command_char cfg Hsave) in E as (ms&cv&pv&->&Hc).
      cbn in *. by rewrite Hc, Hm, app_nil_r.
  - intros basename p rest Hp. unfold UrlProtocols_default in Hp.
    repeat (apply elem_of_cons in Hp as [->|Hp];
            [split; [reflexivity | apply (bool_decide_unpack _); reflexivity]|]).
    by apply elem_of_nil in Hp.
Qed.

Lemma X12_witness :
  ∃ M', addline cfg0 t0 "bob" "https://example.org/a b" false None M0 = Some M'
        ∧ items.created <$> minutes M'
          = (items.created <$> minutes M0)
            ++ (if bool_decide (before_dslash "https://example.org/a b"
                                  ∈ UrlProtocols cfg0)
                then [items.created
                        (items.Link "bob" "https://example.org/a b"
                           (length (lines M')) (default t0 None))]
                else []).
Proof.
  refine (proj1 (X12_link_detection cfg0 t0 (config_facts.localConfig_frame _)
                   M0 (vote_wf_init _ _ _ _ _ _) "bob"
                   "https://example.org/a b" false None _)).
  reflexivity.
Defined.

(** X13.  A line that is not a command and reads as a ballot is stored
    as the ballot of its nick, and the nick is added to the public voters
    of the open vote, when a vote is open and the nick may vote.  A line
    that does not read as a ballot, a line while no vote is open, and a
    line from a nick that is not on a non-empty list of voters leave the
    ballots and the public voters as they are. *)
Theorem X13_ballot_line cfg clock (Hsave : save_frame cfg) M (Hwf : vote_wf M)
    nick line isop time_ (Hplain : command_RE cfg line = None) :
  ∃ M', addline cfg clock nick line isop time_ M = Some M'
        ∧ (ballot_RE line = true → activeVote M ≠ "" →
           voters M = ∅ ∨ nick ∈ voters M →
           ∀ l, publicVoters M !! activeVote M = Some l →
                currentVote M' = <[nick := line]> (currentVote M)
                ∧ publicVoters M'
                  = <[activeVote M := l ++ [nick]]> (publicVoters M))
        ∧ (ballot_RE line = false ∨ activeVote M = ""
           ∨ (voters M ≠ ∅ ∧ nick ∉ voters M) →
           currentVote M' = currentVote M ∧ publicVoters M' = publicVoters M).
Proof.
  destruct (addline_spec cfg clock Hsave nick line isop time_ M Hwf)
    as (M'&E&_).
  exists M'. split; [done|].
  rewrite (addline_plain cfg clock) in E by done.
  pose proof (seen_votes clock nick line isop time_ M) as Hs.
  cbn zeta in Hs. destruct Hs as (Hvo&Hav&Hcv&Hpv&_).
  set (M2 := seen clock nick line isop time_ M) in *. clearbody M2.
  assert (∃ M3, after_command cfg nick line M3 = Some M'
                ∧ voters M3 = voters M ∧ activeVote M3 = activeVote M
                ∧ currentVote M3 = currentVote M
                ∧ publicVoters M3 = publicVoters M)
    as (M3&E3&Hvo3&Hav3&Hcv3&Hpv3).
  { case_bool_decide; cbn [do_link mbind option_bind] in E; eauto 10. }
  clear E. rewrite after_command_eq in E3 by done. cbn zeta in E3.
  unfold doCastVote in E3.
  cbn [voters activeVote currentVote publicVoters set_minutes set_currentVote]
    in E3.
  rewrite Hvo3, Hav3, Hcv3, Hpv3 in E3.
  split.
  - intros Hb Hopen Hallowed l Hl. rewrite Hb, Hl in E3.
    rewrite (proj2 (String.eqb_neq _ _) Hopen) in E3.
    assert (bool_decide (voters M = ∅) || bool_decide (nick ∈ voters M) = true)
      as Hok.
    { destruct Hallowed as [Hv|Hv]; rewrite (bool_decide_eq_true_2 _ Hv);
        [done | by rewrite orb_true_r]. }
    rewrite Hok in E3. cbn in E3. by simplify_eq.
  - intros [Hb|[Hclosed|[Hne Hnin]]].
    + rewrite Hb in E3. by simplify_eq.
    + rewrite Hclosed, String.eqb_refl in E3. cbn [negb] in E3.
      destruct (ballot_RE line); [destruct (_ || _)|]; by simplify_eq.
    + rewrite !bool_decide_eq_false_2 in E3 by done. cbn [orb] in E3.
      destruct (ballot_RE line); by simplify_eq.
Qed.

Lemma X13_witness :
  ∃ M', addline cfg0 t0 "bob" "+1 yes" false None (Mvote 0 []) = Some M'
        ∧ (ballot_RE "+1 yes" = true → activeVote (Mvote 0 []) ≠ "" →
           voters (Mvote 0 []) = ∅ ∨ "bob" ∈ voters (Mvote 0 []) →
           ∀ l, publicVoters (Mvote 0 []) !! activeVote (Mvote 0 []) = Some l →
                currentVote M' = <["bob" := "+1 yes"]> (currentVote (Mvote 0 []))
                ∧ publicVoters M'
                  = <[activeVote (Mvote 0 []) := l ++ ["bob"]]>
                      (publicVoters (Mvote 0 [])))
        ∧ (ballot_RE "+1 yes" = false ∨ activeVote (Mvote 0 []) = ""
           ∨ (voters (Mvote 0 []) ≠ ∅ ∧ "bob" ∉ voters (Mvote 0 [])) →
           currentVote M' = currentVote (Mvote 0 [])
           ∧ publicVoters M' = publicVoters (Mvote 0 [])).
Proof.
  apply (X13_ballot_line cfg0 t0 (config_facts.localConfig_frame _)
           (Mvote 0 []) (λ _, mk_is_Some _ _ eq_refl)
           "bob" "+1 yes" false None).
  reflexivity.
Defined.

End session_extras.

(** * Further properties of the plugin and of the persistence layer *)

Module plugin_extras.

Import meeting meeting_facts session_facts lifecycle_facts plugin examples.

(** X14.  A line that begins with [#startmeeting] is ignored, and not
    even logged, while the channel has a session.  With no session it
    creates one owned by the sender, in which this line is the only line
    of the transcript; the session is kept unless that very line has ended
    it. *)
Theorem X14_startmeeting cfg clock logline_RE loglineAction_RE parse_time
    logfile_RE parse_time_file getUrl irc msg
    (Hsave : save_frame cfg) (Hnick : msg_nick msg ≠ "")
    (Hstart : starts_with_ci "#startmeeting" (strip (msg_text msg)) = true) :
  (∀ M, doPrivmsg cfg clock logline_RE loglineAction_RE parse_time logfile_RE
          parse_time_file getUrl irc msg (Some M) = Some (Some M))
  ∧ ∃ M',
      doPrivmsg cfg clock logline_RE loglineAction_RE parse_time logfile_RE
        parse_time_file getUrl irc msg None
      = Some (if _meetingIsOver M' then None else Some M')
      ∧ owner M' = Some (msg_nick msg)
      ∧ lines M' = [logline (msg_nick msg) (strip (msg_text msg)) clock]
      ∧ botNick M' = irc_nick irc
      ∧ vote_books M'.
Proof.
  split; [intros M; unfold doPrivmsg; by rewrite Hstart|].
  unfold doPrivmsg. rewrite Hstart.
  set (M := init _ _ _ _ _ _).
  destruct (forward_running cfg clock Hsave irc msg (strip (msg_text msg)) M)
    as (M1&->&Hl&(Ho&_&Hb&_&_&_&Hk)&_); [apply vote_wf_init|done|].
  exists M1. split; [done|]. split.
  - rewrite Ho; [done|]. unfold no_owner. subst M. simpl.
    intros [?|[= ?]]; done.
  - split; [done|]. split; [done|]. apply Hk. apply vote_books_init.
Qed.

Lemma X14_witness :
  ∃ M',
    doPrivmsg cfg0 t0 (λ _, None) (λ _, None) (λ _, None) (λ _, None)
      (λ _, None) (λ _, "") irc0
      {| msg_nick := "alice"; msg_host := "example.org";
         msg_channel := "#chan"; msg_text := "#startmeeting Weekly" |} None
    = Some (if _meetingIsOver M' then None else Some M')
    ∧ owner M' = Some "alice"
    ∧ lines M' = [logline "alice" (strip "#startmeeting Weekly") t0]
    ∧ botNick M' = irc_nick irc0
    ∧ vote_books M'.
Proof.
  refine (proj2 (X14_startmeeting cfg0 t0 _ _ _ _ _ _ irc0
                   {| msg_nick := "alice"; msg_host := "example.org";
                      msg_channel := "#chan";
                      msg_text := "#startmeeting Weekly" |}
                   (config_facts.localConfig_frame _) _ _)).
  - discriminate.
  - reflexivity.
Defined.

(** X15.  Outside a meeting a line that starts neither a meeting nor a
    replay is dropped.  In a meeting that is not over, a line from a nick
    that is not the owner, a chair or a channel operator never removes the
    session from the cache, whatever the line says: the session stays, with
    the line added to its transcript.  A line that begins with
    [#abortmeeting] from the owner, a chair or an operator removes it. *)
Theorem X15_eviction cfg clock logline_RE loglineAction_RE parse_time
    logfile_RE parse_time_file getUrl irc msg
    (Hsave : save_frame cfg)
    (Hns : starts_with_ci "#startmeeting" (strip (msg_text msg)) = false)
    (Hnr : starts_with_ci "#replay" (strip (msg_text msg)) = false) :
  doPrivmsg cfg clock logline_RE loglineAction_RE parse_time logfile_RE
    parse_time_file getUrl irc msg None = Some None
  ∧ (∀ M, vote_wf M → _meetingIsOver M = false →
          isChair irc M (msg_nick msg) = false →
          ∃ M', doPrivmsg cfg clock logline_RE loglineAction_RE parse_time
                  logfile_RE parse_time_file getUrl irc msg (Some M)
                = Some (Some M')
                ∧ lines M'
                  = lines M ++ [logline (msg_nick msg) (strip (msg_text msg)) clock]
                ∧ _meetingIsOver M' = false)
  ∧ (∀ M, starts_with_ci "#abortmeeting" (strip (msg_text msg)) = true →
          isChair irc M (msg_nick msg) = true →
          doPrivmsg cfg clock logline_RE loglineAction_RE parse_time
            logfile_RE parse_time_file getUrl irc msg (Some M) = Some None).
Proof.
  split; [|split].
  - unfold doPrivmsg. by rewrite Hns, Hnr.
  - intros M Hwf Hover Hnc. unfold doPrivmsg. rewrite Hns, Hnr, Hnc.
    rewrite !andb_false_r.
    destruct (forward_running cfg clock Hsave irc msg (strip (msg_text msg)) M)
      as (M1&->&Hl&_&Hch); [done..|].
    destruct (_meetingIsOver M1) eqn:Ev.
    + specialize (Hch eq_refl). unfold isChair in Hnc.
      unfold meeting.isChair in Hch. simpl in Hch. congruence.
    + by exists M1.
  - intros M Hab Hc. unfold doPrivmsg. rewrite Hns, Hnr, Hab, Hc.
    by destruct (_ && _ && _).
Qed.

Lemma X15_witness :
  doPrivmsg cfg0 t0 (λ _, None) (λ _, None) (λ _, None) (λ _, None)
    (λ _, None) (λ _, "") irc0 msg0 None = Some None.
Proof.
  refine (proj1 (X15_eviction cfg0 t0 _ _ _ _ _ _ irc0 msg0
                   (config_facts.localConfig_frame _) _ _)); reflexivity.
Defined.


End plugin_extras.

(** * Further properties of the items and of the writers *)

Module writer_extras.

Import items writers writers_facts tag_facts ref_facts item_facts sort_facts
  block_facts examples.

(** X17.  A link item splits its line at the first space: the address has
    no space and is the head of the line, a line without a space is all
    address, and the address, a space and the rest give the line back up to
    the white space at its end. *)
Theorem X17_Link_split nick l n t :
  let m := Link nick l n t in
  itemtype m = LINK ∧ linenum m = n
  ∧ mem_char " " (url m) = false
  ∧ starts_with (url m) l = true
  ∧ rstrip (url m +:+ " " +:+ line m) = rstrip l
  ∧ (mem_char " " l = false → url m = l ∧ line m = "").
Proof.
  cbn zeta. destruct (Link_spec nick l n t) as (H1&H2&H3&H4&H5).
  repeat (split; [done|]).
  intros Hl. unfold Link. by rewrite (split_first_space_none l Hl).
Qed.

Lemma X17_witness :
  url (Link "bob" "https://example.org" 3 t0) = "https://example.org"
  ∧ line (Link "bob" "https://example.org" 3 t0) = "".
Proof.
  apply (X17_Link_split "bob" "https://example.org" 3 t0). reflexivity.
Defined.

(** X18.  The escaper of the hypertext writers leaves neither [<] nor [>]
    in its result, loses nothing (two texts with the same result are the
    same text), and returns a text without [&], [<] and [>] as it is. *)
Theorem X18_html_escape s :
  no_lt (escapers.html s) = true ∧ no_gt (escapers.html s) = true
  ∧ (∀ s', escapers.html s = escapers.html s' → s = s')
  ∧ (mem_char "&" s = false → mem_char "<" s = false →
     mem_char ">" s = false → escapers.html s = s).
Proof.
  split; [apply no_lt_html|]. split; [apply no_gt_html|].
  split; [apply html_inj | apply html_safe].
Qed.

Lemma X18_witness : escapers.html "fix the build" = "fix the build".
Proof.
  apply (X18_html_escape "fix the build"); reflexivity.
Defined.

(** X19.  The suffix function gives one letter for a counter below 26 and
    two letters, the quotient and the remainder by 26, for a counter from
    26 to 675; these suffixes are all different.  From 676 up to 17575 it
    raises. *)
Theorem X19_inbase_range i :
  (i < 26 →
   ∃ c, String.get i alphabet = Some c ∧ inbase i = Some (String c ""))
  ∧ (26 ≤ i → i < 676 →
     ∃ c1 c2, String.get (i / 26) alphabet = Some c1
              ∧ String.get (i mod 26) alphabet = Some c2
              ∧ inbase i = Some (String c1 (String c2 "")))
  ∧ (676 ≤ i → i < 26 * 676 → inbase i = None)
  ∧ (∀ j, i < 676 → j < 676 → inbase i = inbase j → i = j).
Proof.
  split; [apply inbase_small|]. split; [apply inbase_two|].
  split; [apply inbase_gap|]. intros j. apply inbase_inj.
Qed.

Lemma X19_witness : inbase 1000 = None.
Proof.
  apply (X19_inbase_range 1000); apply Nat.leb_le; reflexivity.
Defined.

(** X20.  One pass of the reference-style writer over the minutes gives
    every item a reference, no two of them the same; the references are the
    ones recorded as used, there is one address line for each item, and the
    items are otherwise as they were created. *)
Theorem X20_rst_refs_unique basename ms ms' refs urls
    (Hrun : rst_items basename ms (∅, []) = Some (ms', (refs, urls))) :
  ∃ rs, rstref <$> ms' = Some <$> rs ∧ NoDup rs
        ∧ refs = list_to_set rs
        ∧ length urls = length ms
        ∧ created <$> ms' = created <$> ms.
Proof.
  destruct (rst_items_refs _ _ _ _ _ _ _ Hrun) as (rs&Hrs&Hnd&_&->&Hlen&_).
  exists rs. split; [done|]. split; [done|]. split; [set_solver|].
  split; [done|].
  eapply Forall2_created, (rst_items_marks []), Hrun.
Qed.

Lemma X20_witness :
  ∃ rs, rstref <$> [set_rstref (Some "alice-10:00") m_a;
                     set_rstref (Some "alice-10:00a") m_b]
        = Some <$> rs
        ∧ NoDup rs
        ∧ ({["alice-10:00a"]} ∪ ({["alice-10:00"]} ∪ ∅) : gset string)
          = list_to_set rs
        ∧ length [".. _alice-10:00: chan.log.html#l-3";
                  ".. _alice-10:00a: chan.log.html#l-4"]
          = length [m_a; m_b]
        ∧ created <$> [set_rstref (Some "alice-10:00") m_a;
                        set_rstref (Some "alice-10:00a") m_b]
          = created <$> [m_a; m_b].
Proof.
  apply (X20_rst_refs_unique "chan" [m_a; m_b]). reflexivity.
Defined.

(** X21.  The list of people present holds every attendee once, the
    larger counts first, and attendees with the same count in the order in
    which they were first seen. *)
Theorem X21_iterNickCounts att :
  iterNickCounts att ≡ₚ att
  ∧ StronglySorted count_ge (iterNickCounts att)
  ∧ ∀ c, List.filter (λ y : string * nat, y.2 =? c) (iterNickCounts att)
         = List.filter (λ y : string * nat, y.2 =? c) att.
Proof. apply iterNickCounts_spec. Qed.

(** X22.  The nicks of the per-person action lists are the attendees, each
    once, in the order of their lower-case forms. *)
Theorem X22_sorted_nicks att :
  sorted_nicks att ≡ₚ att.*1 ∧ StronglySorted nick_le (sorted_nicks att).
Proof. apply sorted_nicks_spec. Qed.

(** X23.  The block of the people present is one list with one entry for
    each attendee, each entry opened and closed in turn: its list tags are
    well nested whatever the nicks are. *)
Theorem X23_peoplePresent att :
  let evs := tag_events (peoplePresent att) in
  evs = Open OL :: entries (length att) ++ [Close OL]
  ∧ well_nested evs = true
  ∧ opens LI evs = length att
  ∧ length (peoplePresent_lines att) = length att + 3.
Proof.
  cbn zeta. rewrite peoplePresent_events.
  split; [done|]. split; [apply list_well_nested|].
  split; [apply opens_list|].
  unfold peoplePresent_lines. rewrite !length_app, length_fmap.
  destruct (iterNickCounts_spec att) as (Hp&_).
  rewrite (Permutation_length Hp). simpl. lia.
Qed.

(** X24.  The blocks of the action items and of the done items are absent
    exactly when the minutes have no item of the class; otherwise each is
    one well-nested list with one entry for each item of the class. *)
Theorem X24_class_blocks wrapList (Hwrap : keeps_tags wrapList) ms :
  let actions := List.filter (λ m, bool_decide (itemtype m = ACTION)) ms in
  let dones := List.filter (λ m, bool_decide (itemtype m = DONE)) ms in
  (actionItems wrapList ms = None ↔ actions = [])
  ∧ (doneItems wrapList ms = None ↔ dones = [])
  ∧ (∀ s, actionItems wrapList ms = Some s →
          well_nested (tag_events s) = true
          ∧ opens LI (tag_events s) = length actions)
  ∧ (∀ s, doneItems wrapList ms = Some s →
          well_nested (tag_events s) = true
          ∧ opens LI (tag_events s) = length dones).
Proof.
  cbn zeta.
  pose proof (class_items_spec wrapList Hwrap ACTION "Action items" ms eq_refl)
    as Ha.
  pose proof (class_items_spec wrapList Hwrap DONE "Done items" ms eq_refl)
    as Hd.
  cbn zeta in Ha, Hd. unfold actionItems, doneItems.
  destruct (class_items wrapList ACTION _ ms) as [sa|];
    destruct (class_items wrapList DONE _ ms) as [sd|].
  - destruct Ha as [Ha1 Ha2], Hd as [Hd1 Hd2].
    split; [split; [done|]; intros E; rewrite E in Ha1; simpl in Ha1; lia|].
    split; [split; [done|]; intros E; rewrite E in Hd1; simpl in Hd1; lia|].
    split; intros s [= <-].
    + rewrite Ha2. split; [apply list_well_nested | apply opens_list].
    + rewrite Hd2. split; [apply list_well_nested | apply opens_list].
  - destruct Ha as [Ha1 Ha2].
    split; [split; [done|]; intros E; rewrite E in Ha1; simpl in Ha1; lia|].
    split; [split; [|done]; intros _; by apply length_zero_iff_nil|].
    split; [|done]. intros s [= <-].
    rewrite Ha2. split; [apply list_well_nested | apply opens_list].
  - destruct Hd as [Hd1 Hd2].
    split; [split; [|done]; intros _; by apply length_zero_iff_nil|].
    split; [split; [done|]; intros E; rewrite E in Hd1; simpl in Hd1; lia|].
    split; [done|]. intros s [= <-].
    rewrite Hd2. split; [apply list_well_nested | apply opens_list].
  - split; [split; [|done]; intros _; by apply length_zero_iff_nil|].
    split; [split; [|done]; intros _; by apply length_zero_iff_nil|].
    done.
Qed.

Lemma X24_witness :
  actionItems indentItem [T1; a1; S1; a2] = None
  ↔ List.filter (λ m, bool_decide (itemtype m = ACTION)) [T1; a1; S1; a2] = [].
Proof.
  apply (X24_class_blocks indentItem). intros s n. apply tag_events_indentItem.
Defined.

(** X25.  The block of the action items by person is absent exactly when
    no action item names an attendee, whether or not there are action items
    that name nobody.  When it is present its list tags are well nested.
    The call leaves the items flagged as every summary writer does. *)
Theorem X25_actionItemsPerson wrapList (Hwrap : keeps_tags wrapList) att ms :
  (actionItemsPerson wrapList att ms).2 = mark_assigned att ms
  ∧ ((actionItemsPerson wrapList att ms).1 = None
     ↔ ∀ nick m, nick ∈ att.*1 → m ∈ ms → itemtype m = ACTION →
                 nick_RE nick (line m) = false)
  ∧ (∀ s, (actionItemsPerson wrapList att ms).1 = Some s →
          well_nested (tag_events s) = true).
Proof.
  destruct (actionItemsPerson_spec wrapList Hwrap att ms) as [H2 H1].
  split; [done|].
  pose proof (λ nick, filter_matches_nil nick ms) as Hfilter.
  destruct ((actionItemsPerson wrapList att ms).1) as [s|].
  - destruct H1 as [Hex Hev]. split.
    + split; [done|]. intros Hall. exfalso.
      apply Exists_exists in Hex as (nick&Hin&Hne). apply Hne.
      apply Hfilter. intros m Hm Ht. apply Hall; [|done..].
      by apply sorted_nicks_elem.
    + intros s' [= <-]. rewrite Hev. apply balanced_well_nested.
      apply balanced_wrap, balanced_app; [|apply balanced_block].
      apply balanced_flat_map. intros nick. apply balanced_block.
  - split; [|done]. split; [|done]. intros _ nick m Hn Hm Ht.
    rewrite Forall_forall in H1.
    apply (proj1 (Hfilter nick)); [|done..].
    apply H1. by apply sorted_nicks_elem.
Qed.

Lemma X25_witness :
  (actionItemsPerson indentItem att0 [bob_item]).2 = mark_assigned att0 [bob_item].
Proof.
  apply (X25_actionItemsPerson indentItem). intros s n.
  apply tag_events_indentItem.
Defined.


End writer_extras.

(** * Further properties: the agenda, the meeting name and the replay *)

Module composite_extras.

Import PyStr meeting meeting_facts session_facts items writers
  agenda_facts name_facts replay_facts examples.

(** X27.  The agenda that [get_template] hands to a template holds every
    item of the minutes once and in order: the groups, each topic followed
    by its items, laid end to end are the templates of the minutes, with
    the [Prologue] topic in front when the minutes do not start with a
    topic (empty minutes included).  Each group is headed by a topic and
    has no topic among its items.  This needs every topic to have a nick
    that is not empty once escaped: a topic without nick and without items
    is left out. *)
Theorem X27_MeetingItems escape basename ms
    (Hnick : Forall (λ m, itemtype m = TOPIC → escape (nick m) ≠ "") ms) :
  ungroup (MeetingItems_groups escape basename ms)
  = (match ms with
     | m :: _ => if bool_decide (itemtype m = TOPIC) then [] else [Prologue]
     | [] => [Prologue]
     end) ++ (template escape basename <$> ms)
  ∧ Forall group_ok (MeetingItems_groups escape basename ms).
Proof.
  unfold MeetingItems_groups. split.
  - pose proof (topic_loop escape basename ms [] (Prologue, []) Hnick) as H.
    destruct (foldl _ _ ms) as [out g]. rewrite H. simpl.
    destruct ms as [|m ms']; [done|]. by case_bool_decide.
  - pose proof (topic_loop_ok escape basename ms [] (Prologue, [])) as H.
    destruct (foldl _ _ ms) as [out g]. apply H; [constructor|].
    split; [done|constructor].
Qed.

Lemma X27_witness :
  ungroup (MeetingItems_groups id "chan" [a1; T1; a2; T2])
  = [Prologue] ++ (template id "chan" <$> [a1; T1; a2; T2])
  ∧ Forall group_ok (MeetingItems_groups id "chan" [a1; T1; a2; T2]).
Proof.
  apply (X27_MeetingItems id "chan" [a1; T1; a2; T2]).
  repeat constructor; intros _; discriminate.
Defined.

(** X28.  A [meetingname] command from a chair sets the name to the words
    of its argument in lower case, joined by underscores, so the name has
    no white space and no capital letter; from anyone else it leaves the
    name as it was. *)
Theorem X28_meetingname cfg clock (Hsave : save_frame cfg) M (Hwf : vote_wf M)
    nick line isop time_ c arg
    (Hcmd : command_RE cfg line = Some (c, arg))
    (Hname : lower c = "meetingname") :
  ∃ M', addline cfg clock nick line isop time_ M = Some M'
        ∧ _meetingname M'
          = (if isChair (set_isop isop M) nick
             then join "_" (split_ws (lower arg)) else _meetingname M)
        ∧ (isChair (set_isop isop M) nick = true →
           Forall (λ c, is_space c = false ∧ lower_char c = c)
             (list_ascii_of_string (_meetingname M'))).
Proof.
  destruct (addline_spec cfg clock Hsave nick line isop time_ M Hwf)
    as (M'&E&_).
  exists M'. split; [done|].
  assert (_meetingname M'
          = (if isChair (set_isop isop M) nick
             then join "_" (split_ws (lower arg)) else _meetingname M)) as Hn.
  { assert (_meetingname (seen clock nick line isop time_ M) = _meetingname M)
      as Hseen.
    { clear. unfold seen, addnick. by destruct (negb _). }
    rewrite (addline_command cfg clock _ _ _ _ _ c arg (do_meetingname)) in E;
      [|done|by rewrite Hname].
    unfold do_meetingname in E. rewrite isChair_seen in E.
    destruct (isChair (set_isop isop M) nick); cbn [negb] in E;
      apply (after_command_char cfg Hsave) in E as (ms&cv&pv&->&_); done. }
  split; [done|]. intros Hch. rewrite Hn, Hch. apply meetingname_chars.
Qed.

Lemma X28_witness :
  ∃ M', addline cfg0 t0 "alice" "#meetingname Weekly  Sync" false None M0
        = Some M'
        ∧ _meetingname M'
          = (if isChair (set_isop false M0) "alice"
             then join "_" (split_ws (lower "Weekly  Sync"))
             else _meetingname M0)
        ∧ (isChair (set_isop false M0) "alice" = true →
           Forall (λ c, is_space c = false ∧ lower_char c = c)
             (list_ascii_of_string (_meetingname M'))).
Proof.
  apply (X28_meetingname cfg0 t0 (config_facts.localConfig_frame _) M0
           (vote_wf_init _ _ _ _ _ _) "alice" "#meetingname Weekly  Sync"
           false None "meetingname" "Weekly  Sync");
    reflexivity.
Defined.



End composite_extras.
